(** * JCL utility scanner: a shallow embedding of [jcl_utilscan.py]

    The development follows the Python module
    [automationaccelerator/modules/jcl_utilscan.py]: the symbolic parameter
    resolver ([resolve_symbolic_parameter], [find_proc_content]), the step
    extractor ([extract_steps_from_file], [extract_control_card]) and the
    part of the coordinator ([process_files]) that fills the queue, starts
    the threads and waits for them; then the helpers of the module
    ([add_output_dir_to_config], [validate_directory],
    [generate_versioned_filename]) and the tables [process_files] builds
    for the report from [extracted_data].

    - Text is [string], read as ASCII code points; the character classes,
      [strip], [upper], [startswith], [endswith], [join], [os.path.join]
      and [os.path.basename] used by the module are written out.
    - The regular expressions of the module are terms of a small regex
      syntax, run by a backtracking matcher with Python's priorities
      (greedy repetition, leftmost alternative, leftmost start for
      [re.search]).  A parameter name spliced into a pattern is taken as
      literal text, which it is for names made of word characters
      ([Pat.plain_name]); what is proved of those patterns is proved for
      such names.
    - The file system is a parameter [FS]: which paths exist, what reading
      them gives (text, or an exception), what [os.walk] enumerates and
      which paths are directories.
    - Exceptions are values ([Raise]).  The shared list [extracted_data]
      and the messages given to [log_error] (without their time stamps) are
      threaded through a state-and-exception monad, so that the state
      reached when an exception is thrown is visible.
    - The threads of [process_files] are interleaved by a schedule: a step
      of a thread is one access to the shared queue or list. *)

From stdpp Require Import gmap strings list sorting.
From Stdlib Require Import Ascii ZArith Lia Permutation.
From Stdlib Require String DecimalString.

Local Open Scope nat_scope.

(** ** Characters and strings, as Python treats them *)

Module Py.

Definition code (c : ascii) : nat := nat_of_ascii c.

(** [str.isspace] on ASCII, which is also the class [\s] of [re] for [str]
    patterns: TAB, LF, VT, FF, CR, FS, GS, RS, US and the blank. *)
Definition is_space (c : ascii) : bool :=
  let n := code c in
  ((9 <=? n) && (n <=? 13)) || ((28 <=? n) && (n <=? 32)).

Definition is_upper (c : ascii) : bool := let n := code c in (65 <=? n) && (n <=? 90).
Definition is_lower (c : ascii) : bool := let n := code c in (97 <=? n) && (n <=? 122).
Definition is_digit (c : ascii) : bool := let n := code c in (48 <=? n) && (n <=? 57).

(** The class [\w] on ASCII: letters, digits and the underscore. *)
Definition is_word (c : ascii) : bool :=
  is_upper c || is_lower c || is_digit c || (code c =? 95).

Definition upper_char (c : ascii) : ascii :=
  if is_lower c then ascii_of_nat (code c - 32) else c.

(** [s.upper()] *)
Fixpoint upper (s : string) : string :=
  match s with
  | EmptyString => EmptyString
  | String c s' => String (upper_char c) (upper s')
  end.

Definition ascii_eqb (a b : ascii) : bool := Ascii.eqb a b.

(** [s == t] *)
Definition str_eqb (s t : string) : bool := String.eqb s t.

(** [not s], the truth value of a string being its non-emptiness *)
Definition is_empty (s : string) : bool :=
  match s with EmptyString => true | String _ _ => false end.

(** [s[1:]] *)
Definition tail (s : string) : string :=
  match s with EmptyString => EmptyString | String _ t => t end.

(** [s.lstrip()] *)
Fixpoint lstrip (s : string) : string :=
  match s with
  | EmptyString => EmptyString
  | String c s' => if is_space c then lstrip s' else s
  end.

(** [s.rstrip()] *)
Fixpoint rstrip (s : string) : string :=
  match s with
  | EmptyString => EmptyString
  | String c s' =>
      match rstrip s' with
      | EmptyString => if is_space c then EmptyString else String c EmptyString
      | r => String c r
      end
  end.

(** [s.strip()] *)
Definition strip (s : string) : string := lstrip (rstrip s).

(** [s.startswith(p)] *)
Fixpoint startswith (p s : string) : bool :=
  match p, s with
  | EmptyString, _ => true
  | String a p', String b s' => ascii_eqb a b && startswith p' s'
  | String _ _, EmptyString => false
  end.

(** [s.endswith(p)] *)
Fixpoint endswith (p s : string) : bool :=
  str_eqb p s ||
  match s with
  | EmptyString => false
  | String _ s' => endswith p s'
  end.

(** [sep.join(l)] *)
Fixpoint join (sep : string) (l : list string) : string :=
  match l with
  | [] => EmptyString
  | [x] => x
  | x :: l' => x +:+ sep +:+ join sep l'
  end.

Definition newline : ascii := ascii_of_nat 10.
Definition nl : string := String newline EmptyString.

(** The lines of a text, each with its line end kept, as [f.readlines()]
    and iteration over a file give them (the text is the decoded one, in
    which every line end is a single LF). *)
Fixpoint splitlines_keepends (s : string) : list string :=
  match s with
  | EmptyString => []
  | String c s' =>
      if ascii_eqb c newline then String c EmptyString :: splitlines_keepends s'
      else
        match splitlines_keepends s' with
        | [] => [String c EmptyString]
        | l :: ls => String c l :: ls
        end
  end.

(** [s.split("\n")]: the lines of a text, without their line ends *)
Fixpoint split_lines (s : string) : list string :=
  match s with
  | EmptyString => [EmptyString]
  | String c s' =>
      if ascii_eqb c newline then EmptyString :: split_lines s'
      else
        match split_lines s' with
        | [] => [String c EmptyString]
        | l :: ls => String c l :: ls
        end
  end.

(** ["\n" in s] *)
Fixpoint has_newline (s : string) : bool :=
  match s with
  | EmptyString => false
  | String c s' => ascii_eqb c newline || has_newline s'
  end.

(** [os.path.join(a, b)] on a POSIX system *)
Definition path_join (a b : string) : string :=
  if startswith "/" b then b
  else if is_empty a || endswith "/" a then a +:+ b
  else a +:+ "/" +:+ b.

(** [os.path.basename(p)]: what follows the last slash *)
Fixpoint basename (p : string) : string :=
  match p with
  | EmptyString => EmptyString
  | String c p' =>
      if existsb (ascii_eqb "/"%char) (String.list_ascii_of_string p') then basename p'
      else if ascii_eqb c "/"%char then p' else p
  end.

End Py.

(** ** Regular expressions

    The fragment of Python's [re] syntax that the module uses.  Every
    repetition in the module's patterns is over a single character class,
    so [Star] takes a class; [\s+] is [Cls] followed by [Star]. *)

Module Re.

Inductive regex : Type :=
| Eps
| Cls (p : ascii -> bool)          (* one character of a class *)
| Seq (r1 r2 : regex)              (* r1 r2 *)
| Alt (r1 r2 : regex)              (* r1|r2 *)
| Star (p : ascii -> bool)         (* greedy repetition of a class *)
| Opt (r : regex)                  (* (?:r)? , greedy *)
| Bnd                              (* \b *)
| Grp (n : nat) (r : regex).       (* the n-th capturing group *)

(** Captured groups, most recent binding first. *)
Definition caps := list (nat * string).

Fixpoint group (n : nat) (c : caps) : string :=
  match c with
  | [] => EmptyString
  | (m, s) :: c' => if n =? m then s else group n c'
  end.

(** [take n s]: the first [n] characters of [s] *)
Fixpoint take (n : nat) (s : string) : string :=
  match n, s with
  | S n', String c s' => String c (take n' s')
  | _, _ => EmptyString
  end.

Definition wordish (o : option ascii) : bool :=
  match o with Some c => Py.is_word c | None => false end.

Definition peek (s : string) : option ascii :=
  match s with String c _ => Some c | EmptyString => None end.

Section Matcher.
Context {A : Type}.

(** Greedy repetition: take one more character when possible, and give
    it back when the rest of the pattern fails. [prev] is the character
    before the current position, which [\b] looks at. *)
Fixpoint star (p : ascii -> bool) (prev : option ascii) (s : string)
    (k : option ascii -> string -> option A) : option A :=
  match s with
  | String c s' =>
      if p c then
        match star p (Some c) s' k with
        | Some a => Some a
        | None => k prev s
        end
      else k prev s
  | EmptyString => k prev s
  end.

Fixpoint run (r : regex) (prev : option ascii) (s : string) (c : caps)
    (k : option ascii -> string -> caps -> option A) : option A :=
  match r with
  | Eps => k prev s c
  | Cls p =>
      match s with
      | String a s' => if p a then k (Some a) s' c else None
      | EmptyString => None
      end
  | Seq r1 r2 => run r1 prev s c (fun prev' s' c' => run r2 prev' s' c' k)
  | Alt r1 r2 =>
      match run r1 prev s c k with
      | Some a => Some a
      | None => run r2 prev s c k
      end
  | Star p => star p prev s (fun prev' s' => k prev' s' c)
  | Opt r1 =>
      match run r1 prev s c k with
      | Some a => Some a
      | None => k prev s c
      end
  | Bnd => if xorb (wordish prev) (wordish (peek s)) then k prev s c else None
  | Grp n r1 =>
      run r1 prev s c
        (fun prev' s' c' =>
           k prev' s' ((n, take (String.length s - String.length s') s) :: c'))
  end.
End Matcher.

Definition accept : option ascii -> string -> caps -> option caps :=
  fun _ _ c => Some c.

(** [re.match(r, s)]: the pattern anchored at the start of [s] *)
Definition re_match (r : regex) (s : string) : option caps :=
  run r None s [] accept.

(** [re.search(r, s)]: the first start position at which the pattern matches *)
Fixpoint search_from (r : regex) (prev : option ascii) (s : string) : option caps :=
  match run r prev s [] accept with
  | Some c => Some c
  | None =>
      match s with
      | String a s' => search_from r (Some a) s'
      | EmptyString => None
      end
  end.

Definition re_search (r : regex) (s : string) : option caps := search_from r None s.

(** Pattern builders *)
Definition cat (l : list regex) : regex := foldr Seq Eps l.
Definition plus (p : ascii -> bool) : regex := Seq (Cls p) (Star p).

(** One literal character; with [re.IGNORECASE] the case is folded. *)
Definition chr_cs (a : ascii) : ascii -> bool := fun x => Py.ascii_eqb x a.
Definition chr_ci (a : ascii) : ascii -> bool :=
  fun x => Py.ascii_eqb (Py.upper_char x) (Py.upper_char a).

Fixpoint lit_with (f : ascii -> ascii -> bool) (s : string) : regex :=
  match s with
  | EmptyString => Eps
  | String a s' => Seq (Cls (f a)) (lit_with f s')
  end.

Definition lit := lit_with chr_cs.      (* literal text *)
Definition liti := lit_with chr_ci.     (* literal text under re.IGNORECASE *)

(** Character classes *)
Definition sp : ascii -> bool := Py.is_space.                        (* \s *)
Definition nsp : ascii -> bool := fun c => negb (Py.is_space c).     (* \S *)
Definition wd : ascii -> bool := Py.is_word.                         (* \w *)
Definition dot : ascii -> bool := fun c => negb (Py.ascii_eqb c Py.newline).   (* . *)
Definition not_comma_sp : ascii -> bool :=
  fun c => negb (Py.ascii_eqb c ","%char) && negb (Py.is_space c).   (* [^,\s] *)
Definition not_comma : ascii -> bool := fun c => negb (Py.ascii_eqb c ","%char).  (* [^,] *)
Definition not_rparen : ascii -> bool := fun c => negb (Py.ascii_eqb c ")"%char). (* [^)] *)

End Re.

(** Every character of a text satisfies a test. *)
Fixpoint all_chars (p : ascii -> bool) (s : string) : bool :=
  match s with
  | EmptyString => true
  | String c s' => p c && all_chars p s'
  end.

(** ** Exceptions and the file system *)

(** The outcome of a Python call: a value, or a raised exception carrying
    its message ([str(e)]). *)
Inductive result (A : Type) : Type :=
| Ok (a : A)
| Raise (msg : string).
Arguments Ok {A} a.
Arguments Raise {A} msg.

Definition is_raise {A} (r : result A) : bool :=
  match r with Raise _ => true | Ok _ => false end.

#[global] Instance result_ret : MRet result := fun A a => Ok a.
#[global] Instance result_bind : MBind result :=
  fun A B f r => match r with Ok a => f a | Raise e => Raise e end.

(** What lies at a path: a readable text file, or something that exists
    ([os.path.exists] is true) and raises when read: a file without read
    permission, a directory, bytes that do not decode.  [Broken pre e]
    raises [e] after the lines of [pre] have been delivered, which only a
    line-by-line reader ([for line in f]) observes. *)
Inductive node : Type :=
| Text (content : string)
| Broken (pre : string) (err : string).

Record FS : Type := mkFS {
  fs_node : string -> option node;                  (* None: no such path *)
  fs_walk : string -> list (string * list string);  (* os.walk: (root, files) in its order *)
  fs_isdir : string -> bool                         (* os.path.isdir *)
}.

Section FileSystem.
Variable fs : FS.

(** [os.path.exists(p)] *)
Definition path_exists (p : string) : bool :=
  match fs_node fs p with Some _ => true | None => false end.

(** [open(p).read()] *)
Definition read (p : string) : result string :=
  match fs_node fs p with
  | Some (Text c) => Ok c
  | Some (Broken _ e) => Raise e
  | None => Raise "No such file or directory"
  end.

(** [open(p).readlines()] *)
Definition readlines (p : string) : result (list string) :=
  c ← read p; mret (Py.splitlines_keepends c).

(** [for line in open(p)]: the lines delivered, and the exception that
    ends the iteration if there is one. *)
Definition iter_lines (p : string) : list string * option string :=
  match fs_node fs p with
  | Some (Text c) => (Py.splitlines_keepends c, None)
  | Some (Broken pre e) => (Py.splitlines_keepends pre, Some e)
  | None => ([], Some "No such file or directory"%string)
  end.
End FileSystem.

(** ** The patterns of the module *)

Module Pat.
Import Re.

(** [r"//\s+SET\s+(\w+)=(.+)"], IGNORECASE *)
Definition set_stmt : regex :=
  cat [liti "//"; plus sp; liti "SET"; plus sp; Grp 1 (plus wd); liti "="; Grp 2 (plus dot)].

(** [r"//\S+\s+EXEC\s+(\w+)"], IGNORECASE *)
Definition exec_proc : regex :=
  cat [liti "//"; plus nsp; plus sp; liti "EXEC"; plus sp; Grp 1 (plus wd)].

(** A name made of word characters only (letters, digits, underscore).
    The two patterns below are built by splicing the parameter name into
    the pattern text.  For a plain name the spliced text stands for
    itself, and the definitions are the patterns the source builds; the
    step extractor passes only such names (what [&\w+] matched, less the
    ampersand).  A name with other characters would be read by [re] as
    pattern syntax: that reading is not modelled, and what is stated
    about the two patterns is stated for plain names. *)
Definition plain_name (param_name : string) : bool := all_chars Py.is_word param_name.

(** [rf"\b{param_name}\s*=\s*([^,\s]+)"], IGNORECASE, for a plain name *)
Definition param_eq (param_name : string) : regex :=
  cat [Bnd; liti param_name; Star sp; liti "="; Star sp; Grp 1 (plus not_comma_sp)].

(** [rf"//\S+\s+PROC\b.*\b{param_name}\s*=\s*([^,\s]+)"], IGNORECASE, for
    a plain name *)
Definition proc_def (param_name : string) : regex :=
  cat [liti "//"; plus nsp; plus sp; liti "PROC"; Bnd; Star dot; Bnd;
       liti param_name; Star sp; liti "="; Star sp; Grp 1 (plus not_comma_sp)].

(** [r"//\s*INCLUDE\s+MEMBER\s*=\s*(\w+)"], IGNORECASE *)
Definition include_member : regex :=
  cat [liti "//"; Star sp; liti "INCLUDE"; plus sp; liti "MEMBER"; Star sp;
       liti "="; Star sp; Grp 1 (plus wd)].

(** [r"//\*\s*EXEC"], IGNORECASE *)
Definition comment_exec : regex :=
  cat [liti "//"; liti "*"; Star sp; liti "EXEC"].

(** [//(\S+)\s+EXEC\s+] then the optional [(?:PGM\s*=\s* )?] then
    [(\b\w+\b|&\w+)], IGNORECASE (the pattern has no blank; one is written
    here before the closing parenthesis of the optional part) *)
Definition exec_step : regex :=
  cat [liti "//"; Grp 1 (plus nsp); plus sp; liti "EXEC"; plus sp;
       Opt (cat [liti "PGM"; Star sp; liti "="; Star sp]);
       Grp 2 (Alt (cat [Bnd; plus wd; Bnd]) (cat [liti "&"; plus wd]))].

(** [r"//\S+\s+EXEC\s+PGM="], IGNORECASE *)
Definition exec_pgm : regex :=
  cat [liti "//"; plus nsp; plus sp; liti "EXEC"; plus sp; liti "PGM="].

(** [r"//\s*SYSIN\s+DD\s+\*"] *)
Definition sysin_inline : regex :=
  cat [lit "//"; Star sp; lit "SYSIN"; plus sp; lit "DD"; plus sp; lit "*"].

(** [r"//\s*SYSIN\s+DD\s+DSN="] *)
Definition sysin_dsn : regex :=
  cat [lit "//"; Star sp; lit "SYSIN"; plus sp; lit "DD"; plus sp; lit "DSN="].

(** [r"DSN=[^,]+\(([^)]+)\)"] *)
Definition dsn_member : regex :=
  cat [lit "DSN="; plus not_comma; lit "("; Grp 1 (plus not_rparen); lit ")"].

End Pat.

Definition matches (r : Re.regex) (s : string) : bool :=
  match Re.re_match r s with Some _ => true | None => false end.

Definition found (r : Re.regex) (s : string) : bool :=
  match Re.re_search r s with Some _ => true | None => false end.

(** ** The symbolic parameter resolver *)

Section Resolver.
Variable fs : FS.

(** The first loop of [resolve_symbolic_parameter]: SET statements. *)
Fixpoint set_lookup (param_name : string) (jcl_content : list string) : option string :=
  match jcl_content with
  | [] => None
  | line :: rest =>
      match Re.re_match Pat.set_stmt line with
      | Some c =>
          if Py.str_eqb (Py.upper (Re.group 1 c)) (Py.upper param_name)
          then Some (Py.strip (Re.group 2 c))
          else set_lookup param_name rest
      | None => set_lookup param_name rest
      end
  end.

Fixpoint find_proc_content (proc_name : string) (proc_libraries : list string)
    : result (option (list string)) :=
  match proc_libraries with
  | [] => Ok None
  | proc_lib :: rest =>
      let proc_path := Py.path_join proc_lib (proc_name +:+ ".proc") in
      if path_exists fs proc_path
      then ls ← readlines fs proc_path; mret (Some ls)
      else find_proc_content proc_name rest
  end.

(** The first line of a text on which [re.search(pattern, line)] succeeds,
    as its group 1. *)
Fixpoint first_group1 (r : Re.regex) (ls : list string) : option string :=
  match ls with
  | [] => None
  | l :: rest =>
      match Re.re_search r l with
      | Some c => Some (Re.group 1 c)
      | None => first_group1 r rest
      end
  end.

(** The second loop: EXEC statements, each with its override and then the
    default of the PROC it names. *)
Fixpoint exec_lookup (param_name : string) (proc_libraries : list string)
    (jcl_content : list string) : result (option string) :=
  match jcl_content with
  | [] => Ok None
  | line :: rest =>
      match Re.re_match Pat.exec_proc line with
      | Some c =>
          let proc_name := Re.group 1 c in
          match Re.re_search (Pat.param_eq param_name) line with
          | Some c' => Ok (Some (Re.group 1 c'))
          | None =>
              proc_content ← find_proc_content proc_name proc_libraries;
              match proc_content with
              | Some ls =>
                  match first_group1 (Pat.proc_def param_name) ls with
                  | Some v => Ok (Some v)
                  | None => exec_lookup param_name proc_libraries rest
                  end
              | None => exec_lookup param_name proc_libraries rest
              end
          end
      | None => exec_lookup param_name proc_libraries rest
      end
  end.

(** The third loop: INCLUDE statements. *)
Fixpoint include_lookup (param_name cntllib_path : string)
    (jcl_content : list string) : result (option string) :=
  match jcl_content with
  | [] => Ok None
  | line :: rest =>
      match Re.re_search Pat.include_member line with
      | Some c =>
          let member_name := Re.group 1 c in
          if negb (Py.is_empty cntllib_path) then
            let member_path := Py.path_join cntllib_path (member_name +:+ ".incl") in
            if path_exists fs member_path then
              member_content ← readlines fs member_path;
              match first_group1 (Pat.param_eq param_name) member_content with
              | Some v => Ok (Some v)
              | None => include_lookup param_name cntllib_path rest
              end
            else include_lookup param_name cntllib_path rest
          else include_lookup param_name cntllib_path rest
      | None => include_lookup param_name cntllib_path rest
      end
  end.

(** The search of every [.incl] file under CNTLLIB; only here is a read
    wrapped in [try ... except Exception: continue]. *)
Fixpoint walk_files (param_name root : string) (files : list string) : option string :=
  match files with
  | [] => None
  | file :: rest =>
      if Py.endswith ".incl" file then
        match first_group1 (Pat.param_eq param_name)
                (iter_lines fs (Py.path_join root file)).1 with
        | Some v => Some v
        | None => walk_files param_name root rest
        end
      else walk_files param_name root rest
  end.

Fixpoint walk_lookup (param_name : string) (w : list (string * list string))
    : option string :=
  match w with
  | [] => None
  | (root, files) :: rest =>
      match walk_files param_name root files with
      | Some v => Some v
      | None => walk_lookup param_name rest
      end
  end.

Definition cntllib_lookup (param_name cntllib_path : string) : result (option string) :=
  if negb (Py.is_empty cntllib_path) then
    let member_path := Py.path_join cntllib_path (param_name +:+ ".incl") in
    if path_exists fs member_path then
      c ← read fs member_path; mret (Some (Py.strip c))
    else Ok (walk_lookup param_name (fs_walk fs cntllib_path))
  else Ok None.

Definition resolve_symbolic_parameter (param_name : string)
    (jcl_content proc_libraries : list string) (cntllib_path : string)
    : result (option string) :=
  match set_lookup param_name jcl_content with
  | Some v => Ok (Some v)
  | None =>
      r ← exec_lookup param_name proc_libraries jcl_content;
      match r with
      | Some v => Ok (Some v)
      | None =>
          r' ← include_lookup param_name cntllib_path jcl_content;
          match r' with
          | Some v => Ok (Some v)
          | None => cntllib_lookup param_name cntllib_path
          end
      end
  end.
End Resolver.

(** ** The step extractor *)

(** The tuple appended to [extracted_data], field by field. *)
Record ExtractedStep : Type := mkStep {
  file_name : string;
  file_type : string;
  step_name : string;
  step_block_text : string;
  program_name : string;
  sysin_type : string;
  sysin_statement : string;
  control_card_member : string;
  control_card_content : string;
  comments_text : string
}.

(** The tuple put on [file_queue]. *)
Record ScanTask : Type := mkTask {
  file_path : string;
  utilities : gset string;
  task_file_type : string;
  cntllib_path : string;
  proc_libraries : list string
}.

(** Ghost data, not in the source: for an emitted step, the indices of the
    lines its scans captured.  [w_exec] is the index of the EXEC line,
    [w_from] the value of [last_step_end] when the step was met,
    [w_comments] the lines put in [comment_block], [w_block] the lines the
    forward scan put in [step_block] after the EXEC line, and [w_end] the
    index at which the forward scan stopped (the new [last_step_end]). *)
Record window : Type := mkWindow {
  w_exec : nat;
  w_from : nat;
  w_comments : list nat;
  w_block : list nat;
  w_end : nat
}.

(** The state the workers act on: the shared list, the messages given to
    [log_error], and the ghost list of windows (one per appended tuple). *)
Record state : Type := mkState {
  extracted_data : list ExtractedStep;
  log : list string;
  windows : list window
}.

Definition empty_state : state := mkState [] [] [].

(** Computations that change the state and may raise; a raise keeps the
    state reached so far. *)
Definition M (A : Type) : Type := state -> result A * state.

Definition retM {A} (a : A) : M A := fun st => (Ok a, st).

Definition bindM {A B} (m : M A) (f : A -> M B) : M B :=
  fun st =>
    match m st with
    | (Ok a, st') => f a st'
    | (Raise e, st') => (Raise e, st')
    end.

Definition liftM {A} (r : result A) : M A := fun st => (r, st).

Notation "'let*' x ':=' e 'in' k" := (bindM e (fun x => k))
  (at level 10, x name, e at level 100, k at level 200).

(** [log_error(message)]: the message is recorded; the call never raises
    (the source swallows every failure to write the log file). *)
Definition log_error (message : string) : M unit :=
  fun st => (Ok tt, mkState (extracted_data st) (log st ++ [message]) (windows st)).

(** [with lock: extracted_data.append(...)] *)
Definition append_step (r : ExtractedStep) (w : window) : M unit :=
  fun st => (Ok tt, mkState (extracted_data st ++ [r]) (log st) (windows st ++ [w])).

(** [lines[j]] *)
Definition line_at (lines : list string) (j : nat) : string := nth j lines EmptyString.

Definition blank (l : string) : bool := Py.is_empty (Py.strip l).

Section Extractor.
Variable fs : FS.

Definition no_cntllib_msg : string := "[No CNTLLIB path or member specified]".
Definition not_found_msg (member : string) : string :=
  "[Control card '" +:+ member +:+ "' not found in CNTLLIB]".
Definition empty_card_msg : string := "[Control card file exists but is empty]".
Definition read_error_msg (e : string) : string :=
  "[Error reading control card: " +:+ e +:+ "]".

Definition extract_control_card (cntllib member : string) : M string :=
  if Py.is_empty cntllib || Py.is_empty member then retM no_cntllib_msg
  else
    let path := Py.path_join cntllib (member +:+ ".incl") in
    if negb (path_exists fs path) then retM (not_found_msg member)
    else
      match read fs path with
      | Ok content =>
          retM (if negb (Py.is_empty (Py.strip content)) then content else empty_card_msg)
      | Raise e =>
          let* _ := log_error ("Error reading control card " +:+ member +:+ ": " +:+ e) in
          retM (read_error_msg e)
      end.

(** The backward scan [j = i - 1; while j >= last_step_end: ...; j -= 1],
    by recursion on the number [n] of indices left, [j] being
    [last_step_end + n - 1]; it returns the indices put in [comment_block],
    in increasing order as [insert(0, ...)] leaves them. *)
Fixpoint backward (lines : list string) (last_step_end n : nat) (acc : list nat)
    : list nat :=
  match n with
  | 0 => acc
  | S n' =>
      let j := last_step_end + n' in
      if blank (line_at lines j) || matches Pat.exec_pgm (line_at lines j) then acc
      else backward lines last_step_end n'
             (if Py.startswith "//*" (line_at lines j) then j :: acc else acc)
  end.

(** The forward scan [j = i + 1; while j < len(lines) and not EXEC PGM=],
    on the lines from index [j] on; it returns the indices appended to
    [step_block] and the final value of [j]. *)
Fixpoint forward (rest : list string) (j : nat) : list nat * nat :=
  match rest with
  | [] => ([], j)
  | l :: rest' =>
      if matches Pat.exec_pgm l then ([], j)
      else if blank l then ([], j)
      else
        let '(b, e) := forward rest' (S j) in
        (if Py.startswith "//" l then j :: b else b, e)
  end.

(** The SYSIN detection over [step_block]: type, statement, member, content. *)
Fixpoint detect_sysin (cntllib : string) (step_block : list string)
    : M (string * string * string * string) :=
  match step_block with
  | [] => retM ("None", EmptyString, EmptyString, EmptyString)
  | step_line :: rest =>
      if found Pat.sysin_inline step_line then
        retM ("Inline SYSIN", Py.strip step_line, EmptyString, EmptyString)
      else if found Pat.sysin_dsn step_line then
        match Re.re_search Pat.dsn_member step_line with
        | Some c =>
            let* content := extract_control_card cntllib (Re.group 1 c) in
            retM ("Control Card", Py.strip step_line, Re.group 1 c, content)
        | None => retM ("Control Card", Py.strip step_line, EmptyString, EmptyString)
        end
      else detect_sysin cntllib rest
  end.

(** The lines a window stands for, stripped as the source strips them. *)
Definition block_lines (lines : list string) (line : string) (idx : list nat) : list string :=
  Py.strip line :: map (fun j => Py.strip (line_at lines j)) idx.

Definition comment_lines (lines : list string) (idx : list nat) : list string :=
  map (fun j => Py.strip (line_at lines j)) idx.

(** The body of [if program_name in utilities:]; it returns the new
    [last_step_end]. *)
Definition capture (task : ScanTask) (lines : list string) (i : nat) (line : string)
    (last_step_end : nat) (step program : string) : M nat :=
  let comment_idx := backward lines last_step_end (i - last_step_end) [] in
  let '(block_idx, j) := forward (drop (S i) lines) (S i) in
  let step_block := block_lines lines line block_idx in
  let* sysin := detect_sysin (cntllib_path task) step_block in
  let '(sysin_ty, sysin_stmt, member, content) := sysin in
  let* _ :=
    append_step
      (mkStep (Py.basename (file_path task)) (task_file_type task) step
              (Py.join Py.nl step_block) program sysin_ty sysin_stmt member content
              (Py.join Py.nl (comment_lines lines comment_idx)))
      (mkWindow i last_step_end comment_idx block_idx j) in
  retM j.

Definition member_check (task : ScanTask) (lines : list string) (i : nat) (line : string)
    (last_step_end : nat) (step program : string) : M nat :=
  if bool_decide (program ∈ utilities task)
  then capture task lines i line last_step_end step program
  else retM last_step_end.

(** One iteration of [for i, line in enumerate(lines)]; it returns the
    value of [last_step_end] after the iteration. *)
Definition scan_line (task : ScanTask) (lines : list string) (i : nat) (line : string)
    (last_step_end : nat) : M nat :=
  if matches Pat.comment_exec line then retM last_step_end
  else
    match Re.re_match Pat.exec_step line with
    | None => retM last_step_end
    | Some c =>
        let step := Re.group 1 c in
        let program := Py.upper (Re.group 2 c) in
        if Py.startswith "&" program then
          let param_name := Py.tail program in
          let* resolved :=
            liftM (resolve_symbolic_parameter fs param_name lines
                     (proc_libraries task) (cntllib_path task)) in
          match resolved with
          | Some v =>
              if negb (Py.is_empty v)
              then member_check task lines i line last_step_end step (Py.upper v)
              else
                let* _ := log_error ("Unresolved symbolic parameter " +:+ program +:+ " in "
                                     +:+ Py.basename (file_path task)) in
                retM last_step_end
          | None =>
              let* _ := log_error ("Unresolved symbolic parameter " +:+ program +:+ " in "
                                   +:+ Py.basename (file_path task)) in
              retM last_step_end
          end
        else member_check task lines i line last_step_end step program
    end.

Fixpoint scan_lines (task : ScanTask) (lines : list string) (i : nat)
    (rest : list string) (last_step_end : nat) : M unit :=
  match rest with
  | [] => retM tt
  | line :: rest' =>
      let* e := scan_line task lines i line last_step_end in
      scan_lines task lines (S i) rest' e
  end.

(** The body of the [try] in the worker loop. *)
Definition process_file (task : ScanTask) : M unit :=
  let* lines := liftM (readlines fs (file_path task)) in
  match lines with
  | [] => log_error ("Empty file: " +:+ file_path task)
  | _ => scan_lines task lines 0 lines 0
  end.

(** One iteration of the worker loop: the [try] and its
    [except Exception as e: log_error(...)]. *)
Definition run_task (task : ScanTask) (st : state) : state :=
  match process_file task st with
  | (Ok _, st') => st'
  | (Raise e, st') =>
      (log_error ("Error reading " +:+ file_path task +:+ ": " +:+ e) st').2
  end.

(** [extract_steps_from_file] run by one thread on a queue:
    [while not file_queue.empty(): ... file_queue.get() ...]. *)
Fixpoint extract_steps_from_file (queue : list ScanTask) (st : state) : state :=
  match queue with
  | [] => st
  | task :: queue' => extract_steps_from_file queue' (run_task task st)
  end.
End Extractor.

(** ** The coordinator *)

(** The part of the configuration dictionary that the scan reads. *)
Record Config : Type := mkConfig {
  directories : gmap string string;          (* config['directories'] *)
  proc_libraries_entry : option (list string);  (* config['proc_libraries'], when present *)
  default_utilities : list string;           (* config.get('default_utilities', []) *)
  custom_utilities : list string;            (* config.get('custom_utilities', []) *)
  performance : option (gmap string Z)       (* config['performance'], when present *)
}.

(** [config.get('performance', {}).get('threads', 4)] *)
Definition num_threads (config : Config) : Z :=
  default 4%Z (default ∅ (performance config) !! "threads").

(** [range(n)] for a Python integer [n]: empty when [n] is not positive. *)
Definition py_range (n : Z) : list nat := seq 0 (Z.to_nat n).

(** The threads started by
    [for _ in range(min(num_threads, file_queue.qsize()))]. *)
Definition started_threads (config : Config) (queue : list ScanTask) : list nat :=
  py_range (Z.min (num_threads config) (Z.of_nat (length queue))).

Section Coordinator.
Variable fs : FS.

(** The tasks put on the queue by the walk of the JCL directory. *)
Fixpoint enqueue_files (root : string) (files : list string) (utils : gset string)
    (cntllib : string) (procs : list string) : list ScanTask :=
  match files with
  | [] => []
  | file :: rest =>
      if Py.endswith ".jcl" file
      then mkTask (Py.path_join root file) utils "JCL" cntllib procs
             :: enqueue_files root rest utils cntllib procs
      else enqueue_files root rest utils cntllib procs
  end.

Fixpoint enqueue_walk (w : list (string * list string)) (utils : gset string)
    (cntllib : string) (procs : list string) : list ScanTask :=
  match w with
  | [] => []
  | (root, files) :: rest =>
      enqueue_files root files utils cntllib procs ++ enqueue_walk rest utils cntllib procs
  end.

(** [process_files] up to the filling of the queue: [None] when a
    directory check makes it return early.  (The entries [directories] and
    [output] of the configuration are taken to be present, and the output
    directory creatable.) *)
Definition fill_queue (config : Config) : option (list ScanTask) :=
  let jcl_dir := default EmptyString (directories config !! "JCL") in
  if negb (fs_isdir fs jcl_dir) then None else
  let cntllib := default EmptyString (directories config !! "CNTLLIB") in
  if negb (fs_isdir fs cntllib) then None else
  let proc_dir := default EmptyString (directories config !! "PROC") in
  if negb (Py.is_empty proc_dir) && negb (fs_isdir fs proc_dir) then None else
  let procs :=
    match proc_libraries_entry config with
    | Some l => l
    | None => match directories config !! "PROC" with Some d => [d] | None => [] end
    end in
  let default_utils : gset string := list_to_set (Py.upper <$> default_utilities config) in
  let custom_utils : gset string := list_to_set (Py.upper <$> custom_utilities config) in
  Some (enqueue_walk (fs_walk fs jcl_dir) (default_utils ∪ custom_utils) cntllib procs).

(** What one file adds to [extracted_data]. *)
Definition task_records (task : ScanTask) : list ExtractedStep :=
  extracted_data (run_task fs task empty_state).

(** *** The worker pool

    Each started thread runs the worker loop.  The steps of a thread that
    touch shared state are: the test [file_queue.empty()], the call
    [file_queue.get()] (which blocks on an empty queue, and nothing is put
    on the queue once the threads run), and each
    [extracted_data.append] under the lock.  Between them the thread
    works on data of its own and on the file system, which the scan does
    not write. *)
Inductive wstate : Type :=
| AtTest                                  (* about to evaluate file_queue.empty() *)
| AtGet                                   (* found the queue non-empty, about to call get() *)
| Working (pending : list ExtractedStep)  (* in a file; the appends still to come *)
| Finished.                               (* left the loop *)

Record pool : Type := mkPool {
  p_queue : list ScanTask;
  p_workers : list wstate;
  p_data : list ExtractedStep
}.

Definition set_worker (i : nat) (w : wstate) (p : pool) : pool :=
  mkPool (p_queue p) (<[i := w]> (p_workers p)) (p_data p).

(** One step of thread [i]; a thread that cannot move (finished, or
    blocked in [get()]) leaves the pool as it is. *)
Definition pool_step (p : pool) (i : nat) : pool :=
  match p_workers p !! i with
  | Some AtTest =>
      match p_queue p with
      | [] => set_worker i Finished p
      | _ :: _ => set_worker i AtGet p
      end
  | Some AtGet =>
      match p_queue p with
      | [] => p
      | task :: queue' =>
          mkPool queue' (<[i := Working (task_records task)]> (p_workers p)) (p_data p)
      end
  | Some (Working []) => set_worker i AtTest p
  | Some (Working (r :: rest)) =>
      mkPool (p_queue p) (<[i := Working rest]> (p_workers p)) (p_data p ++ [r])
  | Some Finished => p
  | None => p
  end.

(** A schedule names the thread that moves at each step. *)
Definition pool_run (schedule : list nat) (p : pool) : pool :=
  foldl pool_step p schedule.

Definition is_finished (w : wstate) : bool :=
  match w with Finished => true | _ => false end.

(** [thread.join()] returns for every thread. *)
Definition joined (p : pool) : bool := forallb is_finished (p_workers p).

Definition pool_start (n : nat) (queue : list ScanTask) : pool :=
  mkPool queue (replicate n AtTest) [].

(** [process_files] up to the joins, under a schedule: the pool when the
    schedule has been run, or [None] when the directory checks fail.  The
    tables of the report, built afterwards from [extracted_data], are
    defined further on. *)
Definition process_files (config : Config) (schedule : list nat) : option pool :=
  match fill_queue config with
  | None => None
  | Some queue =>
      Some (pool_run schedule (pool_start (length (started_threads config queue)) queue))
  end.
End Coordinator.

(** ** What a scan adds to the state *)

(** [extend st d]: the state [st] with the appends of [d] made after it. *)
Definition extend (st d : state) : state :=
  mkState (extracted_data st ++ extracted_data d) (log st ++ log d)
          (windows st ++ windows d).

(** [effect m r d]: from any state, [m] ends with [r] and has made exactly
    the appends [d]; it reads nothing of the state. *)
Definition effect {A} (m : M A) (r : result A) (d : state) : Prop :=
  forall st, m st = (r, extend st d).

(** The tuple and the window that [capture] builds for the EXEC line [i]. *)
Definition emitted (lines : list string) (i : nat) (line : string) (last_step_end : nat)
    (task : ScanTask) (rec : ExtractedStep) (w : window) : Prop :=
  file_name rec = Py.basename (file_path task)
  /\ step_block_text rec = Py.join Py.nl (block_lines lines line (w_block w))
  /\ comments_text rec = Py.join Py.nl (comment_lines lines (w_comments w))
  /\ w_exec w = i
  /\ w_from w = last_step_end
  /\ w_comments w = backward lines last_step_end (i - last_step_end) []
  /\ forward (drop (S i) lines) (S i) = (w_block w, w_end w).

(** The three ways an iteration of the line loop ends: nothing appended
    (possibly a message logged), an exception with nothing appended, or one
    tuple appended and [last_step_end] moved to the end of its window. *)
Inductive line_outcome (task : ScanTask) (lines : list string) (i : nat) (line : string)
    (last_step_end : nat) : result nat -> state -> Prop :=
| lo_skip logs :
    line_outcome task lines i line last_step_end (Ok last_step_end) (mkState [] logs [])
| lo_raise e :
    line_outcome task lines i line last_step_end (Raise e) empty_state
| lo_emit rec w logs :
    matches Pat.exec_step line = true ->
    program_name rec ∈ utilities task ->
    emitted lines i line last_step_end task rec w ->
    line_outcome task lines i line last_step_end (Ok (w_end w)) (mkState [rec] logs [w]).

Inductive scan_outcome (task : ScanTask) (lines : list string)
    : nat -> list string -> nat -> result unit -> state -> Prop :=
| so_done i last_step_end :
    scan_outcome task lines i [] last_step_end (Ok tt) empty_state
| so_raise i line rest last_step_end e d :
    line_outcome task lines i line last_step_end (Raise e) d ->
    scan_outcome task lines i (line :: rest) last_step_end (Raise e) d
| so_next i line rest last_step_end e d r d' :
    line_outcome task lines i line last_step_end (Ok e) d ->
    scan_outcome task lines (S i) rest e r d' ->
    scan_outcome task lines i (line :: rest) last_step_end r (extend d d').

(** A line as [readlines] gives it: no line end but, possibly, at its end. *)
Fixpoint line_shaped (l : string) : bool :=
  match l with
  | EmptyString => true
  | String c t =>
      match t with
      | EmptyString => true
      | String _ _ => negb (Py.ascii_eqb c Py.newline) && line_shaped t
      end
  end.

(** A window keeps to its range: comments between the boundary it started
    from and the EXEC line, block lines between the EXEC line and its end. *)
Definition window_ok (w : window) : Prop :=
  (forall j, j ∈ w_comments w -> w_from w <= j /\ j < w_exec w)
  /\ (forall j, j ∈ w_block w -> w_exec w < j /\ j < w_end w)
  /\ w_exec w < w_end w.

(** The windows of one file, in the order of emission: each starts from
    the boundary the one before it left. *)
Fixpoint chain (last_step_end : nat) (ws : list window) : Prop :=
  match ws with
  | [] => True
  | w :: ws' => w_from w = last_step_end /\ window_ok w /\ chain (w_end w) ws'
  end.

(** The line indices a window captured. *)
Definition captured (w : window) : list nat :=
  w_comments w ++ w_exec w :: w_block w.

(** What holds of every tuple a task appends. *)
Definition step_ok (task : ScanTask) (rec : ExtractedStep) : Prop :=
  program_name rec ∈ utilities task
  /\ file_name rec = Py.basename (file_path task)
  /\ exists line rest,
       matches Pat.exec_step line = true
       /\ step_block_text rec = Py.join Py.nl (Py.strip line :: rest)
       /\ Forall (fun l => Py.startswith "//" l = true) (Py.strip line :: rest)
       /\ Forall (fun l => Py.has_newline l = false) (Py.strip line :: rest).

(** How the processing of one file ends: the file cannot be read, it is
    empty, or its lines are scanned. *)
Inductive file_outcome (fs : FS) (task : ScanTask) : result unit -> state -> Prop :=
| fo_unreadable e :
    readlines fs (file_path task) = Raise e ->
    file_outcome fs task (Raise e) empty_state
| fo_empty :
    readlines fs (file_path task) = Ok [] ->
    file_outcome fs task (Ok tt) (mkState [] ["Empty file: " +:+ file_path task] [])
| fo_scanned lines r d :
    readlines fs (file_path task) = Ok lines ->
    lines <> [] ->
    scan_outcome task lines 0 lines 0 r d ->
    file_outcome fs task r d.

(** The message the worker logs when a file's processing raises. *)
Definition error_reading (task : ScanTask) (e : string) : string :=
  "Error reading " +:+ file_path task +:+ ": " +:+ e.

(** What [run_task] adds to the state, given how the file's processing ended. *)
Definition task_delta (task : ScanTask) (r : result unit) (d : state) : state :=
  match r with
  | Ok _ => d
  | Raise e => extend d (mkState [] [error_reading task e] [])
  end.

(** ** The pool of workers *)

(** The appends a thread still has to make for the file it is in. *)
Definition pending (w : wstate) : list ExtractedStep :=
  match w with Working l => l | _ => [] end.

(** Everything that is, or is still to be, in [extracted_data]: the list
    itself, the appends threads have pending, and the yield of the files
    still queued. *)
Definition pool_all (fs : FS) (p : pool) : list ExtractedStep :=
  p_data p ++ concat (pending <$> p_workers p) ++ concat (task_records fs <$> p_queue p).

(** The same configuration with another thread count. *)
Definition set_threads (n : Z) (config : Config) : Config :=
  mkConfig (directories config) (proc_libraries_entry config)
           (default_utilities config) (custom_utilities config)
           (Some (<["threads" := n]> (default ∅ (performance config)))).

(** The number of steps a thread takes for one file: the test, the get,
    one step per append, and the return to the head of the loop. *)
Definition turns (fs : FS) (task : ScanTask) : nat := 3 + length (task_records fs task).

(** The schedule in which thread 0 empties the queue before any other
    thread moves, and then every thread makes its last test. *)
Definition one_by_one (fs : FS) (n : nat) (queue : list ScanTask) : list nat :=
  replicate (sum_list (turns fs <$> queue)) 0 ++ seq 0 n.

(** A thread leaves the loop only on an empty queue, and the queue does
    not grow: once a thread has finished the queue is empty. *)
Definition drained (p : pool) : Prop := Finished ∈ p_workers p -> p_queue p = [].

(** ** The EXEC loop of the resolver *)

(** A line the EXEC loop passes over: it is not an EXEC statement that
    names a procedure; or it is one, carries no override for the
    parameter, and the procedure is found in no library or its text has no
    PROC statement with a default for the parameter. *)
Definition passed_over (fs : FS) (param_name : string) (proc_libraries : list string)
    (line : string) : Prop :=
  Re.re_match Pat.exec_proc line = None
  \/ exists c,
       Re.re_match Pat.exec_proc line = Some c
       /\ Re.re_search (Pat.param_eq param_name) line = None
       /\ (find_proc_content fs (Re.group 1 c) proc_libraries = Ok None
           \/ exists proc_content,
                find_proc_content fs (Re.group 1 c) proc_libraries = Ok (Some proc_content)
                /\ first_group1 (Pat.proc_def param_name) proc_content = None).

(** ** Control cards in the tuples *)

(** The control card fields of a tuple: no member and no content; or the
    member of a control-card SYSIN and, as content, what
    [extract_control_card] returns for it, from whatever state. *)
Definition card_reported (fs : FS) (cntllib : string) (rec : ExtractedStep) : Prop :=
  (control_card_member rec = EmptyString /\ control_card_content rec = EmptyString)
  \/ (control_card_member rec <> EmptyString
      /\ sysin_type rec = "Control Card"
      /\ forall st,
           (extract_control_card fs cntllib (control_card_member rec) st).1
           = Ok (control_card_content rec)).

(** ** The step block of a window *)

(** A line at which the forward scan stops. *)
Definition stops_scan (l : string) : bool := matches Pat.exec_pgm l || blank l.

(** The forward scan of a window, read on the lines of the file: it runs
    from the line after the EXEC line to [w_end], which is the end of the
    file or the first line that stops the scan; of the lines it runs over,
    it captures those that start with two slashes, in their order, and no
    other. *)
Definition forward_scanned (lines : list string) (w : window) : Prop :=
  w_exec w < w_end w <= length lines
  /\ (forall j, w_exec w < j < w_end w -> stops_scan (line_at lines j) = false)
  /\ (w_end w = length lines \/ stops_scan (line_at lines (w_end w)) = true)
  /\ w_block w
     = List.filter (fun j => Py.startswith "//" (line_at lines j))
                   (seq (S (w_exec w)) (w_end w - S (w_exec w))).

(** The tuple [rec] and the window [w] were made for an EXEC line of
    [lines]. *)
Definition emitted_at (task : ScanTask) (lines : list string)
    (rec : ExtractedStep) (w : window) : Prop :=
  exists line last_step_end,
    lines !! w_exec w = Some line
    /\ matches Pat.exec_step line = true
    /\ emitted lines (w_exec w) line last_step_end task rec w.


(** ** What a pattern can match

    A declarative reading of the patterns, which the matcher respects:
    [matched r pre e] says that [r] can match the text [pre], binding the
    groups [e] (most recent first).  The context condition of [\b] is left
    out, so the relation is an upper bound of what the matcher accepts. *)

Inductive matched : Re.regex -> string -> Re.caps -> Prop :=
| m_eps : matched Re.Eps EmptyString []
| m_cls p a : p a = true -> matched (Re.Cls p) (String a EmptyString) []
| m_seq r1 r2 p1 p2 e1 e2 :
    matched r1 p1 e1 -> matched r2 p2 e2 -> matched (Re.Seq r1 r2) (p1 +:+ p2) (e2 ++ e1)
| m_alt_l r1 r2 pre e : matched r1 pre e -> matched (Re.Alt r1 r2) pre e
| m_alt_r r1 r2 pre e : matched r2 pre e -> matched (Re.Alt r1 r2) pre e
| m_star p pre : all_chars p pre = true -> matched (Re.Star p) pre []
| m_opt_none r : matched (Re.Opt r) EmptyString []
| m_opt_some r pre e : matched r pre e -> matched (Re.Opt r) pre e
| m_bnd : matched Re.Bnd EmptyString []
| m_grp n r pre e : matched r pre e -> matched (Re.Grp n r) pre ((n, pre) :: e).

(** A pattern without capturing groups. *)
Fixpoint groupless (r : Re.regex) : bool :=
  match r with
  | Re.Grp _ _ => false
  | Re.Seq r1 r2 | Re.Alt r1 r2 => groupless r1 && groupless r2
  | Re.Opt r1 => groupless r1
  | _ => true
  end.

(** A value captured by [[^,\s]+]: not empty, no comma, no white space. *)
Definition token (v : string) : Prop :=
  v <> EmptyString /\ all_chars Re.not_comma_sp v = true.

(** A name captured by [\S+]: not empty, no white space. *)
Definition solid (v : string) : Prop :=
  v <> EmptyString /\ all_chars Re.nsp v = true.

(** ** More of what every appended tuple satisfies *)

(** The SYSIN fields agree with one another: no SYSIN and three empty
    fields; inline SYSIN with its statement and no control card; or a
    control-card SYSIN with its statement and a member and a content that
    are both empty or both not. *)
Definition sysin_fields_ok (ty stmt member content : string) : Prop :=
  (ty = "None" /\ stmt = EmptyString /\ member = EmptyString /\ content = EmptyString)
  \/ (ty = "Inline SYSIN" /\ Py.startswith "//" stmt = true
      /\ member = EmptyString /\ content = EmptyString)
  \/ (ty = "Control Card" /\ Py.startswith "//" stmt = true
      /\ ((member = EmptyString /\ content = EmptyString)
          \/ (member <> EmptyString /\ content <> EmptyString))).

Definition sysin_consistent (rec : ExtractedStep) : Prop :=
  sysin_fields_ok (sysin_type rec) (sysin_statement rec)
                  (control_card_member rec) (control_card_content rec).

(** The comment field is empty or made of comment lines. *)
Definition comments_ok (rec : ExtractedStep) : Prop :=
  comments_text rec = EmptyString
  \/ Forall (fun l => Py.startswith "//*" l = true) (Py.split_lines (comments_text rec)).

Definition step_facts (fs : FS) (task : ScanTask) (rec : ExtractedStep) : Prop :=
  file_type rec = task_file_type task
  /\ Py.upper (program_name rec) = program_name rec
  /\ solid (step_name rec)
  /\ sysin_consistent rec
  /\ comments_ok rec
  /\ card_reported fs (cntllib_path task) rec.

(** ** File names

    [os.path.splitext], the decimal writing of a number,
    [generate_versioned_filename] and [validate_directory]. *)

Module Os.

(** [s[n:]] *)
Fixpoint drop (n : nat) (s : string) : string :=
  match n, s with
  | S n', String _ s' => drop n' s'
  | _, _ => s
  end.

(** [s.rfind(c)], scanning from index [i] with [last] the last index seen
    so far (-1 when none) *)
Fixpoint rfind_from (c : ascii) (s : string) (i last : Z) : Z :=
  match s with
  | EmptyString => last
  | String a s' => rfind_from c s' (i + 1)%Z (if Py.ascii_eqb a c then i else last)
  end.

Definition rfind (c : ascii) (s : string) : Z := rfind_from c s 0%Z (-1)%Z.

(** The loop of [genericpath._splitext] that skips the leading dots of the
    file name: [seg] is the text between the last separator and the last
    dot, [(root, ext)] the split at the last dot. *)
Fixpoint skip_leading_dots (seg : string) (p root ext : string) : string * string :=
  match seg with
  | EmptyString => (p, EmptyString)
  | String a seg' =>
      if negb (Py.ascii_eqb a "."%char) then (root, ext)
      else skip_leading_dots seg' p root ext
  end.

(** [os.path.splitext(p)] on a POSIX system *)
Definition splitext (p : string) : string * string :=
  let sepIndex := rfind "/"%char p in
  let dotIndex := rfind "."%char p in
  if (sepIndex <? dotIndex)%Z then
    let filenameIndex := (sepIndex + 1)%Z in
    skip_leading_dots
      (Re.take (Z.to_nat (dotIndex - filenameIndex)) (drop (Z.to_nat filenameIndex) p))
      p (Re.take (Z.to_nat dotIndex) p) (drop (Z.to_nat dotIndex) p)
  else (p, EmptyString).

End Os.

(** [str(n)] for a natural number *)
Definition str_of_nat (n : nat) : string :=
  DecimalString.NilZero.string_of_uint (Nat.to_uint n).

(** The name tried for a version: [file_root], [_v], the version, [file_ext]. *)
Definition versioned_name (file_root file_ext : string) (version : nat) : string :=
  file_root +:+ "_v" +:+ str_of_nat version +:+ file_ext.

Section Versioning.
Variable fs : FS.

(** The loop [while os.path.exists(...): version += 1], for at most [fuel]
    tests; [None] when all of them found a file. *)
Fixpoint next_free_version (fuel : nat) (file_root file_ext : string) (version : nat)
    : option string :=
  match fuel with
  | 0 => None
  | S fuel' =>
      if path_exists fs (versioned_name file_root file_ext version)
      then next_free_version fuel' file_root file_ext (S version)
      else Some (versioned_name file_root file_ext version)
  end.

Definition generate_versioned_filename (fuel : nat) (base_filename : string)
    : option string :=
  if negb (path_exists fs base_filename) then Some base_filename
  else next_free_version fuel (Os.splitext base_filename).1 (Os.splitext base_filename).2 1.

(** The loop of [validate_directory] once the first path has failed:
    [answers] are the lines [input()] will return, and when they run out
    [input()] raises.  The result comes with the answers left unread. *)
Fixpoint validate_answers (answers : list string) : result string * list string :=
  match answers with
  | [] => (Raise "EOF when reading a line", [])
  | answer :: rest =>
      if fs_isdir fs (Py.strip answer) then (Ok (Py.strip answer), rest)
      else validate_answers rest
  end.

Definition validate_directory (path : string) (answers : list string)
    : result string * list string :=
  if fs_isdir fs path then (Ok path, answers) else validate_answers answers.
End Versioning.

(** ** The configuration dictionary

    For [add_output_dir_to_config] and the reading of the output section
    the configuration is a dictionary of sections, each a dictionary of
    scalar values. *)

Inductive cfg_value : Type :=
| VStr (s : string)
| VInt (z : Z)
| VBool (b : bool).

Definition add_output_dir_to_config (config : gmap string (gmap string cfg_value))
    (output_dir : string) : gmap string (gmap string cfg_value) :=
  let config1 :=
    match config !! "output" with
    | None => <["output" := ∅]> config
    | Some _ => config
    end in
  <["output" := <["directory" := VStr output_dir]> (default ∅ (config1 !! "output"))]> config1.

(** [config['output'].get(key, dflt)]; a missing section is a [KeyError]. *)
Definition output_get (config : gmap string (gmap string cfg_value))
    (key : string) (dflt : cfg_value) : result cfg_value :=
  match config !! "output" with
  | None => Raise "'output'"
  | Some section => Ok (default dflt (section !! key))
  end.

(** ** The report frames

    The data frames [process_files] builds from [extracted_data] for the
    default and the custom workbook; writing them with the spreadsheet
    library is outside the model. *)

Definition str_le (s t : string) : Prop := String.leb s t = true.

#[global] Instance str_le_dec : RelDecision str_le.
Proof. intros s t. unfold str_le. apply _. Defined.

(** [sorted(utils)] for a set of strings *)
Definition sorted_utils (utils : gset string) : list string :=
  merge_sort str_le (elements utils).

(** [r[4] == u] *)
Definition runs (u : string) (rec : ExtractedStep) : bool :=
  Py.str_eqb (program_name rec) u.

(** A row of a dashboard: the utility, Yes or No, the count. *)
Definition dashboard_row (data : list ExtractedStep) (u : string) : string * string * nat :=
  (u, if existsb (runs u) data then "Yes" else "No", length (List.filter (runs u) data)).

Definition dashboard (utils : gset string) (data : list ExtractedStep)
    : list (string * string * nat) :=
  dashboard_row data <$> sorted_utils utils.

(** A row of a utility sheet: File Name, File Type, Step Name, Comments,
    Step, SYSIN Type, SYSIN Statement, Control Card Member, Control Card
    Content. *)
Definition sheet_row (rec : ExtractedStep) : list string :=
  [file_name rec; file_type rec; step_name rec; comments_text rec; step_block_text rec;
   sysin_type rec; sysin_statement rec; control_card_member rec; control_card_content rec].

Definition sheet_rows (data : list ExtractedStep) (u : string) : list (list string) :=
  sheet_row <$> List.filter (runs u) data.

(** The utility sheets of a workbook, by sheet name. *)
Definition utility_sheets (utils : gset string) (data : list ExtractedStep)
    : list (string * list (list string)) :=
  (fun u => (u, sheet_rows data u)) <$> sorted_utils utils.

(** The utilities of the warning: [utils - found], sorted. *)
Definition missing_utilities (utils : gset string) (data : list ExtractedStep) : list string :=
  sorted_utils
    (utils ∖ list_to_set
       (program_name <$> List.filter (fun rec => bool_decide (program_name rec ∈ utils)) data)).

(** The width set for a column: the longest cell or the header, plus 2,
    and 50 at most. *)
Definition column_width (header : string) (cells : list string) : nat :=
  Nat.min (Nat.max (max_list (String.length <$> cells)) (String.length header) + 2) 50.

(** The height set for a row: 15 points for each line of its tallest cell. *)
Definition max_text_lines (cells : list string) : nat :=
  foldl (fun m text => Nat.max m (length (Py.split_lines text))) 1 cells.

Definition row_height (cells : list string) : nat :=
  Nat.max 15 (max_text_lines cells * 15).

(** ** Trimmed text *)

(** The last character of a text. *)
Fixpoint last_char (s : string) : option ascii :=
  match s with
  | EmptyString => None
  | String c t => match t with EmptyString => Some c | String _ _ => last_char t end
  end.

(** A text that neither begins nor ends with white space. *)
Definition trimmed (v : string) : Prop :=
  (forall c, Re.peek v = Some c -> Py.is_space c = false)
  /\ (forall c, last_char v = Some c -> Py.is_space c = false).

(** ** More sample inputs *)

Module MoreSamples.

(** The tuple of the step with inline SYSIN data. *)
Definition step_inline : ExtractedStep :=
  mkStep "c.jcl" "JCL" "STEP1"
    (Py.join Py.nl ["//STEP1 EXEC PGM=IDCAMS"; "//SYSIN DD *"; "//SYSPRINT DD SYSOUT=*"])
    "IDCAMS" "Inline SYSIN" "//SYSIN DD *" EmptyString EmptyString "//* Backup volume".

End MoreSamples.

(** A job whose SYSIN is the member MEMBER of a data set, with a CNTLLIB
    that does not hold the member; and the tuple of its step. *)
Module CardSamples.

Definition fs_card : FS :=
  mkFS (fun p => if Py.str_eqb p "/jcl/k.jcl"
                 then Some (Text ("//STEP1 EXEC PGM=IDCAMS" +:+ Py.nl
                                  +:+ "//SYSIN DD DSN=X.Y(MEMBER)" +:+ Py.nl))
                 else None)
       (fun _ => []) (fun _ => false).

Definition task_card : ScanTask :=
  mkTask "/jcl/k.jcl" {[ "IDCAMS" ]} "JCL" "/cntl" [].

Definition step_card : ExtractedStep :=
  mkStep "k.jcl" "JCL" "STEP1"
    (Py.join Py.nl ["//STEP1 EXEC PGM=IDCAMS"; "//SYSIN DD DSN=X.Y(MEMBER)"])
    "IDCAMS" "Control Card" "//SYSIN DD DSN=X.Y(MEMBER)" "MEMBER"
    "[Control card 'MEMBER' not found in CNTLLIB]" EmptyString.

End CardSamples.


(** ** Sample inputs *)

(** A file system from finite tables: the nodes by path, the enumeration
    [os.walk] gives for a root, and the directories. *)
Definition fs_of (nodes : gmap string node)
    (walks : gmap string (list (string * list string))) (dirs : gset string) : FS :=
  mkFS (fun p => nodes !! p) (fun p => default [] (walks !! p))
       (fun p => bool_decide (p ∈ dirs)).

Module Samples.

(** A line with its line end. *)
Definition L (s : string) : string := s +:+ Py.nl.

(** A PROC library whose member MYPROC gives UTIL a default. *)
Definition fs_proc : FS :=
  fs_of {[ "/proc/MYPROC.proc" := Text (L "//MYPROC PROC UTIL=IDCAMS") ]} ∅ ∅.

Definition jcl_set_and_proc : list string :=
  [L "// SET UTIL=IEBGENER"; L "//S1 EXEC MYPROC"].

Definition jcl_proc_then_override : list string :=
  [L "//S1 EXEC MYPROC"; L "//S2 EXEC OTHER,UTIL=IEBGENER"].

Definition jcl_override_only : list string :=
  [L "//S1 EXEC NOPROC"; L "//S2 EXEC OTHER,UTIL=IEBGENER"].

(** Members that exist and cannot be read. *)
Definition denied : node := Broken EmptyString "Permission denied".

Definition fs_proc_denied : FS := fs_of {[ "/proc/MYPROC.proc" := denied ]} ∅ ∅.
Definition fs_include_denied : FS := fs_of {[ "/cntl/MEM1.incl" := denied ]} ∅ ∅.
Definition fs_direct_denied : FS := fs_of {[ "/cntl/UTIL.incl" := denied ]} ∅ ∅.
Definition fs_walk_denied : FS :=
  fs_of {[ "/cntl/A.incl" := denied; "/cntl/B.incl" := Text (L "UTIL=IDCAMS") ]}
        {[ "/cntl" := [("/cntl", ["A.incl"; "B.incl"])] ]} ∅.

(** A job whose second step needs a CNTLLIB member that cannot be read. *)
Definition fs_partial : FS :=
  fs_of {[ "/jcl/a.jcl" :=
             Text (L "//S1 EXEC PGM=IDCAMS" +:+ L "" +:+ L "//S2 EXEC &U");
           "/cntl/U.incl" := denied ]} ∅ ∅.
Definition task_partial : ScanTask :=
  mkTask "/jcl/a.jcl" {[ "IDCAMS" ]} "JCL" "/cntl" [].

(** A job file that cannot be read. *)
Definition fs_locked_job : FS := fs_of {[ "/jcl/a.jcl" := denied ]} ∅ ∅.

(** A job whose second EXEC statement has no PGM= and follows the DD
    statements of the first step without a blank line. *)
Definition fs_overlap : FS :=
  fs_of {[ "/jcl/b.jcl" :=
             Text (L "//S1 EXEC PGM=IDCAMS" +:+ L "//DD1 DD DSN=A"
                   +:+ L "//S2 EXEC IEBGENER" +:+ L "//DD2 DD DSN=B") ]} ∅ ∅.
Definition task_overlap : ScanTask :=
  mkTask "/jcl/b.jcl" {[ "IDCAMS"; "IEBGENER" ]} "JCL" "/cntl" [].

(** Two steps set apart by a blank line, each with a comment above it. *)
Definition fs_two_steps : FS :=
  fs_of {[ "/jcl/d.jcl" :=
             Text (L "//* first" +:+ L "//S1 EXEC PGM=IDCAMS" +:+ L "//DD1 DD DSN=A"
                   +:+ L "" +:+ L "//* second" +:+ L "//S2 EXEC PGM=IEBGENER"
                   +:+ L "//DD2 DD DSN=B") ]} ∅ ∅.
Definition task_two_steps : ScanTask :=
  mkTask "/jcl/d.jcl" {[ "IDCAMS"; "IEBGENER" ]} "JCL" "/cntl" [].

(** A step with inline SYSIN data. *)
Definition inline_lines : list string :=
  [L "//* Backup volume"; L "//STEP1 EXEC PGM=IDCAMS"; L "//SYSIN DD *";
   L "  DELETE A.B"; L "  SET MAXCC=0"; L "//SYSPRINT DD SYSOUT=*"].
Definition fs_inline : FS :=
  fs_of {[ "/jcl/c.jcl" := Text (Py.join EmptyString inline_lines) ]} ∅ ∅.
Definition task_inline : ScanTask :=
  mkTask "/jcl/c.jcl" {[ "IDCAMS" ]} "JCL" "/cntl" [].

(** A step whose program is not in the utility set, and one whose symbol
    is defined nowhere. *)
Definition task_other : ScanTask :=
  mkTask "/jcl/e.jcl" {[ "IDCAMS" ]} "JCL" "/cntl" [].
Definition fs_none : FS := fs_of ∅ ∅ ∅.

(** A CNTLLIB with a member of empty name and a member that cannot be read. *)
Definition fs_cards : FS :=
  fs_of {[ "/cntl/.incl" := Text "DELETE A.B"; "/cntl/LOCKED.incl" := denied;
           "/cntl/BLANK.incl" := Text (L "  ") ]} ∅ ∅.

(** A configuration that asks for a negative number of threads, one that
    asks for none, and one that says nothing. *)
Definition config_threads (n : option Z) : Config :=
  mkConfig {[ "JCL" := "/jcl"; "CNTLLIB" := "/cntl" ]} None ["idcams"] ["iebgener"]
           (match n with Some z => Some {[ "threads" := z ]} | None => None end).

Definition queue3 : list ScanTask := [task_partial; task_overlap; task_inline].

(** A symbol set in the job itself, and a symbol defined nowhere. *)
Definition fs_symbols : FS :=
  fs_of {[ "/jcl/s.jcl" := Text (L "// SET UTILNAME=IEBGENER" +:+ L "//S2 EXEC &UTILNAME");
           "/jcl/u.jcl" := Text (L "//S1 EXEC &UNDEFINEDPARM") ]} ∅ ∅.
Definition task_set_symbol : ScanTask :=
  mkTask "/jcl/s.jcl" {[ "IEBGENER" ]} "JCL" "/cntl" [].
Definition task_no_symbol : ScanTask :=
  mkTask "/jcl/u.jcl" {[ "IEBGENER" ]} "JCL" "/cntl" [].

(** A JCL directory with the two jobs above and a file that is not a job. *)
Definition fs_jobs : FS :=
  fs_of {[ "/jcl/b.jcl" :=
             Text (L "//S1 EXEC PGM=IDCAMS" +:+ L "//DD1 DD DSN=A"
                   +:+ L "//S2 EXEC IEBGENER" +:+ L "//DD2 DD DSN=B");
           "/jcl/d.jcl" :=
             Text (L "//* first" +:+ L "//S1 EXEC PGM=IDCAMS" +:+ L "//DD1 DD DSN=A"
                   +:+ L "" +:+ L "//* second" +:+ L "//S2 EXEC PGM=IEBGENER"
                   +:+ L "//DD2 DD DSN=B") ]}
        {[ "/jcl" := [("/jcl", ["b.jcl"; "d.jcl"; "notes.txt"])] ]}
        {[ "/jcl"; "/cntl" ]}.

(** Thread 0 alone, for eleven steps; and threads 0 and 1 in turn. *)
Definition schedule_alone : list nat := replicate 11 0.
Definition schedule_in_turn : list nat := concat (replicate 6 [0; 1]).

(** Both threads pass the test while one file is left; thread 0 takes the
    file and thread 1 then calls get() on the empty queue. *)
Definition schedule_blocking : list nat := [0; 0; 0; 0; 0; 0; 1; 0; 1].

End Samples.

(** Inputs for the report: an output directory that holds earlier reports,
    a configuration dictionary, and a list of tuples. *)
Module ReportSamples.

Definition fs_reports : FS :=
  fs_of {[ "out/report_default.xlsx" := Text EmptyString;
           "out/report_default_v1.xlsx" := Text EmptyString;
           "out/report_default_v2.xlsx" := Text EmptyString ]}
        ∅ {[ "out"; "/jcl" ]}.

Definition config_plain : gmap string (gmap string cfg_value) :=
  {[ "output" := {[ "filename" := VStr "report"; "directory" := VStr "old" ]};
     "performance" := {[ "threads" := VInt 2 ]} ]}.

Definition step_of (file step program : string) : ExtractedStep :=
  mkStep file "JCL" step ("//" +:+ step +:+ " EXEC PGM=" +:+ program) program
         "None" EmptyString EmptyString EmptyString EmptyString.

Definition data3 : list ExtractedStep :=
  [step_of "a.jcl" "S1" "IDCAMS"; step_of "a.jcl" "S2" "SORT"; step_of "b.jcl" "S1" "IDCAMS"].

Definition utils3 : gset string := {[ "SORT"; "IDCAMS"; "IEBGENER" ]}.

End ReportSamples.

(** * Properties *)

(** ** The resolver *)

Section ResolverFacts.
Variable fs : FS.

Lemma set_lookup_app param pre post :
  set_lookup param pre = None ->
  set_lookup param (pre ++ post) = set_lookup param post.
Proof.
  induction pre as [|l pre IH]; simpl; [done|].
  destruct (Re.re_match Pat.set_stmt l) as [c|]; [|exact IH].
  destruct (Py.str_eqb _ _); [discriminate|exact IH].
Qed.

Lemma set_lookup_none_cons param l rest :
  set_lookup param [l] = None ->
  set_lookup param (l :: rest) = set_lookup param rest.
Proof. intros H. apply (set_lookup_app param [l] rest H). Qed.

Lemma set_lookup_skip param pre post :
  (forall l, l ∈ pre -> set_lookup param [l] = None) ->
  set_lookup param (pre ++ post) = set_lookup param post.
Proof.
  induction pre as [|l pre IH]; intros Hpre; [done|].
  change ((l :: pre) ++ post) with (l :: (pre ++ post)).
  rewrite set_lookup_none_cons by (apply Hpre; left).
  apply IH. intros l' Hl'. apply Hpre. by right.
Qed.

Lemma set_lookup_here param line rest c :
  Re.re_match Pat.set_stmt line = Some c ->
  Py.upper (Re.group 1 c) = Py.upper param ->
  set_lookup param (line :: rest) = Some (Py.strip (Re.group 2 c)).
Proof.
  intros Hm Hn. simpl. rewrite Hm, Hn.
  unfold Py.str_eqb. by rewrite String.eqb_refl.
Qed.

Lemma set_lookup_exists param jcl :
  (exists line c, line ∈ jcl
     /\ Re.re_match Pat.set_stmt line = Some c
     /\ Py.upper (Re.group 1 c) = Py.upper param) ->
  exists line c, line ∈ jcl
    /\ Re.re_match Pat.set_stmt line = Some c
    /\ Py.upper (Re.group 1 c) = Py.upper param
    /\ set_lookup param jcl = Some (Py.strip (Re.group 2 c)).
Proof.
  induction jcl as [|l jcl IH]; intros (line & c & Hin & Hm & Hn).
  { inversion Hin. }
  cbn [set_lookup].
  destruct (Re.re_match Pat.set_stmt l) as [c0|] eqn:Hl.
  - destruct (Py.str_eqb (Py.upper (Re.group 1 c0)) (Py.upper param)) eqn:He.
    + exists l, c0. split; [left|]. split; [done|]. split; [|done].
      by apply String.eqb_eq.
    + apply elem_of_cons in Hin as [->|Hin].
      * rewrite Hl in Hm. injection Hm as ->. rewrite Hn in He.
        unfold Py.str_eqb in He. by rewrite String.eqb_refl in He.
      * destruct IH as (line' & c' & Hin' & ?); [by eauto|].
        exists line', c'. split; [by right|done].
  - apply elem_of_cons in Hin as [->|Hin]; [congruence|].
    destruct IH as (line' & c' & Hin' & ?); [by eauto|].
    exists line', c'. split; [by right|done].
Qed.

(** The EXEC loop handles a line on its own and goes on only when the
    line gives neither a value nor an exception. *)
Lemma exec_lookup_cons param procs l rest :
  exec_lookup fs param procs (l :: rest) =
  match exec_lookup fs param procs [l] with
  | Ok None => exec_lookup fs param procs rest
  | r => r
  end.
Proof.
  simpl. destruct (Re.re_match Pat.exec_proc l) as [c|]; [|done].
  destruct (Re.re_search (Pat.param_eq param) l) as [c'|]; [done|].
  destruct (find_proc_content fs (Re.group 1 c) procs) as [[ls|]|e]; simpl; [|done|done].
  by destruct (first_group1 (Pat.proc_def param) ls).
Qed.

Lemma exec_lookup_skip param procs pre post :
  (forall l, l ∈ pre -> exec_lookup fs param procs [l] = Ok None) ->
  exec_lookup fs param procs (pre ++ post) = exec_lookup fs param procs post.
Proof.
  induction pre as [|l pre IH]; intros Hpre; [done|].
  change ((l :: pre) ++ post) with (l :: (pre ++ post)).
  rewrite exec_lookup_cons, (Hpre l) by left.
  apply IH. intros l' Hl'. apply Hpre. by right.
Qed.

Lemma exec_lookup_override param procs line rest c c' :
  Re.re_match Pat.exec_proc line = Some c ->
  Re.re_search (Pat.param_eq param) line = Some c' ->
  exec_lookup fs param procs (line :: rest) = Ok (Some (Re.group 1 c')).
Proof. intros Hm Hs. simpl. by rewrite Hm, Hs. Qed.

Lemma exec_lookup_default param procs line rest c proc_content v :
  Re.re_match Pat.exec_proc line = Some c ->
  Re.re_search (Pat.param_eq param) line = None ->
  find_proc_content fs (Re.group 1 c) procs = Ok (Some proc_content) ->
  first_group1 (Pat.proc_def param) proc_content = Some v ->
  exec_lookup fs param procs (line :: rest) = Ok (Some v).
Proof. intros Hm Hs Hf Hv. simpl. rewrite Hm, Hs, Hf. simpl. by rewrite Hv. Qed.

Lemma passed_over_skip param procs l :
  passed_over fs param procs l -> exec_lookup fs param procs [l] = Ok None.
Proof.
  intros [Hm|(c & Hm & Hs & Hf)]; simpl; rewrite Hm; [done|].
  rewrite Hs. destruct Hf as [Hf|(ls & Hf & Hv)]; rewrite Hf; simpl; [done|].
  by rewrite Hv.
Qed.
End ResolverFacts.

(** C1. When a line of the JCL is a SET statement for the parameter (the
    name compared without regard to case), [resolve_symbolic_parameter]
    returns the value of a SET statement for it, the first one in the file,
    whatever the PROC libraries and the CNTLLIB hold: the PROC files are
    not even looked at, so a PROC default for the same parameter (or a PROC
    file that cannot be read) changes nothing. *)
Theorem C1_set_beats_proc_default :
  (forall (fs : FS) (param : string) (jcl : list string) (procs : list string)
          (cntllib : string),
     (exists line c, line ∈ jcl
        /\ Re.re_match Pat.set_stmt line = Some c
        /\ Py.upper (Re.group 1 c) = Py.upper param) ->
     exists line c, line ∈ jcl
       /\ Re.re_match Pat.set_stmt line = Some c
       /\ Py.upper (Re.group 1 c) = Py.upper param
       /\ resolve_symbolic_parameter fs param jcl procs cntllib
          = Ok (Some (Py.strip (Re.group 2 c))))
  /\ (forall (fs : FS) (param : string) (pre : list string) (line : string)
             (post : list string) (c : Re.caps) (procs : list string) (cntllib : string),
        (forall l, l ∈ pre -> set_lookup param [l] = None) ->
        Re.re_match Pat.set_stmt line = Some c ->
        Py.upper (Re.group 1 c) = Py.upper param ->
        resolve_symbolic_parameter fs param (pre ++ line :: post) procs cntllib
        = Ok (Some (Py.strip (Re.group 2 c)))).
Proof.
  split.
  - intros fs param jcl procs cntllib Hex.
    destruct (set_lookup_exists param jcl Hex) as (line & c & Hin & Hm & Hn & Hset).
    exists line, c. repeat (split; [done|]).
    unfold resolve_symbolic_parameter. by rewrite Hset.
  - intros fs param pre line post c procs cntllib Hpre Hm Hn.
    unfold resolve_symbolic_parameter.
    rewrite (set_lookup_skip param pre (line :: post) Hpre).
    by rewrite (set_lookup_here param line post c Hm Hn).
Qed.

(** The sample has both a SET statement and a PROC default (IDCAMS); the
    SET value is returned. *)
Lemma C1_witness :
  exec_lookup Samples.fs_proc "UTIL" ["/proc"] Samples.jcl_set_and_proc = Ok (Some "IDCAMS")
  /\ resolve_symbolic_parameter Samples.fs_proc "UTIL" Samples.jcl_set_and_proc ["/proc"] "/cntl"
     = Ok (Some "IEBGENER").
Proof.
  split; [vm_compute; reflexivity|].
  refine (proj2 C1_set_beats_proc_default Samples.fs_proc "UTIL" []
            (Samples.L "// SET UTIL=IEBGENER")
            [Samples.L "//S1 EXEC MYPROC"] [(2, "IEBGENER"); (1, "UTIL")]
            ["/proc"] "/cntl" _ _ _).
  - intros l Hl. inversion Hl.
  - vm_compute; reflexivity.
  - vm_compute; reflexivity.
Defined.

(** C2, at a concrete input: no SET statement; the second EXEC line
    carries the override UTIL=IEBGENER; the first EXEC line names MYPROC,
    whose definition gives UTIL the default IDCAMS.  The default is
    returned, not the override. *)
Lemma C2_counterexample :
  set_lookup "UTIL" Samples.jcl_proc_then_override = None
  /\ (exists l c c', Samples.jcl_proc_then_override !! 1 = Some l
        /\ Re.re_match Pat.exec_proc l = Some c
        /\ Re.re_search (Pat.param_eq "UTIL") l = Some c'
        /\ Re.group 1 c' = "IEBGENER")
  /\ resolve_symbolic_parameter Samples.fs_proc "UTIL" Samples.jcl_proc_then_override
       ["/proc"] "/cntl" = Ok (Some "IDCAMS")
  /\ resolve_symbolic_parameter Samples.fs_proc "UTIL" Samples.jcl_proc_then_override
       ["/proc"] "/cntl" <> Ok (Some "IEBGENER").
Proof.
  split; [vm_compute; reflexivity|].
  split.
  { eexists _, _, _. split; [reflexivity|].
    split; [vm_compute; reflexivity|].
    split; vm_compute; reflexivity. }
  split; [vm_compute; reflexivity|].
  vm_compute. discriminate.
Qed.

(** C2, amended. For a parameter name of word characters and a JCL with
    no SET statement for it: let every line before some EXEC line be
    passed over by the EXEC loop (it is not an EXEC statement naming a
    procedure, or it has no override and its procedure is not found or
    gives no default).  Then, if that EXEC line carries an override for
    the parameter, the override is returned; and if it carries none and
    the definition of its procedure gives a default, the default is
    returned, whatever the lines after it are, so also when one of them is
    an EXEC line with an override. *)
Theorem C2_override_on_first_yielding_exec :
  forall (fs : FS) (param : string) (pre : list string) (line : string)
         (post : list string) (c : Re.caps) (procs : list string) (cntllib : string),
    Pat.plain_name param = true ->
    set_lookup param (pre ++ line :: post) = None ->
    (forall l, l ∈ pre -> passed_over fs param procs l) ->
    Re.re_match Pat.exec_proc line = Some c ->
    (forall c',
       Re.re_search (Pat.param_eq param) line = Some c' ->
       resolve_symbolic_parameter fs param (pre ++ line :: post) procs cntllib
       = Ok (Some (Re.group 1 c')))
    /\ (forall proc_content v,
          Re.re_search (Pat.param_eq param) line = None ->
          find_proc_content fs (Re.group 1 c) procs = Ok (Some proc_content) ->
          first_group1 (Pat.proc_def param) proc_content = Some v ->
          resolve_symbolic_parameter fs param (pre ++ line :: post) procs cntllib
          = Ok (Some v)).
Proof.
  intros fs param pre line post c procs cntllib _ Hset Hpre Hm.
  assert (Hskip : exec_lookup fs param procs (pre ++ line :: post)
                  = exec_lookup fs param procs (line :: post)).
  { apply exec_lookup_skip. intros l Hl. by apply passed_over_skip, Hpre. }
  split.
  - intros c' Hs. unfold resolve_symbolic_parameter. rewrite Hset, Hskip.
    by rewrite (exec_lookup_override fs param procs line post c c' Hm Hs).
  - intros proc_content v Hs Hf Hv. unfold resolve_symbolic_parameter. rewrite Hset, Hskip.
    by rewrite (exec_lookup_default fs param procs line post c proc_content v Hm Hs Hf Hv).
Qed.

(** The override of the second EXEC line is returned when the first names
    a procedure that is in no library; the default of MYPROC is returned
    when the first EXEC line names MYPROC, though the second carries an
    override. *)
Lemma C2_witness :
  resolve_symbolic_parameter Samples.fs_proc "UTIL" Samples.jcl_override_only ["/proc"] "/cntl"
  = Ok (Some "IEBGENER")
  /\ resolve_symbolic_parameter Samples.fs_proc "UTIL" Samples.jcl_proc_then_override
       ["/proc"] "/cntl" = Ok (Some "IDCAMS").
Proof.
  split.
  - refine (proj1 (C2_override_on_first_yielding_exec Samples.fs_proc "UTIL"
              [Samples.L "//S1 EXEC NOPROC"] (Samples.L "//S2 EXEC OTHER,UTIL=IEBGENER") []
              [(1, "OTHER")] ["/proc"] "/cntl" _ _ _ _) [(1, "IEBGENER")] _).
    + vm_compute; reflexivity.
    + vm_compute; reflexivity.
    + intros l Hl. apply list_elem_of_singleton in Hl. subst l.
      right. exists [(1, "NOPROC")].
      split; [vm_compute; reflexivity|]. split; [vm_compute; reflexivity|].
      left. vm_compute; reflexivity.
    + vm_compute; reflexivity.
    + vm_compute; reflexivity.
  - refine (proj2 (C2_override_on_first_yielding_exec Samples.fs_proc "UTIL"
              [] (Samples.L "//S1 EXEC MYPROC") [Samples.L "//S2 EXEC OTHER,UTIL=IEBGENER"]
              [(1, "MYPROC")] ["/proc"] "/cntl" _ _ _ _)
              [Samples.L "//MYPROC PROC UTIL=IDCAMS"] "IDCAMS" _ _ _).
    + vm_compute; reflexivity.
    + vm_compute; reflexivity.
    + intros l Hl. inversion Hl.
    + vm_compute; reflexivity.
    + vm_compute; reflexivity.
    + vm_compute; reflexivity.
    + vm_compute; reflexivity.
Defined.

(** Reading errors in the walk of CNTLLIB are skipped: the walk gives a
    value or nothing, and the lookup that ends with it does not raise when
    the direct member is absent. *)
Lemma cntllib_lookup_walk_total fs param cntllib :
  path_exists fs (Py.path_join cntllib (param +:+ ".incl")) = false ->
  exists r, cntllib_lookup fs param cntllib = Ok r.
Proof.
  intros H. unfold cntllib_lookup. destruct (negb (Py.is_empty cntllib)); [|by eexists].
  rewrite H. by eexists.
Qed.

(** C3, at three inputs the resolver can receive: a PROC member, an
    INCLUDE member and the direct CNTLLIB member that exist but cannot be
    read.  In each case the exception leaves [resolve_symbolic_parameter];
    only in the walk of CNTLLIB (fourth case) is it swallowed. *)
Theorem C3_read_errors_propagate :
  resolve_symbolic_parameter Samples.fs_proc_denied "UTIL" [Samples.L "//S1 EXEC MYPROC"]
    ["/proc"] "/cntl" = Raise "Permission denied"
  /\ resolve_symbolic_parameter Samples.fs_include_denied "UTIL"
       [Samples.L "// INCLUDE MEMBER=MEM1"] [] "/cntl" = Raise "Permission denied"
  /\ resolve_symbolic_parameter Samples.fs_direct_denied "UTIL" [] [] "/cntl"
     = Raise "Permission denied"
  /\ resolve_symbolic_parameter Samples.fs_walk_denied "UTIL" [] [] "/cntl"
     = Ok (Some "IDCAMS").
Proof. repeat split; vm_compute; reflexivity. Qed.

(** ** The state monad *)

Lemma extend_empty st : extend st empty_state = st.
Proof. destruct st. unfold extend. simpl. by rewrite !app_nil_r. Qed.

Lemma extend_empty_l d : extend empty_state d = d.
Proof. by destruct d. Qed.

Lemma extend_assoc st d1 d2 : extend (extend st d1) d2 = extend st (extend d1 d2).
Proof. unfold extend. simpl. by rewrite !app_assoc. Qed.

Lemma effect_ret {A} (a : A) : effect (retM a) (Ok a) empty_state.
Proof. intros st. unfold retM. by rewrite extend_empty. Qed.

Lemma effect_lift {A} (r : result A) : effect (liftM r) r empty_state.
Proof. intros st. unfold liftM. by rewrite extend_empty. Qed.

Lemma effect_log msg : effect (log_error msg) (Ok tt) (mkState [] [msg] []).
Proof. intros st. unfold log_error, extend. simpl. by rewrite !app_nil_r. Qed.

Lemma effect_append rec w : effect (append_step rec w) (Ok tt) (mkState [rec] [] [w]).
Proof. intros st. unfold append_step, extend. simpl. by rewrite !app_nil_r. Qed.

Lemma effect_bind {A B} (m : M A) (f : A -> M B) a d1 r d2 :
  effect m (Ok a) d1 -> effect (f a) r d2 -> effect (bindM m f) r (extend d1 d2).
Proof.
  intros H1 H2 st. unfold bindM. rewrite H1, H2. by rewrite extend_assoc.
Qed.

Lemma effect_bind_eq {A B} (m : M A) (f : A -> M B) a d1 r d2 d :
  effect m (Ok a) d1 -> effect (f a) r d2 -> d = extend d1 d2 -> effect (bindM m f) r d.
Proof. intros H1 H2 ->. by eapply effect_bind. Qed.

Ltac ext_eq := unfold extend, empty_state; simpl; rewrite ?app_nil_r; reflexivity.

Lemma effect_bind_raise {A B} (m : M A) (f : A -> M B) e d :
  effect m (Raise e) d -> effect (bindM m f) (Raise e) d.
Proof. intros H st. unfold bindM. by rewrite H. Qed.

Lemma effect_lift_ok {A B} (a : A) (f : A -> M B) r d :
  effect (f a) r d -> effect (bindM (liftM (Ok a)) f) r d.
Proof. intros H st. unfold bindM, liftM. apply H. Qed.

Lemma effect_lift_raise {A B} e (f : A -> M B) :
  effect (bindM (liftM (Raise e)) f) (Raise e) empty_state.
Proof. intros st. unfold bindM, liftM. by rewrite extend_empty. Qed.

Lemma effect_fun {A} (m : M A) r1 d1 r2 d2 :
  effect m r1 d1 -> effect m r2 d2 -> r1 = r2 /\ d1 = d2.
Proof.
  intros H1 H2. specialize (H1 empty_state). specialize (H2 empty_state).
  rewrite H1 in H2. rewrite !extend_empty_l in H2. by inversion H2.
Qed.

(** ** The extractor, line by line *)

Section ExtractorFacts.
Variable fs : FS.

Lemma extract_control_card_effect cntllib member :
  exists s logs, effect (extract_control_card fs cntllib member) (Ok s) (mkState [] logs []).
Proof.
  unfold extract_control_card.
  destruct (Py.is_empty cntllib || Py.is_empty member).
  { exists no_cntllib_msg, []. apply effect_ret. }
  destruct (negb (path_exists fs _)).
  { exists (not_found_msg member), []. apply effect_ret. }
  destruct (read fs _) as [content|e].
  - eexists _, []. apply effect_ret.
  - eexists _, [_].
    eapply effect_bind_eq; [apply effect_log|apply effect_ret|ext_eq].
Qed.

Lemma detect_sysin_effect cntllib block :
  exists v logs, effect (detect_sysin fs cntllib block) (Ok v) (mkState [] logs []).
Proof.
  induction block as [|l block IH]; simpl.
  { eexists _, []. apply effect_ret. }
  destruct (found Pat.sysin_inline l). { eexists _, []. apply effect_ret. }
  destruct (found Pat.sysin_dsn l); [|exact IH].
  destruct (Re.re_search Pat.dsn_member l) as [c|]; [|eexists _, []; apply effect_ret].
  destruct (extract_control_card_effect cntllib (Re.group 1 c)) as (s & logs & Hs).
  eexists _, logs.
  eapply effect_bind_eq; [exact Hs|apply effect_ret|ext_eq].
Qed.

Lemma capture_effect task lines i line lse step program :
  exists rec w logs,
    effect (capture fs task lines i line lse step program) (Ok (w_end w))
           (mkState [rec] logs [w])
    /\ program_name rec = program
    /\ emitted lines i line lse task rec w.
Proof.
  unfold capture.
  destruct (forward (drop (S i) lines) (S i)) as [block_idx j] eqn:Hfwd.
  destruct (detect_sysin_effect (cntllib_path task) (block_lines lines line block_idx))
    as ([[[ty stmt] member] content] & logs & Hd).
  eexists _, (mkWindow i lse (backward lines lse (i - lse) []) block_idx j), logs.
  split; [|split].
  - eapply effect_bind_eq; [exact Hd| |].
    + simpl. eapply effect_bind_eq; [apply effect_append|apply effect_ret|reflexivity].
    + ext_eq.
  - reflexivity.
  - repeat split; try reflexivity. exact Hfwd.
Qed.

Lemma member_check_effect task lines i line lse step program :
  matches Pat.exec_step line = true ->
  exists r d,
    effect (member_check fs task lines i line lse step program) r d
    /\ line_outcome task lines i line lse r d.
Proof.
  intros Hm. unfold member_check. case_bool_decide as Hin.
  - destruct (capture_effect task lines i line lse step program)
      as (rec & w & logs & He & Hp & Hem).
    eexists _, _. split; [exact He|].
    apply lo_emit; [exact Hm| by rewrite Hp |exact Hem].
  - eexists _, _. split; [apply effect_ret|]. apply (lo_skip _ _ _ _ _ []).
Qed.

Lemma skip_logged_effect task lines i line lse msg :
  exists r d,
    effect (let* _ := log_error msg in retM lse) r d
    /\ line_outcome task lines i line lse r d.
Proof.
  eexists _, _. split.
  - eapply effect_bind_eq; [apply effect_log|apply effect_ret|ext_eq].
  - apply (lo_skip _ _ _ _ _ [msg]).
Qed.

Lemma scan_line_effect task lines i line lse :
  exists r d,
    effect (scan_line fs task lines i line lse) r d
    /\ line_outcome task lines i line lse r d.
Proof.
  unfold scan_line.
  destruct (matches Pat.comment_exec line).
  { eexists _, _. split; [apply effect_ret|]. apply (lo_skip _ _ _ _ _ []). }
  destruct (Re.re_match Pat.exec_step line) as [c|] eqn:Hm.
  2:{ eexists _, _. split; [apply effect_ret|]. apply (lo_skip _ _ _ _ _ []). }
  assert (Hmt : matches Pat.exec_step line = true) by (unfold matches; by rewrite Hm).
  destruct (Py.startswith "&" (Py.upper (Re.group 2 c))).
  2:{ by apply member_check_effect. }
  destruct (resolve_symbolic_parameter fs _ lines _ _) as [[v|]|e] eqn:Hres.
  - destruct (negb (Py.is_empty v)) eqn:Hv.
    + destruct (member_check_effect task lines i line lse (Re.group 1 c) (Py.upper v) Hmt)
        as (r & d & He & Ho).
      exists r, d. split; [|exact Ho].
      apply effect_lift_ok. by rewrite Hv.
    + destruct (skip_logged_effect task lines i line lse
                  ("Unresolved symbolic parameter " +:+ Py.upper (Re.group 2 c) +:+ " in "
                   +:+ Py.basename (file_path task))) as (r & d & He & Ho).
      exists r, d. split; [|exact Ho].
      apply effect_lift_ok. by rewrite Hv.
  - destruct (skip_logged_effect task lines i line lse
                ("Unresolved symbolic parameter " +:+ Py.upper (Re.group 2 c) +:+ " in "
                 +:+ Py.basename (file_path task))) as (r & d & He & Ho).
    exists r, d. split; [|exact Ho].
    by apply effect_lift_ok.
  - exists (Raise e), empty_state. split; [|apply lo_raise].
    apply effect_lift_raise.
Qed.

Lemma scan_lines_effect task lines rest :
  forall i lse,
  exists r d,
    effect (scan_lines fs task lines i rest lse) r d
    /\ scan_outcome task lines i rest lse r d.
Proof.
  induction rest as [|line rest IH]; intros i lse; simpl.
  { eexists _, _. split; [apply effect_ret|apply so_done]. }
  destruct (scan_line_effect task lines i line lse) as (r & d & He & Ho).
  destruct r as [e|msg].
  - destruct (IH (S i) e) as (r' & d' & He' & Ho').
    exists r', (extend d d'). split.
    + eapply effect_bind; [exact He|exact He'].
    + eapply so_next; [exact Ho|exact Ho'].
  - exists (Raise msg), d. split.
    + by apply effect_bind_raise.
    + by apply so_raise.
Qed.
End ExtractorFacts.

(** ** The matcher respects the declarative reading of the patterns *)

Lemma str_app_cons x a b : String x a +:+ b = String x (a +:+ b).
Proof. reflexivity. Qed.

Lemma str_app_nil_l b : EmptyString +:+ b = b.
Proof. reflexivity. Qed.

Lemma str_app_assoc a b c : (a +:+ b) +:+ c = a +:+ b +:+ c.
Proof.
  induction a as [|x a IH]; [by rewrite !str_app_nil_l|].
  by rewrite !str_app_cons, IH.
Qed.

Lemma str_app_nil_r a : a +:+ EmptyString = a.
Proof. induction a as [|x a IH]; [done|]. by rewrite str_app_cons, IH. Qed.

Lemma str_length_app a b : String.length (a +:+ b) = String.length a + String.length b.
Proof.
  induction a as [|x a IH]; [done|].
  rewrite str_app_cons. cbn [String.length]. by rewrite IH.
Qed.

Lemma take_app pre s' : Re.take (String.length pre) (pre +:+ s') = pre.
Proof.
  induction pre as [|x pre IH]; [by destruct s'|].
  rewrite str_app_cons. cbn [String.length Re.take]. by rewrite IH.
Qed.

Lemma take_consumed pre s' :
  Re.take (String.length (pre +:+ s') - String.length s') (pre +:+ s') = pre.
Proof.
  rewrite str_length_app.
  replace (String.length pre + String.length s' - String.length s')
    with (String.length pre) by lia.
  apply take_app.
Qed.

Lemma star_sound {A} p : forall s prev (k : option ascii -> string -> option A) a,
  Re.star p prev s k = Some a ->
  exists prev' pre s', s = pre +:+ s' /\ all_chars p pre = true /\ k prev' s' = Some a.
Proof.
  induction s as [|c s IH]; intros prev k a; cbn [Re.star].
  - intros H. by exists prev, EmptyString, EmptyString.
  - destruct (p c) eqn:Hp.
    + destruct (Re.star p (Some c) s k) as [a'|] eqn:Hs.
      * intros [= <-]. destruct (IH _ _ _ Hs) as (prev' & pre & s' & -> & Hall & Hk).
        exists prev', (String c pre), s'. split; [done|]. split; [|done].
        cbn [all_chars]. by rewrite Hp, Hall.
      * intros H. by exists prev, EmptyString, (String c s).
    + intros H. by exists prev, EmptyString, (String c s).
Qed.

Lemma run_sound {A} r : forall prev s c (k : option ascii -> string -> Re.caps -> option A) a,
  Re.run r prev s c k = Some a ->
  exists prev' s' pre e,
    matched r pre e /\ s = pre +:+ s' /\ k prev' s' (e ++ c) = Some a.
Proof.
  induction r as [|p|r1 IH1 r2 IH2|r1 IH1 r2 IH2|p|r1 IH1| |n r1 IH1];
    intros prev s c k a; cbn [Re.run].
  - intros H. exists prev, s, EmptyString, []. split; [constructor|]. by split.
  - destruct s as [|x s]; [discriminate|]. destruct (p x) eqn:Hp; [|discriminate].
    intros H. exists (Some x), s, (String x EmptyString), []. split; [by constructor|].
    by split.
  - intros H. apply IH1 in H as (prev1 & s1 & pre1 & e1 & Hm1 & -> & H).
    apply IH2 in H as (prev2 & s2 & pre2 & e2 & Hm2 & -> & H).
    exists prev2, s2, (pre1 +:+ pre2), (e2 ++ e1).
    split; [by constructor|]. split; [by rewrite str_app_assoc|].
    by rewrite <- app_assoc.
  - destruct (Re.run r1 prev s c k) as [a'|] eqn:H1.
    + intros [= <-]. apply IH1 in H1 as (prev1 & s1 & pre1 & e1 & Hm1 & -> & H).
      exists prev1, s1, pre1, e1. split; [by apply m_alt_l|]. by split.
    + intros H. apply IH2 in H as (prev2 & s2 & pre2 & e2 & Hm2 & -> & H).
      exists prev2, s2, pre2, e2. split; [by apply m_alt_r|]. by split.
  - intros H. apply star_sound in H as (prev' & pre & s' & -> & Hall & H).
    exists prev', s', pre, []. split; [by constructor|]. by split.
  - destruct (Re.run r1 prev s c k) as [a'|] eqn:H1.
    + intros [= <-]. apply IH1 in H1 as (prev1 & s1 & pre1 & e1 & Hm1 & -> & H).
      exists prev1, s1, pre1, e1. split; [by apply m_opt_some|]. by split.
    + intros H. exists prev, s, EmptyString, []. split; [constructor|]. by split.
  - destruct (xorb _ _); [|discriminate].
    intros H. exists prev, s, EmptyString, []. split; [constructor|]. by split.
  - intros H. apply IH1 in H as (prev1 & s1 & pre1 & e1 & Hm1 & -> & H).
    rewrite take_consumed in H.
    exists prev1, s1, pre1, ((n, pre1) :: e1). split; [by constructor|]. by split.
Qed.

Lemma re_match_sound r s c :
  Re.re_match r s = Some c -> exists pre, matched r pre c.
Proof.
  unfold Re.re_match. intros H.
  apply run_sound in H as (prev' & s' & pre & e & Hm & -> & H).
  unfold Re.accept in H. rewrite app_nil_r in H. injection H as <-. by exists pre.
Qed.

Lemma search_from_sound r s : forall prev c,
  Re.search_from r prev s = Some c -> exists pre, matched r pre c.
Proof.
  induction s as [|x s IH]; intros prev c; cbn [Re.search_from].
  - destruct (Re.run r prev EmptyString [] Re.accept) as [c'|] eqn:H; [|discriminate].
    intros [= <-]. apply run_sound in H as (prev' & s' & pre & e & Hm & _ & H).
    unfold Re.accept in H. rewrite app_nil_r in H. injection H as <-. by exists pre.
  - destruct (Re.run r prev (String x s) [] Re.accept) as [c'|] eqn:H.
    + intros [= <-]. apply run_sound in H as (prev' & s' & pre & e & Hm & _ & H).
      unfold Re.accept in H. rewrite app_nil_r in H. injection H as <-. by exists pre.
    + apply IH.
Qed.

Lemma re_search_sound r s c :
  Re.re_search r s = Some c -> exists pre, matched r pre c.
Proof. apply search_from_sound. Qed.

(** *** What parts of patterns bind and match *)

Lemma matched_lit f s pre e : matched (Re.lit_with f s) pre e -> e = [].
Proof.
  revert pre e. induction s as [|a s IH]; intros pre e H; cbn [Re.lit_with] in H.
  - by inversion H.
  - inversion H as [| |r1 r2 p1 p2 e1 e2 H1 H2| | | | | | |]; subst.
    inversion H1; subst. by rewrite (IH _ _ H2).
Qed.

Lemma matched_star p pre e :
  matched (Re.Star p) pre e -> e = [] /\ all_chars p pre = true.
Proof. by inversion 1. Qed.

Lemma matched_plus p pre e :
  matched (Re.plus p) pre e ->
  e = [] /\ pre <> EmptyString /\ all_chars p pre = true.
Proof.
  unfold Re.plus. inversion 1 as [| |r1 r2 p1 p2 e1 e2 H1 H2| | | | | | |]; subst.
  inversion H1; subst. apply matched_star in H2 as [-> Hall].
  split; [done|]. split; [done|].
  rewrite str_app_cons, str_app_nil_l. cbn [all_chars].
  match goal with Hp : _ _ = true |- _ => by rewrite Hp, Hall end.
Qed.

Ltac inv_seq H :=
  let H1 := fresh "Hm" in let H2 := fresh "Hm" in
  inversion H as [| |? ? ? ? ? ? H1 H2| | | | | | |]; subst; clear H.

(** The value bound by a pattern that ends in the group [([^,\s]+)]. *)
Lemma param_eq_token p pre c :
  matched (Pat.param_eq p) pre c -> token (Re.group 1 c).
Proof.
  unfold Pat.param_eq, Re.cat. cbn [foldr]. intros H.
  inv_seq H. inversion Hm; subst; clear Hm.
  inv_seq Hm0. apply matched_lit in Hm. subst.
  inv_seq Hm1. apply matched_star in Hm as [-> _].
  inv_seq Hm0. apply matched_lit in Hm. subst.
  inv_seq Hm1. apply matched_star in Hm as [-> _].
  inv_seq Hm0. inversion Hm1; subst; clear Hm1.
  inversion Hm; subst; clear Hm.
  match goal with H : matched (Re.plus _) _ _ |- _ =>
    apply matched_plus in H as (-> & Hne & Hall) end.
  simpl. by split.
Qed.

Lemma proc_def_token p pre c :
  matched (Pat.proc_def p) pre c -> token (Re.group 1 c).
Proof.
  unfold Pat.proc_def, Re.cat. cbn [foldr]. intros H.
  inv_seq H. apply matched_lit in Hm. subst.
  inv_seq Hm0. apply matched_plus in Hm as (-> & _ & _).
  inv_seq Hm1. apply matched_plus in Hm as (-> & _ & _).
  inv_seq Hm0. apply matched_lit in Hm. subst.
  inv_seq Hm1. inversion Hm; subst; clear Hm.
  inv_seq Hm0. apply matched_star in Hm as [-> _].
  inv_seq Hm1. inversion Hm; subst; clear Hm.
  inv_seq Hm0. apply matched_lit in Hm. subst.
  inv_seq Hm1. apply matched_star in Hm as [-> _].
  inv_seq Hm0. apply matched_lit in Hm. subst.
  inv_seq Hm1. apply matched_star in Hm as [-> _].
  inv_seq Hm0. inversion Hm1; subst; clear Hm1.
  inversion Hm; subst; clear Hm.
  match goal with H : matched (Re.plus _) _ _ |- _ =>
    apply matched_plus in H as (-> & Hne & Hall) end.
  simpl. by split.
Qed.

Lemma first_group1_token r ls v :
  (forall pre c, matched r pre c -> token (Re.group 1 c)) ->
  first_group1 r ls = Some v -> token v.
Proof.
  intros Hr. induction ls as [|l ls IH]; cbn [first_group1]; [discriminate|].
  destruct (Re.re_search r l) as [c|] eqn:Hs; [|exact IH].
  intros [= <-]. apply re_search_sound in Hs as (pre & Hm). by eapply Hr.
Qed.
(** ** Lists of lists *)

Lemma elem_of_concat {A} (x : A) (ls : list (list A)) :
  x ∈ concat ls -> exists l, x ∈ l /\ l ∈ ls.
Proof.
  induction ls as [|l ls IH]; simpl; [by inversion 1|].
  intros H. apply elem_of_app in H as [H|H].
  - exists l. split; [done|left].
  - destruct (IH H) as (l' & ? & ?). exists l'. split; [done|by right].
Qed.


(** ** Lines that start with two slashes *)

Lemma chr_ci_slash a : Re.chr_ci "/" a = true -> a = "/"%char.
Proof. destruct a as [[] [] [] [] [] [] [] []]; vm_compute; congruence. Qed.

Lemma ascii_eqb_eq a b : Py.ascii_eqb a b = true -> a = b.
Proof. unfold Py.ascii_eqb. apply Ascii.eqb_eq. Qed.

(** A pattern that begins with the two slashes matches only such lines. *)
Lemma run_slashes {A} (R : Re.regex) prev s c (k : option ascii -> string -> Re.caps -> option A) a :
  Re.run (Re.Seq (Re.liti "//") R) prev s c k = Some a -> Py.startswith "//" s = true.
Proof.
  destruct s as [|x [|y t]]; cbn; try discriminate.
  - destruct (Re.chr_ci "/" x); discriminate.
  - destruct (Re.chr_ci "/" x) eqn:Hx; [|discriminate].
    destruct (Re.chr_ci "/" y) eqn:Hy; [|discriminate].
    intros _. apply chr_ci_slash in Hx, Hy. by subst.
Qed.

Lemma matches_exec_step_slashes line :
  matches Pat.exec_step line = true -> Py.startswith "//" line = true.
Proof.
  unfold matches, Re.re_match. intros H.
  destruct (Re.run Pat.exec_step None line [] Re.accept) as [a|] eqn:Hr; [|discriminate].
  exact (run_slashes _ _ _ _ _ _ Hr).
Qed.

Lemma matches_exec_pgm_slashes line :
  matches Pat.exec_pgm line = true -> Py.startswith "//" line = true.
Proof.
  unfold matches, Re.re_match. intros H.
  destruct (Re.run Pat.exec_pgm None line [] Re.accept) as [a|] eqn:Hr; [|discriminate].
  exact (run_slashes _ _ _ _ _ _ Hr).
Qed.

Lemma rstrip_cons c s :
  Py.is_space c = false -> Py.rstrip (String c s) = String c (Py.rstrip s).
Proof. intros H. simpl. destruct (Py.rstrip s); by rewrite ?H. Qed.

(** [strip] leaves the two slashes in place. *)
Lemma strip_slashes l :
  Py.startswith "//" l = true -> Py.startswith "//" (Py.strip l) = true.
Proof.
  destruct l as [|x [|y t]]; try discriminate.
  { change (Py.startswith "//" (String x EmptyString))
      with (Py.ascii_eqb "/" x && false).
    by rewrite andb_false_r. }
  change (Py.startswith "//" (String x (String y t)))
    with (Py.ascii_eqb "/" x && (Py.ascii_eqb "/" y && true)).
  intros H. apply andb_true_iff in H as [Hx H]. apply andb_true_iff in H as [Hy _].
  apply ascii_eqb_eq in Hx, Hy. subst x y.
  unfold Py.strip. rewrite !rstrip_cons by reflexivity. reflexivity.
Qed.

(** ** Lines and line ends *)

Lemma splitlines_shaped s :
  Forall (fun l => line_shaped l = true) (Py.splitlines_keepends s).
Proof.
  induction s as [|c s IH]; [constructor|].
  cbn [Py.splitlines_keepends].
  destruct (Py.ascii_eqb c Py.newline) eqn:Hc.
  - constructor; [reflexivity|exact IH].
  - destruct (Py.splitlines_keepends s) as [|l ls]; [by repeat constructor|].
    apply Forall_cons in IH as [Hl Hls]. constructor; [|exact Hls].
    cbn [line_shaped]. destruct l; [reflexivity|]. by rewrite Hc, Hl.
Qed.

Lemma newline_is_space c : Py.ascii_eqb c Py.newline = true -> Py.is_space c = true.
Proof. intros H. apply ascii_eqb_eq in H. by subst. Qed.

Lemma rstrip_no_newline l :
  line_shaped l = true -> Py.has_newline (Py.rstrip l) = false.
Proof.
  induction l as [|c t IH]; [reflexivity|].
  cbn [line_shaped Py.rstrip]. destruct t as [|c' t'].
  - intros _. cbn [Py.rstrip].
    destruct (Py.is_space c) eqn:Hs; [reflexivity|].
    cbn [Py.has_newline].
    destruct (Py.ascii_eqb c Py.newline) eqn:Hc; [|reflexivity].
    apply newline_is_space in Hc. congruence.
  - intros H. apply andb_true_iff in H as [Hc Hsh].
    apply negb_true_iff in Hc. specialize (IH Hsh).
    destruct (Py.rstrip (String c' t')) as [|x r].
    + destruct (Py.is_space c); [reflexivity|]. cbn [Py.has_newline]. by rewrite Hc.
    + cbn [Py.has_newline] in *. by rewrite Hc, IH.
Qed.

Lemma lstrip_no_newline s :
  Py.has_newline s = false -> Py.has_newline (Py.lstrip s) = false.
Proof.
  induction s as [|c t IH]; [done|].
  cbn [Py.has_newline Py.lstrip]. intros H.
  apply orb_false_iff in H as [Hc Ht].
  destruct (Py.is_space c); [by apply IH|].
  cbn [Py.has_newline]. by rewrite Hc, Ht.
Qed.

(** A stripped line of a file has no line end left in it. *)
Lemma strip_no_newline l :
  line_shaped l = true -> Py.has_newline (Py.strip l) = false.
Proof. intros H. apply lstrip_no_newline, rstrip_no_newline, H. Qed.

Lemma split_lines_one x :
  Py.has_newline x = false -> Py.split_lines x = [x].
Proof.
  induction x as [|c x IH]; [reflexivity|].
  cbn [Py.has_newline Py.split_lines]. intros H.
  apply orb_false_iff in H as [Hc Hx]. by rewrite Hc, (IH Hx).
Qed.

Lemma split_lines_app x rest :
  Py.has_newline x = false ->
  Py.split_lines (x +:+ Py.nl +:+ rest) = x :: Py.split_lines rest.
Proof.
  induction x as [|c x IH]; [reflexivity|].
  cbn [Py.has_newline]. intros H. apply orb_false_iff in H as [Hc Hx].
  change (String c x +:+ Py.nl +:+ rest) with (String c (x +:+ Py.nl +:+ rest)).
  cbn [Py.split_lines]. by rewrite Hc, (IH Hx).
Qed.

(** Pieces without line ends, joined by line ends, are the lines of the
    text they make. *)
Lemma split_lines_join x xs :
  Forall (fun l => Py.has_newline l = false) (x :: xs) ->
  Py.split_lines (Py.join Py.nl (x :: xs)) = x :: xs.
Proof.
  revert x. induction xs as [|y xs IH]; intros x H.
  - apply Forall_cons in H as [Hx _]. by apply split_lines_one.
  - apply Forall_cons in H as [Hx H].
    change (Py.join Py.nl (x :: y :: xs)) with (x +:+ Py.nl +:+ Py.join Py.nl (y :: xs)).
    by rewrite (split_lines_app _ _ Hx), (IH y H).
Qed.

(** ** The two scans of a step *)

Section ScanFacts.
Variable fs : FS.

Lemma line_at_lookup lines j l : lines !! j = Some l -> line_at lines j = l.
Proof. intros H. unfold line_at. by rewrite nth_lookup, H. Qed.

Lemma line_at_shaped lines j :
  Forall (fun l => line_shaped l = true) lines -> line_shaped (line_at lines j) = true.
Proof.
  intros H. unfold line_at. rewrite nth_lookup.
  destruct (lines !! j) as [l|] eqn:Hl; [|reflexivity].
  simpl. rewrite Forall_forall in H. apply H. by eapply list_elem_of_lookup_2.
Qed.

(** The backward scan reads only indices from [last_step_end] up to the
    one before the EXEC line. *)
Lemma backward_range lines lse n : forall acc j,
  j ∈ backward lines lse n acc -> j ∈ acc \/ (lse <= j /\ j < lse + n).
Proof.
  induction n as [|n IH]; intros acc j; cbn [backward]; [by left|].
  destruct (blank _ || matches _ _); [by left|].
  intros Hj. apply IH in Hj as [Hj|Hj]; [|right; lia].
  destruct (Py.startswith "//*" _); [|by left].
  apply elem_of_cons in Hj as [->|Hj]; [right; lia|by left].
Qed.

Lemma backward_comments lines lse n : forall acc j,
  j ∈ backward lines lse n acc ->
  j ∈ acc \/ Py.startswith "//*" (line_at lines j) = true.
Proof.
  induction n as [|n IH]; intros acc j; cbn [backward]; [by left|].
  destruct (blank _ || matches _ _); [by left|].
  intros Hj. apply IH in Hj as [Hj|Hj]; [|by right].
  destruct (Py.startswith "//*" _) eqn:Hs; [|by left].
  apply elem_of_cons in Hj as [->|Hj]; [by right|by left].
Qed.

(** The forward scan from index [j] captures indices between [j] and the
    index where it stops, and only lines that start with two slashes. *)
Lemma forward_spec lines rest : forall j b e,
  rest = drop j lines ->
  forward rest j = (b, e) ->
  j <= e /\ forall k, k ∈ b ->
    (j <= k /\ k < e) /\ Py.startswith "//" (line_at lines k) = true.
Proof.
  induction rest as [|l rest IH]; intros j b e Hrest; cbn [forward].
  { intros [= <- <-]. split; [lia|]. intros k Hk. inversion Hk. }
  assert (Hl : lines !! j = Some l).
  { pose proof (lookup_drop lines j 0) as H. rewrite <- Hrest in H. simpl in H.
    rewrite Nat.add_0_r in H. done. }
  assert (Hrest' : rest = drop (S j) lines).
  { rewrite (drop_S _ _ _ Hl) in Hrest. by inversion Hrest. }
  destruct (matches Pat.exec_pgm l).
  { intros [= <- <-]. split; [lia|]. intros k Hk. inversion Hk. }
  destruct (blank l).
  { intros [= <- <-]. split; [lia|]. intros k Hk. inversion Hk. }
  destruct (forward rest (S j)) as [b' e'] eqn:Hf.
  destruct (IH (S j) b' e' Hrest' Hf) as [Hle Hin].
  destruct (Py.startswith "//" l) eqn:Hs;
    intros [= <- <-]; (split; [lia|]); intros k Hk.
  - apply elem_of_cons in Hk as [->|Hk].
    + split; [lia|]. by rewrite (line_at_lookup _ _ _ Hl).
    + destruct (Hin k Hk) as [? ?]. split; [lia|done].
  - destruct (Hin k Hk) as [? ?]. split; [lia|done].
Qed.

(** A line that is not blank and does not start with two slashes is
    stepped over: it is not captured and the scan goes on behind it. *)
Lemma forward_steps_over l rest j :
  blank l = false -> Py.startswith "//" l = false ->
  forward (l :: rest) j = forward rest (S j).
Proof.
  intros Hb Hs. cbn [forward].
  destruct (matches Pat.exec_pgm l) eqn:Hm.
  { apply matches_exec_pgm_slashes in Hm. congruence. }
  rewrite Hb, Hs. by destruct (forward rest (S j)).
Qed.

Lemma emitted_window_ok lines i line lse task rec w :
  emitted lines i line lse task rec w -> w_from w = lse /\ window_ok w.
Proof.
  intros (_ & _ & _ & Hi & Hf & Hc & Hfw). split; [done|].
  destruct (forward_spec lines _ (S i) _ _ eq_refl Hfw) as [Hle Hin].
  repeat split.
  - rewrite Hc in H. apply backward_range in H as [H|H]; [inversion H|lia].
  - rewrite Hc in H. apply backward_range in H as [H|H]; [inversion H|lia].
  - apply Hin in H. lia.
  - apply Hin in H. lia.
  - lia.
Qed.

Lemma emitted_block_slashes lines i line lse task rec w :
  matches Pat.exec_step line = true ->
  emitted lines i line lse task rec w ->
  Forall (fun l => Py.startswith "//" l = true) (block_lines lines line (w_block w)).
Proof.
  intros Hm (_ & _ & _ & _ & _ & _ & Hfw).
  destruct (forward_spec lines _ (S i) _ _ eq_refl Hfw) as [_ Hin].
  unfold block_lines. apply Forall_cons. split.
  - apply strip_slashes, matches_exec_step_slashes, Hm.
  - apply Forall_forall. intros l Hl. apply list_elem_of_fmap in Hl as (k & -> & Hk).
    apply strip_slashes. by apply Hin.
Qed.

Lemma emitted_step_ok lines i line lse task rec w :
  Forall (fun l => line_shaped l = true) lines ->
  line_shaped line = true ->
  matches Pat.exec_step line = true ->
  program_name rec ∈ utilities task ->
  emitted lines i line lse task rec w ->
  step_ok task rec.
Proof.
  intros Hsh Hline Hm Hp Hem. split; [done|]. split; [apply Hem|].
  exists line, (map (fun j => Py.strip (line_at lines j)) (w_block w)).
  split; [done|]. split; [apply Hem|].
  split; [exact (emitted_block_slashes _ _ _ _ _ _ _ Hm Hem)|].
  apply Forall_cons. split; [by apply strip_no_newline|].
  apply Forall_forall. intros l Hl. apply list_elem_of_fmap in Hl as (k & -> & _).
  by apply strip_no_newline, line_at_shaped.
Qed.

(** What a whole scan of the lines leaves: tuples that are all [step_ok],
    one window per tuple, the windows chained. *)
Lemma scan_outcome_facts task lines i rest lse r d :
  Forall (fun l => line_shaped l = true) lines ->
  Forall (fun l => line_shaped l = true) rest ->
  scan_outcome task lines i rest lse r d ->
  Forall (step_ok task) (extracted_data d)
  /\ length (windows d) = length (extracted_data d)
  /\ chain lse (windows d).
Proof.
  intros Hsh Hrest Hso. revert Hrest.
  induction Hso as [i lse|i line rest lse e d Hl|i line rest lse e d r d' Hl Hs IH];
    intros Hrest.
  - by repeat split.
  - inversion Hl; subst. by repeat split.
  - apply Forall_cons in Hrest as [Hline Hrest].
    destruct (IH Hrest) as (IH1 & IH2 & IH3).
    inversion Hl as [logs|e'|rec w logs Hm Hp Hem]; subst; simpl.
    + by repeat split.
    + destruct (emitted_window_ok _ _ _ _ _ _ _ Hem) as [Hfrom Hok].
      split; [|split; [|split; [|split]]].
      * apply Forall_cons. split; [|done].
        exact (emitted_step_ok _ _ _ _ _ _ _ Hsh Hline Hm Hp Hem).
      * by rewrite IH2.
      * done.
      * done.
      * done.
Qed.

Lemma process_file_effect task :
  exists r d, effect (process_file fs task) r d /\ file_outcome fs task r d.
Proof.
  unfold process_file.
  destruct (readlines fs (file_path task)) as [lines|e] eqn:Hr.
  - destruct lines as [|l lines].
    + eexists _, _. split; [|by apply fo_empty].
      apply effect_lift_ok, effect_log.
    + destruct (scan_lines_effect fs task (l :: lines) (l :: lines) 0 0)
        as (r & d & He & Ho).
      exists r, d. split; [by apply effect_lift_ok|].
      by eapply fo_scanned.
  - eexists _, _. split; [apply effect_lift_raise|by apply fo_unreadable].
Qed.

Lemma file_outcome_facts task r d :
  file_outcome fs task r d ->
  Forall (step_ok task) (extracted_data d)
  /\ length (windows d) = length (extracted_data d)
  /\ chain 0 (windows d).
Proof.
  intros [e He| He |lines r' d' Hr Hne Hs]; [by repeat split..|].
  assert (Hsh : Forall (fun l => line_shaped l = true) lines).
  { unfold readlines in Hr. destruct (read fs (file_path task)) as [c|]; [|discriminate].
    injection Hr as <-. apply splitlines_shaped. }
  by eapply scan_outcome_facts.
Qed.

(** One turn of the worker loop appends to the state what the file gives,
    whatever the state is, and never raises. *)
Lemma run_task_effect task r d :
  effect (process_file fs task) r d ->
  forall st, run_task fs task st = extend st (task_delta task r d).
Proof.
  intros He st. unfold run_task. rewrite He.
  destruct r as [[]|e]; [done|].
  unfold log_error, task_delta, error_reading, extend. simpl.
  by rewrite !app_nil_r, !app_assoc.
Qed.

Lemma task_delta_data task r d :
  extracted_data (task_delta task r d) = extracted_data d.
Proof. destruct r; simpl; [done|]. by rewrite app_nil_r. Qed.

Lemma task_delta_windows task r d :
  windows (task_delta task r d) = windows d.
Proof. destruct r; simpl; [done|]. by rewrite app_nil_r. Qed.

Lemma run_task_data task st :
  extracted_data (run_task fs task st) = extracted_data st ++ task_records fs task.
Proof.
  destruct (process_file_effect task) as (r & d & He & _).
  unfold task_records. by rewrite !(run_task_effect task r d He).
Qed.

Lemma task_records_ok task : Forall (step_ok task) (task_records fs task).
Proof.
  destruct (process_file_effect task) as (r & d & He & Ho).
  unfold task_records. rewrite (run_task_effect task r d He). simpl.
  rewrite task_delta_data. by apply file_outcome_facts in Ho as (? & _).
Qed.

Lemma task_windows_chain task : chain 0 (windows (run_task fs task empty_state)).
Proof.
  destruct (process_file_effect task) as (r & d & He & Ho).
  rewrite (run_task_effect task r d He). simpl.
  rewrite task_delta_windows. by apply file_outcome_facts in Ho as (_ & _ & ?).
Qed.

(** The worker loop on a queue appends the records of its files in turn. *)
Lemma worker_data queue : forall st,
  extracted_data (extract_steps_from_file fs queue st)
  = extracted_data st ++ concat (task_records fs <$> queue).
Proof.
  induction queue as [|task queue IH]; intros st; simpl.
  - by rewrite app_nil_r.
  - by rewrite IH, run_task_data, app_assoc.
Qed.
End ScanFacts.

(** ** The forward scan, read on the lines of the file *)

Section ForwardFacts.
Variable fs : FS.

Lemma forward_scan lines rest : forall j b e,
  rest = drop j lines ->
  j <= length lines ->
  forward rest j = (b, e) ->
  j <= e <= length lines
  /\ (forall k, j <= k < e -> stops_scan (line_at lines k) = false)
  /\ (e = length lines \/ stops_scan (line_at lines e) = true)
  /\ b = List.filter (fun k => Py.startswith "//" (line_at lines k)) (seq j (e - j)).
Proof.
  induction rest as [|l rest IH]; intros j b e Hrest Hj; cbn [forward].
  { intros [= <- <-].
    assert (Hlen : length lines <= j).
    { destruct (decide (length lines <= j)) as [|Hn]; [done|].
      assert (Hl : is_Some (lines !! j)) by (apply lookup_lt_is_Some; lia).
      destruct Hl as [x Hx]. rewrite (drop_S _ _ _ Hx) in Hrest. discriminate. }
    split; [lia|]. split; [intros k Hk; lia|]. split; [left; lia|].
    by rewrite Nat.sub_diag. }
  assert (Hl : lines !! j = Some l).
  { pose proof (lookup_drop lines j 0) as H. rewrite <- Hrest in H. simpl in H.
    rewrite Nat.add_0_r in H. done. }
  assert (Hlt : j < length lines) by (by eapply lookup_lt_Some).
  assert (Hrest' : rest = drop (S j) lines).
  { rewrite (drop_S _ _ _ Hl) in Hrest. by inversion Hrest. }
  pose proof (line_at_lookup _ _ _ Hl) as Hat.
  destruct (matches Pat.exec_pgm l) eqn:Hm.
  { intros [= <- <-]. split; [lia|]. split; [intros k Hk; lia|]. split.
    - right. unfold stops_scan. by rewrite Hat, Hm.
    - by rewrite Nat.sub_diag. }
  destruct (blank l) eqn:Hb.
  { intros [= <- <-]. split; [lia|]. split; [intros k Hk; lia|]. split.
    - right. unfold stops_scan. rewrite Hat, Hb. apply orb_true_r.
    - by rewrite Nat.sub_diag. }
  destruct (forward rest (S j)) as [b' e'] eqn:Hf.
  destruct (IH (S j) b' e' Hrest' Hlt Hf) as (Hle & Hrun & Hstop & Hb').
  assert (Hseq : seq j (e' - j) = j :: seq (S j) (e' - S j)).
  { replace (e' - j) with (S (e' - S j)) by lia. reflexivity. }
  assert (Hgo : forall k, j <= k < e' -> stops_scan (line_at lines k) = false).
  { intros k Hk. destruct (decide (k = j)) as [->|Hne].
    - unfold stops_scan. by rewrite Hat, Hm, Hb.
    - apply Hrun. lia. }
  destruct (Py.startswith "//" l) eqn:Hs; intros [= <- <-];
    (split; [lia|]); (split; [exact Hgo|]); (split; [exact Hstop|]);
    rewrite Hseq; cbn [List.filter]; rewrite Hat, Hs; by rewrite Hb'.
Qed.

Lemma emitted_forward_scanned task lines rec w :
  emitted_at task lines rec w -> forward_scanned lines w.
Proof.
  intros (line & lse & Hline & _ & (_ & _ & _ & Hi & _ & _ & Hfw)).
  assert (Hlt : w_exec w < length lines) by (by eapply lookup_lt_Some).
  destruct (forward_scan lines _ (S (w_exec w)) _ _ eq_refl Hlt Hfw)
    as (Hle & Hrun & Hstop & Hb).
  split; [lia|]. split; [intros j Hj; apply Hrun; lia|]. split; [exact Hstop|exact Hb].
Qed.

Lemma forward_scanned_block lines w j :
  forward_scanned lines w ->
  w_exec w < j < w_end w ->
  (j ∈ w_block w <-> Py.startswith "//" (line_at lines j) = true).
Proof.
  intros (_ & _ & _ & Hb) Hj. rewrite Hb, list_elem_of_In, filter_In, in_seq.
  split; [by intros [_ ?]|]. intros Hs. split; [lia|done].
Qed.

Lemma scan_outcome_pairs task lines i rest lse r d :
  rest = drop i lines ->
  scan_outcome task lines i rest lse r d ->
  Forall2 (emitted_at task lines) (extracted_data d) (windows d).
Proof.
  intros Hrest Hso. revert Hrest.
  induction Hso as [i lse|i line rest lse e d Hl|i line rest lse e d r d' Hl Hs IH];
    intros Hrest.
  - constructor.
  - inversion Hl; subst. constructor.
  - assert (Hline : lines !! i = Some line).
    { pose proof (lookup_drop lines i 0) as H. rewrite <- Hrest in H. simpl in H.
      by rewrite Nat.add_0_r in H. }
    assert (Hrest' : rest = drop (S i) lines).
    { rewrite (drop_S _ _ _ Hline) in Hrest. by inversion Hrest. }
    specialize (IH Hrest').
    inversion Hl as [logs|e'|rec w logs Hm Hp Hem]; subst; simpl; [done|].
    constructor; [|done].
    assert (Hi : w_exec w = i) by apply Hem.
    exists line, lse. rewrite Hi. by split.
Qed.

(** Every tuple of a file was made, with a window, for an EXEC line of the
    lines read from the file. *)
Lemma task_records_emitted task rec :
  rec ∈ task_records fs task ->
  exists lines w,
    readlines fs (file_path task) = Ok lines
    /\ Forall (fun l => line_shaped l = true) lines
    /\ w ∈ windows (run_task fs task empty_state)
    /\ emitted_at task lines rec w.
Proof.
  destruct (process_file_effect fs task) as (r & d & He & Ho).
  unfold task_records. rewrite (run_task_effect fs task r d He). simpl.
  rewrite task_delta_data, task_delta_windows.
  destruct Ho as [e Hr| Hr |lines r' d' Hr Hne Hs]; simpl; [by inversion 1..|].
  intros Hin.
  pose proof (scan_outcome_pairs task lines 0 lines 0 r' d' eq_refl Hs) as Hp.
  apply list_elem_of_lookup in Hin as [k Hk].
  destruct (Forall2_lookup_l _ _ _ _ _ Hp Hk) as (w & Hw & Hem).
  exists lines, w. split; [done|]. split.
  - unfold readlines in Hr. destruct (read fs (file_path task)) as [c|]; [|discriminate].
    injection Hr as <-. apply splitlines_shaped.
  - split; [by eapply list_elem_of_lookup_2|done].
Qed.
End ForwardFacts.

(** ** What every appended tuple satisfies *)

Lemma upper_char_idem c : Py.upper_char (Py.upper_char c) = Py.upper_char c.
Proof. destruct c as [[] [] [] [] [] [] [] []]; vm_compute; reflexivity. Qed.

Lemma upper_idem s : Py.upper (Py.upper s) = Py.upper s.
Proof.
  induction s as [|c s IH]; [done|]. cbn [Py.upper]. by rewrite upper_char_idem, IH.
Qed.

Lemma matched_groupless r pre e : matched r pre e -> groupless r = true -> e = [].
Proof.
  induction 1 as [|p a Hp|r1 r2 p1 p2 e1 e2 H1 IH1 H2 IH2|r1 r2 pre e H IH|r1 r2 pre e H IH
                  |p pre Hp|r|r pre e H IH| |n r pre e H IH];
    cbn [groupless]; intros Hg; try done.
  - apply andb_true_iff in Hg as [Hg1 Hg2]. by rewrite (IH1 Hg1), (IH2 Hg2).
  - apply andb_true_iff in Hg as [Hg1 _]. auto.
  - apply andb_true_iff in Hg as [_ Hg2]. auto.
  - auto.
Qed.

(** The step name bound by the EXEC pattern is what [\S+] captured. *)
Lemma exec_step_solid line c :
  Re.re_match Pat.exec_step line = Some c -> solid (Re.group 1 c).
Proof.
  intros H. apply re_match_sound in H as (pre & H).
  unfold Pat.exec_step, Re.cat in H. cbn [foldr] in H.
  inv_seq H. apply matched_lit in Hm. subst.
  inv_seq Hm0. inversion Hm; subst; clear Hm.
  match goal with H : matched (Re.plus _) _ _ |- _ =>
    apply matched_plus in H as (-> & Hne & Hall) end.
  inv_seq Hm1. apply matched_plus in Hm as (-> & _ & _).
  inv_seq Hm0. apply matched_lit in Hm. subst.
  inv_seq Hm1. apply matched_plus in Hm as (-> & _ & _).
  inv_seq Hm0. apply matched_groupless in Hm; [|reflexivity]. subst.
  inv_seq Hm1. inversion Hm0; subst; clear Hm0.
  inversion Hm; subst; clear Hm.
  match goal with H : matched (Re.Alt _ _) _ _ |- _ =>
    apply matched_groupless in H; [|reflexivity] end.
  subst. simpl. by split.
Qed.

(** The member bound by the DSN pattern is not empty. *)
Lemma dsn_member_nonempty l c :
  Re.re_search Pat.dsn_member l = Some c -> Re.group 1 c <> EmptyString.
Proof.
  intros H. apply re_search_sound in H as (pre & H).
  unfold Pat.dsn_member, Re.cat in H. cbn [foldr] in H.
  inv_seq H. apply matched_groupless in Hm; [|reflexivity]. subst.
  inv_seq Hm0. apply matched_plus in Hm as (-> & _ & _).
  inv_seq Hm1. apply matched_groupless in Hm; [|reflexivity]. subst.
  inv_seq Hm0. inversion Hm; subst; clear Hm.
  match goal with H : matched (Re.plus _) _ _ |- _ =>
    apply matched_plus in H as (-> & Hne & Hall) end.
  inv_seq Hm1. apply matched_groupless in Hm; [|reflexivity]. subst.
  inversion Hm0; subst. simpl. done.
Qed.

(** [strip] leaves in place a prefix without white space. *)
Lemma rstrip_prefix p : forall l,
  all_chars Re.nsp p = true -> Py.startswith p l = true ->
  Py.startswith p (Py.rstrip l) = true.
Proof.
  induction p as [|a p IH]; intros l Hp Hl; [done|].
  destruct l as [|x l]; [discriminate|].
  cbn [all_chars] in Hp. apply andb_true_iff in Hp as [Ha Hp].
  cbn [Py.startswith] in Hl. apply andb_true_iff in Hl as [Hx Hl].
  apply ascii_eqb_eq in Hx. subst x.
  rewrite rstrip_cons by (by apply negb_true_iff in Ha).
  cbn [Py.startswith]. rewrite (IH _ Hp Hl).
  unfold Py.ascii_eqb. by rewrite Ascii.eqb_refl.
Qed.

Lemma lstrip_prefix p l :
  all_chars Re.nsp p = true -> Py.startswith p l = true ->
  Py.startswith p (Py.lstrip l) = true.
Proof.
  destruct p as [|a p]; [done|]. intros Hp Hl.
  destruct l as [|x l]; [discriminate|].
  cbn [all_chars] in Hp. apply andb_true_iff in Hp as [Ha _].
  pose proof Hl as Hl'. cbn [Py.startswith] in Hl'. apply andb_true_iff in Hl' as [Hx _].
  apply ascii_eqb_eq in Hx. subst x.
  cbn [Py.lstrip]. apply negb_true_iff in Ha. unfold Re.nsp in Ha. by rewrite Ha.
Qed.

Lemma strip_prefix p l :
  all_chars Re.nsp p = true -> Py.startswith p l = true ->
  Py.startswith p (Py.strip l) = true.
Proof. intros Hp Hl. unfold Py.strip. by apply lstrip_prefix, rstrip_prefix. Qed.

Section ExtractorValues.
Variable fs : FS.

Lemma extract_control_card_nonempty cntllib member :
  exists s logs,
    effect (extract_control_card fs cntllib member) (Ok s) (mkState [] logs [])
    /\ s <> EmptyString.
Proof.
  unfold extract_control_card.
  destruct (Py.is_empty cntllib || Py.is_empty member).
  { exists no_cntllib_msg, []. split; [apply effect_ret|done]. }
  destruct (negb (path_exists fs _)).
  { exists (not_found_msg member), []. split; [apply effect_ret|done]. }
  destruct (read fs _) as [content|e].
  - eexists _, []. split; [apply effect_ret|].
    destruct (negb (Py.is_empty (Py.strip content))) eqn:Hb; [|done].
    intros ->. discriminate.
  - exists (read_error_msg e),
      ["Error reading control card " +:+ member +:+ ": " +:+ e]. split.
    + eapply effect_bind_eq; [apply effect_log|apply effect_ret|ext_eq].
    + unfold read_error_msg. intros H. discriminate H.
Qed.

Lemma detect_sysin_facts cntllib block :
  Forall (fun l => Py.startswith "//" l = true) block ->
  exists ty stmt member content logs,
    effect (detect_sysin fs cntllib block) (Ok (ty, stmt, member, content))
           (mkState [] logs [])
    /\ sysin_fields_ok ty stmt member content
    /\ ((member = EmptyString /\ content = EmptyString)
        \/ (member <> EmptyString /\ ty = "Control Card"
            /\ forall st, (extract_control_card fs cntllib member st).1 = Ok content)).
Proof.
  induction block as [|l block IH]; intros Hb; cbn [detect_sysin].
  { eexists _, _, _, _, []. split; [apply effect_ret|]. split; [|by left]. left. done. }
  apply Forall_cons in Hb as [Hl Hb].
  destruct (found Pat.sysin_inline l).
  { eexists _, _, _, _, []. split; [apply effect_ret|]. split; [|by left].
    right; left. split; [done|]. split; [by apply strip_slashes|done]. }
  destruct (found Pat.sysin_dsn l); [|by apply IH].
  destruct (Re.re_search Pat.dsn_member l) as [c|] eqn:Hc.
  - destruct (extract_control_card_nonempty cntllib (Re.group 1 c)) as (s & logs & Hs & Hne).
    eexists _, _, _, _, logs. split.
    + eapply effect_bind_eq; [exact Hs|apply effect_ret|ext_eq].
    + split.
      * right; right. split; [done|]. split; [by apply strip_slashes|].
        right. split; [by eapply dsn_member_nonempty|done].
      * right. split; [by eapply dsn_member_nonempty|]. split; [done|].
        intros st. by rewrite (Hs st).
  - eexists _, _, _, _, []. split; [apply effect_ret|]. split; [|by left].
    right; right. split; [done|]. split; [by apply strip_slashes|]. by left.
Qed.

Lemma comment_lines_ok lines lse n :
  Forall (fun l => line_shaped l = true) lines ->
  let text := Py.join Py.nl (comment_lines lines (backward lines lse n [])) in
  text = EmptyString
  \/ Forall (fun l => Py.startswith "//*" l = true) (Py.split_lines text).
Proof.
  intros Hsh text. subst text.
  destruct (backward lines lse n []) as [|j idx] eqn:Hb; [by left|right].
  assert (Hin : forall k, k ∈ j :: idx -> Py.startswith "//*" (line_at lines k) = true).
  { intros k Hk. rewrite <- Hb in Hk.
    apply backward_comments in Hk as [Hk|Hk]; [inversion Hk|done]. }
  unfold comment_lines.
  change (map (fun j0 => Py.strip (line_at lines j0)) (j :: idx))
    with (Py.strip (line_at lines j) :: map (fun j0 => Py.strip (line_at lines j0)) idx).
  rewrite split_lines_join.
  - change (Py.strip (line_at lines j) :: map (fun j0 => Py.strip (line_at lines j0)) idx)
      with (map (fun j0 => Py.strip (line_at lines j0)) (j :: idx)).
    apply Forall_forall. intros l Hl.
    apply list_elem_of_fmap in Hl as (k & -> & Hk).
    apply strip_prefix; [reflexivity|by apply Hin].
  - change (Py.strip (line_at lines j) :: map (fun j0 => Py.strip (line_at lines j0)) idx)
      with (map (fun j0 => Py.strip (line_at lines j0)) (j :: idx)).
    apply Forall_forall. intros l Hl.
    apply list_elem_of_fmap in Hl as (k & -> & Hk).
    by apply strip_no_newline, line_at_shaped.
Qed.

Lemma capture_facts task lines i line lse step program :
  Forall (fun l => line_shaped l = true) lines ->
  matches Pat.exec_step line = true ->
  exists rec w logs e,
    effect (capture fs task lines i line lse step program) (Ok e) (mkState [rec] logs [w])
    /\ step_name rec = step
    /\ program_name rec = program
    /\ file_type rec = task_file_type task
    /\ sysin_consistent rec
    /\ comments_ok rec
    /\ card_reported fs (cntllib_path task) rec.
Proof.
  intros Hsh Hm. unfold capture.
  destruct (forward (drop (S i) lines) (S i)) as [block_idx j] eqn:Hfwd.
  assert (Hblock : Forall (fun l => Py.startswith "//" l = true)
                     (block_lines lines line block_idx)).
  { destruct (forward_spec lines _ (S i) _ _ eq_refl Hfwd) as [_ Hin].
    unfold block_lines. apply Forall_cons. split.
    - apply strip_slashes, matches_exec_step_slashes, Hm.
    - apply Forall_forall. intros l Hl. apply list_elem_of_fmap in Hl as (k & -> & Hk).
      apply strip_slashes. by apply Hin. }
  destruct (detect_sysin_facts (cntllib_path task) _ Hblock)
    as (ty & stmt & member & content & logs & Hd & Hok & Hcard).
  eexists _, (mkWindow i lse (backward lines lse (i - lse) []) block_idx j), logs, j.
  split.
  - eapply effect_bind_eq; [exact Hd| |].
    + simpl. eapply effect_bind_eq; [apply effect_append|apply effect_ret|reflexivity].
    + ext_eq.
  - repeat (split; [reflexivity|]). split; [exact Hok|].
    split; [apply comment_lines_ok, Hsh|exact Hcard].
Qed.

(** One line appends nothing or one tuple with the facts. *)
Lemma member_check_facts task lines i line lse step program :
  Forall (fun l => line_shaped l = true) lines ->
  matches Pat.exec_step line = true ->
  solid step ->
  Py.upper program = program ->
  exists r d,
    effect (member_check fs task lines i line lse step program) r d
    /\ Forall (step_facts fs task) (extracted_data d).
Proof.
  intros Hsh Hm Hstep Hprog. unfold member_check. case_bool_decide.
  - destruct (capture_facts task lines i line lse step program Hsh Hm)
      as (rec & w & logs & e & He & Hs & Hp & Hf & Hsy & Hc & Hcard).
    eexists _, _. split; [exact He|]. simpl.
    apply Forall_cons. split; [|constructor].
    split; [exact Hf|]. split; [by rewrite Hp|]. split; [by rewrite Hs|].
    split; [exact Hsy|]. by split.
  - eexists _, _. split; [apply effect_ret|]. constructor.
Qed.

Lemma scan_line_facts task lines i line lse :
  Forall (fun l => line_shaped l = true) lines ->
  exists r d,
    effect (scan_line fs task lines i line lse) r d
    /\ Forall (step_facts fs task) (extracted_data d).
Proof.
  intros Hsh. unfold scan_line.
  destruct (matches Pat.comment_exec line).
  { eexists _, _. split; [apply effect_ret|constructor]. }
  destruct (Re.re_match Pat.exec_step line) as [c|] eqn:Hm.
  2:{ eexists _, _. split; [apply effect_ret|constructor]. }
  assert (Hmt : matches Pat.exec_step line = true) by (unfold matches; by rewrite Hm).
  pose proof (exec_step_solid _ _ Hm) as Hsolid.
  destruct (Py.startswith "&" (Py.upper (Re.group 2 c))).
  2:{ apply member_check_facts; try done. apply upper_idem. }
  destruct (resolve_symbolic_parameter fs _ lines _ _) as [[v|]|e] eqn:Hres.
  - destruct (negb (Py.is_empty v)) eqn:Hv.
    + destruct (member_check_facts task lines i line lse (Re.group 1 c) (Py.upper v)
                  Hsh Hmt Hsolid (upper_idem v)) as (r & d & He & Hall).
      exists r, d. split; [|exact Hall]. apply effect_lift_ok. by rewrite Hv.
    + eexists _, _. split.
      * apply effect_lift_ok. rewrite Hv.
        eapply effect_bind_eq; [apply effect_log|apply effect_ret|ext_eq].
      * constructor.
  - eexists _, _. split.
    + apply effect_lift_ok.
      eapply effect_bind_eq; [apply effect_log|apply effect_ret|ext_eq].
    + constructor.
  - exists (Raise e), empty_state. split; [apply effect_lift_raise|constructor].
Qed.

Lemma scan_lines_facts task lines rest :
  Forall (fun l => line_shaped l = true) lines ->
  forall i lse,
  exists r d,
    effect (scan_lines fs task lines i rest lse) r d
    /\ Forall (step_facts fs task) (extracted_data d).
Proof.
  intros Hsh. induction rest as [|line rest IH]; intros i lse; cbn [scan_lines].
  { eexists _, _. split; [apply effect_ret|constructor]. }
  destruct (scan_line_facts task lines i line lse Hsh) as (r & d & He & Hall).
  destruct r as [e|msg].
  - destruct (IH (S i) e) as (r' & d' & He' & Hall').
    exists r', (extend d d'). split; [by eapply effect_bind|].
    simpl. by apply Forall_app.
  - exists (Raise msg), d. split; [by apply effect_bind_raise|done].
Qed.

Lemma task_records_facts task : Forall (step_facts fs task) (task_records fs task).
Proof.
  assert (H : exists r d, effect (process_file fs task) r d
                          /\ Forall (step_facts fs task) (extracted_data d)).
  { unfold process_file.
    destruct (readlines fs (file_path task)) as [lines|e] eqn:Hr.
    - assert (Hsh : Forall (fun l => line_shaped l = true) lines).
      { unfold readlines in Hr. destruct (read fs (file_path task)) as [c|]; [|discriminate].
        injection Hr as <-. apply splitlines_shaped. }
      destruct lines as [|l lines].
      + eexists _, _. split; [apply effect_lift_ok, effect_log|constructor].
      + destruct (scan_lines_facts task (l :: lines) (l :: lines) Hsh 0 0)
          as (r & d & He & Hall).
        exists r, d. split; [by apply effect_lift_ok|done].
    - eexists _, _. split; [apply effect_lift_raise|constructor]. }
  destruct H as (r & d & He & Hall).
  unfold task_records. rewrite (run_task_effect fs task r d He). simpl.
  by rewrite task_delta_data.
Qed.

Lemma worker_facts queue rec :
  rec ∈ extracted_data (extract_steps_from_file fs queue empty_state) ->
  exists task, task ∈ queue /\ step_facts fs task rec.
Proof.
  rewrite worker_data. simpl. intros Hin.
  apply elem_of_concat in Hin as (recs & Hrec & Hrecs).
  apply list_elem_of_fmap in Hrecs as (task & -> & Htask).
  exists task. split; [done|].
  pose proof (task_records_facts task) as Hok.
  rewrite Forall_forall in Hok. by apply Hok.
Qed.
End ExtractorValues.


(** ** The worker loop and its failures *)

(** C4, at a concrete input: the first step of the file is appended, then
    the resolution of the second step's symbol raises (the CNTLLIB member
    exists and cannot be read).  The exception is caught and logged, and
    the tuple of the first step stays in [extracted_data]. *)
Lemma C4_counterexample :
  (process_file Samples.fs_partial Samples.task_partial empty_state).1
  = Raise "Permission denied"
  /\ log (run_task Samples.fs_partial Samples.task_partial empty_state)
     = ["Error reading /jcl/a.jcl: Permission denied"]
  /\ (file_name <$> extracted_data (run_task Samples.fs_partial Samples.task_partial empty_state))
     = ["a.jcl"]
  /\ (step_name <$> extracted_data (run_task Samples.fs_partial Samples.task_partial empty_state))
     = ["S1"].
Proof. repeat split; vm_compute; reflexivity. Qed.

(** C4, amended. When the processing of a file raises, the worker logs the
    error and goes on with the next task; the state it goes on with holds
    what the file had appended before the exception and nothing more; the
    tuples that were in [extracted_data] before the file are still there, in
    place, and those the file added are its own; and when the exception
    comes from opening or reading the file itself, nothing of the file is
    in [extracted_data]. *)
Theorem C4_failure_is_contained :
  forall (fs : FS) (task : ScanTask) (queue : list ScanTask) (st st' : state) (e : string),
    process_file fs task st = (Raise e, st') ->
    run_task fs task st
      = mkState (extracted_data st') (log st' ++ [error_reading task e]) (windows st')
    /\ extract_steps_from_file fs (task :: queue) st
       = extract_steps_from_file fs queue (run_task fs task st)
    /\ (exists recs, extracted_data st' = extracted_data st ++ recs
          /\ Forall (fun rec => file_name rec = Py.basename (file_path task)) recs)
    /\ (is_raise (readlines fs (file_path task)) = true ->
        extracted_data st' = extracted_data st).
Proof.
  intros fs task queue st st' e Hp.
  split; [|split; [|split]].
  - unfold run_task. by rewrite Hp.
  - reflexivity.
  - destruct (process_file_effect fs task) as (r & d & He & Ho).
    rewrite He in Hp. injection Hp as -> <-.
    exists (extracted_data d). split; [done|].
    apply file_outcome_facts in Ho as (Hok & _).
    eapply Forall_impl; [exact Hok|]. by intros rec (_ & ? & _).
  - intros Hr. unfold process_file in Hp.
    destruct (readlines fs (file_path task)) as [ls|e']; [discriminate|].
    unfold bindM, liftM in Hp. by injection Hp as _ <-.
Qed.

(** The sample of the counterexample: the state at the exception holds the
    tuple of the first step, and the worker goes on from it. *)
Lemma C4_witness :
  let st1 := (process_file Samples.fs_partial Samples.task_partial empty_state).2 in
  process_file Samples.fs_partial Samples.task_partial empty_state
  = (Raise "Permission denied", st1)
  /\ (run_task Samples.fs_partial Samples.task_partial empty_state
      = mkState (extracted_data st1)
          (log st1 ++ [error_reading Samples.task_partial "Permission denied"])
          (windows st1)
      /\ extract_steps_from_file Samples.fs_partial
           [Samples.task_partial; Samples.task_overlap] empty_state
         = extract_steps_from_file Samples.fs_partial [Samples.task_overlap]
             (run_task Samples.fs_partial Samples.task_partial empty_state)
      /\ (exists recs, extracted_data st1 = extracted_data empty_state ++ recs
            /\ Forall (fun rec => file_name rec
                                  = Py.basename (file_path Samples.task_partial)) recs)
      /\ (is_raise (readlines Samples.fs_partial (file_path Samples.task_partial)) = true ->
          extracted_data st1 = extracted_data empty_state)).
Proof.
  intros st1.
  assert (H : process_file Samples.fs_partial Samples.task_partial empty_state
              = (Raise "Permission denied", st1)) by (vm_compute; reflexivity).
  split; [exact H|].
  exact (C4_failure_is_contained Samples.fs_partial Samples.task_partial
           [Samples.task_overlap] empty_state st1 "Permission denied" H).
Defined.

(** ** The membership filter *)

Section Filter.
Variable fs : FS.

Lemma member_check_skips task lines i line lse step program st :
  program ∉ utilities task ->
  member_check fs task lines i line lse step program st = (Ok lse, st).
Proof. intros H. unfold member_check. by rewrite bool_decide_eq_false_2. Qed.

Lemma worker_records_from queue rec :
  rec ∈ extracted_data (extract_steps_from_file fs queue empty_state) ->
  exists task, task ∈ queue /\ step_ok task rec.
Proof.
  rewrite worker_data. simpl. intros Hin.
  apply elem_of_concat in Hin as (recs & Hrec & Hrecs).
  apply list_elem_of_fmap in Hrecs as (task & -> & Htask).
  exists task. split; [done|].
  pose proof (task_records_ok fs task) as Hok.
  rewrite Forall_forall in Hok. by apply Hok.
Qed.
End Filter.

(** C5. Every tuple in [extracted_data] after the worker loop has run on a
    queue comes from a task of the queue and has its program name in that
    task's utility set.  And an EXEC line appends nothing when its literal
    program name (uppercased) is not in the set, when its symbol resolves to
    nothing (or to the empty string), or when the resolved name (uppercased)
    is not in the set. *)
Theorem C5_only_utilities_are_emitted :
  (forall (fs : FS) (queue : list ScanTask) (rec : ExtractedStep),
     rec ∈ extracted_data (extract_steps_from_file fs queue empty_state) ->
     exists task, task ∈ queue
       /\ file_name rec = Py.basename (file_path task)
       /\ program_name rec ∈ utilities task)
  /\ (forall (fs : FS) (task : ScanTask) (lines : list string) (i : nat) (line : string)
             (lse : nat) (c : Re.caps) (st : state),
        matches Pat.comment_exec line = false ->
        Re.re_match Pat.exec_step line = Some c ->
        let program := Py.upper (Re.group 2 c) in
        (Py.startswith "&" program = false ->
         program ∉ utilities task ->
         extracted_data (scan_line fs task lines i line lse st).2 = extracted_data st)
        /\ (forall r,
              Py.startswith "&" program = true ->
              resolve_symbolic_parameter fs (Py.tail program) lines
                (proc_libraries task) (cntllib_path task) = Ok r ->
              match r with
              | None => True
              | Some v => v = EmptyString \/ Py.upper v ∉ utilities task
              end ->
              extracted_data (scan_line fs task lines i line lse st).2 = extracted_data st)).
Proof.
  split.
  - intros fs queue rec Hin.
    destruct (worker_records_from fs queue rec Hin) as (task & Ht & Hp & Hf & _).
    by exists task.
  - intros fs task lines i line lse c st Hc Hm program. split.
    + intros Hs Hn. unfold scan_line. rewrite Hc, Hm. fold program. rewrite Hs.
      by rewrite member_check_skips.
    + intros r Hs Hr Hcase. unfold scan_line. rewrite Hc, Hm. fold program. rewrite Hs.
      unfold bindM at 1. unfold liftM. rewrite Hr.
      destruct r as [v|]; [|reflexivity].
      destruct Hcase as [->|Hn]; [reflexivity|].
      destruct (negb (Py.is_empty v)); [|reflexivity].
      by rewrite member_check_skips.
Qed.

Lemma C5_witness :
  (forall rec,
     rec ∈ extracted_data
             (extract_steps_from_file Samples.fs_overlap [Samples.task_overlap] empty_state) ->
     exists task, task ∈ [Samples.task_overlap]
       /\ file_name rec = Py.basename (file_path task)
       /\ program_name rec ∈ utilities task)
  /\ extracted_data
       (scan_line Samples.fs_none Samples.task_other [Samples.L "//S1 EXEC PGM=SORT"] 0
          (Samples.L "//S1 EXEC PGM=SORT") 0 empty_state).2 = []
  /\ extracted_data
       (scan_line Samples.fs_none Samples.task_other [Samples.L "//S1 EXEC &UNDEFINEDPARM"] 0
          (Samples.L "//S1 EXEC &UNDEFINEDPARM") 0 empty_state).2 = [].
Proof.
  destruct C5_only_utilities_are_emitted as [H1 H2].
  split; [exact (H1 Samples.fs_overlap [Samples.task_overlap])|].
  split.
  - refine (proj1 (H2 Samples.fs_none Samples.task_other [Samples.L "//S1 EXEC PGM=SORT"] 0
                     (Samples.L "//S1 EXEC PGM=SORT") 0 [(2, "SORT"); (1, "S1")] empty_state
                     _ _) _ _).
    + vm_compute; reflexivity.
    + vm_compute; reflexivity.
    + vm_compute; reflexivity.
    + intros Hin. apply (bool_decide_pack _) in Hin. vm_compute in Hin. exact Hin.
  - refine (proj2 (H2 Samples.fs_none Samples.task_other
                     [Samples.L "//S1 EXEC &UNDEFINEDPARM"] 0
                     (Samples.L "//S1 EXEC &UNDEFINEDPARM") 0
                     [(2, "&UNDEFINEDPARM"); (1, "S1")] empty_state _ _) None _ _ I).
    + vm_compute; reflexivity.
    + vm_compute; reflexivity.
    + vm_compute; reflexivity.
    + vm_compute; reflexivity.
Defined.

(** ** Control cards *)

(** C6, at two concrete inputs.  With an empty member name the guard at the
    head of [extract_control_card] answers before the file system is
    looked at: the file [/cntl/.incl] exists and has text, and the text is
    not returned.  And a member that exists but cannot be read gives the
    read-error string, which is neither of the two sentinels of the claim
    nor a content. *)
Lemma C6_counterexample :
  (Py.path_join "/cntl" (EmptyString +:+ ".incl") = "/cntl/.incl"
   /\ read Samples.fs_cards "/cntl/.incl" = Ok "DELETE A.B"
   /\ (extract_control_card Samples.fs_cards "/cntl" EmptyString empty_state).1
      = Ok "[No CNTLLIB path or member specified]"
   /\ (extract_control_card Samples.fs_cards "/cntl" EmptyString empty_state).1
      <> Ok "DELETE A.B")
  /\ (path_exists Samples.fs_cards (Py.path_join "/cntl" ("LOCKED" +:+ ".incl")) = true
      /\ (extract_control_card Samples.fs_cards "/cntl" "LOCKED" empty_state).1
         = Ok "[Error reading control card: Permission denied]").
Proof.
  split; [split; [|split; [|split]]|split]; try (vm_compute; reflexivity).
  vm_compute. discriminate.
Qed.

(** C6, amended. [extract_control_card] never raises and appends no tuple.
    When the CNTLLIB path or the member name is empty it returns the
    no-path-or-member string without looking at the file system.
    Otherwise: the not-found string when [<cntllib>/<member>.incl] does not
    exist, the empty-file string when it reads as blank text, its text when
    that is not blank, and the read-error string when reading it raises.
    One message is logged in the last case, which names the member and the
    error, and none in the others.  And what is returned is what the tuple
    reports: a tuple in [extracted_data] has no control card member and no
    content, or it is of a control-card SYSIN and its content is what
    [extract_control_card] returns for its member and the CNTLLIB path of
    its task. *)
Theorem C6_control_card_outcomes :
  (forall (fs : FS) (cntllib member : string) (st : state),
   exists (s : string) (logs : list string),
     extract_control_card fs cntllib member st
     = (Ok s, mkState (extracted_data st) (log st ++ logs) (windows st))
     /\ (Py.is_empty cntllib || Py.is_empty member = true ->
         s = no_cntllib_msg /\ logs = [])
     /\ (Py.is_empty cntllib || Py.is_empty member = false ->
         match fs_node fs (Py.path_join cntllib (member +:+ ".incl")) with
         | None => s = not_found_msg member /\ logs = []
         | Some (Text content) =>
             s = (if Py.is_empty (Py.strip content) then empty_card_msg else content)
             /\ logs = []
         | Some (Broken _ e) =>
             s = read_error_msg e
             /\ logs = ["Error reading control card " +:+ member +:+ ": " +:+ e]
         end))
  /\ (forall (fs : FS) (queue : list ScanTask) (rec : ExtractedStep),
        rec ∈ extracted_data (extract_steps_from_file fs queue empty_state) ->
        exists task,
          task ∈ queue
          /\ ((control_card_member rec = EmptyString
               /\ control_card_content rec = EmptyString)
              \/ (control_card_member rec <> EmptyString
                  /\ sysin_type rec = "Control Card"
                  /\ forall st,
                       (extract_control_card fs (cntllib_path task)
                          (control_card_member rec) st).1
                       = Ok (control_card_content rec)))).
Proof.
  split.
  - intros fs cntllib member st. unfold extract_control_card, path_exists, read.
    destruct (Py.is_empty cntllib || Py.is_empty member).
    { exists no_cntllib_msg, []. unfold retM. rewrite app_nil_r. destruct st.
      split; [done|]. split; [done|discriminate]. }
    destruct (fs_node fs _) as [[content|pre e]|]; simpl.
    + eexists _, []. unfold retM. rewrite app_nil_r. destruct st.
      split; [reflexivity|]. split; [discriminate|]. intros _.
      split; [|done]. by destruct (Py.is_empty (Py.strip content)).
    + eexists _, [_]. unfold bindM, log_error, retM. simpl.
      split; [reflexivity|]. split; [discriminate|done].
    + eexists _, []. unfold retM. rewrite app_nil_r. destruct st.
      split; [reflexivity|]. split; [discriminate|done].
  - intros fs queue rec Hin.
    destruct (worker_facts fs queue rec Hin) as (task & Htask & _ & _ & _ & _ & _ & Hcard).
    by exists task.
Qed.

(** A member that cannot be read: the read-error string is returned and
    the error is logged.  And a job whose SYSIN names the member MEMBER,
    which is not in CNTLLIB: the tuple reports the not-found string. *)
Lemma C6_witness :
  (exists (s : string) (logs : list string),
     extract_control_card Samples.fs_cards "/cntl" "LOCKED" empty_state
     = (Ok s, mkState [] ([] ++ logs) [])
     /\ (false = true -> s = no_cntllib_msg /\ logs = [])
     /\ (false = false ->
         s = "[Error reading control card: Permission denied]"
         /\ logs = ["Error reading control card LOCKED: Permission denied"]))
  /\ (exists task,
        task ∈ [CardSamples.task_card]
        /\ (("MEMBER" = EmptyString
             /\ "[Control card 'MEMBER' not found in CNTLLIB]" = EmptyString)
            \/ ("MEMBER" <> EmptyString
                /\ "Control Card" = "Control Card"
                /\ forall st,
                     (extract_control_card CardSamples.fs_card (cntllib_path task)
                        "MEMBER" st).1
                     = Ok "[Control card 'MEMBER' not found in CNTLLIB]"))).
Proof.
  split.
  - exact (proj1 C6_control_card_outcomes Samples.fs_cards "/cntl" "LOCKED" empty_state).
  - refine (proj2 C6_control_card_outcomes CardSamples.fs_card [CardSamples.task_card]
              CardSamples.step_card _).
    assert (H : extracted_data
                  (extract_steps_from_file CardSamples.fs_card [CardSamples.task_card]
                     empty_state)
                = [CardSamples.step_card]) by (vm_compute; reflexivity).
    rewrite H. left.
Defined.

(** ** The number of threads *)

(** C7, at a concrete input: the configuration asks for -1 threads and
    three files are queued.  The minimum of the two is -1; no thread is
    started. *)
Lemma C7_counterexample :
  num_threads (Samples.config_threads (Some (-1)%Z)) = (-1)%Z
  /\ started_threads (Samples.config_threads (Some (-1)%Z)) Samples.queue3 = []
  /\ Z.of_nat (length (started_threads (Samples.config_threads (Some (-1)%Z)) Samples.queue3))
     <> Z.min (num_threads (Samples.config_threads (Some (-1)%Z)))
              (Z.of_nat (length Samples.queue3)).
Proof.
  split; [vm_compute; reflexivity|]. split; [vm_compute; reflexivity|].
  vm_compute. discriminate.
Qed.

Lemma length_py_range n : Z.of_nat (length (py_range n)) = Z.max 0 n.
Proof. unfold py_range. rewrite length_seq. lia. Qed.

(** C7, amended. The coordinator starts max(0, min(configured thread
    count, queue length)) threads, which is the minimum itself when the
    configured count is not negative, and never more than there are queued
    files; the configured count is the entry [threads] of [performance],
    and 4 when the entry or [performance] is absent. *)
Theorem C7_threads_started :
  forall (config : Config) (queue : list ScanTask),
    Z.of_nat (length (started_threads config queue))
    = Z.max 0 (Z.min (num_threads config) (Z.of_nat (length queue)))
    /\ length (started_threads config queue) <= length queue
    /\ num_threads config
       = match performance config with
         | Some p => match p !! "threads" with Some n => n | None => 4%Z end
         | None => 4%Z
         end.
Proof.
  intros config queue. unfold started_threads.
  pose proof (length_py_range (Z.min (num_threads config) (Z.of_nat (length queue)))) as H.
  split; [exact H|]. split; [lia|].
  unfold num_threads. destruct (performance config) as [p|]; simpl; [done|].
  by rewrite lookup_empty.
Qed.

(** ** Windows of successive steps *)

(** C8, at a concrete input: the second EXEC statement has no PGM= and
    stands among the DD statements of the first step.  Two steps are
    emitted one after the other; the forward scan of the first runs to the
    end of the file, so the EXEC line of the second step (index 2) and its
    DD statement (index 3) are captured in both step blocks. *)
Lemma C8_counterexample :
  exists w1 w2,
    windows (run_task Samples.fs_overlap Samples.task_overlap empty_state) = [w1; w2]
    /\ w_block w1 = [1; 2; 3] /\ w_exec w2 = 2 /\ w_block w2 = [3]
    /\ 3 ∈ captured w1 /\ 3 ∈ captured w2
    /\ (step_block_text <$>
          extracted_data (run_task Samples.fs_overlap Samples.task_overlap empty_state))
       = [Py.join Py.nl ["//S1 EXEC PGM=IDCAMS"; "//DD1 DD DSN=A"; "//S2 EXEC IEBGENER";
                         "//DD2 DD DSN=B"];
          Py.join Py.nl ["//S2 EXEC IEBGENER"; "//DD2 DD DSN=B"]].
Proof.
  eexists _, _. split; [vm_compute; reflexivity|].
  repeat split; try (vm_compute; reflexivity).
  - unfold captured. simpl. set_solver.
  - unfold captured. simpl. set_solver.
Qed.

Lemma chain_adjacent ws : forall lse k w1 w2,
  chain lse ws -> ws !! k = Some w1 -> ws !! S k = Some w2 ->
  window_ok w1 /\ window_ok w2 /\ w_from w2 = w_end w1.
Proof.
  induction ws as [|w ws IH]; intros lse k w1 w2 Hc H1 H2; [done|].
  destruct Hc as (Hf & Hok & Hc).
  destruct k as [|k]; simpl in H1, H2.
  - injection H1 as <-. destruct ws as [|w' ws]; [done|].
    injection H2 as <-. destruct Hc as (Hf' & Hok' & _). done.
  - by eapply IH.
Qed.

(** C8, amended. For two steps emitted one after the other from a file,
    the backward scan of the later step stops at the boundary the earlier
    step left ([last_step_end]) and does not go below it: every line it
    puts in the later step's comments lies at or after that boundary,
    while every line captured for the earlier step (comments, EXEC line,
    block) lies before it.  So no line of the later step's comments was
    captured for the earlier step. *)
Theorem C8_comment_scan_respects_boundary :
  forall (fs : FS) (task : ScanTask) (k : nat) (w1 w2 : window),
    windows (run_task fs task empty_state) !! k = Some w1 ->
    windows (run_task fs task empty_state) !! S k = Some w2 ->
    w_from w2 = w_end w1
    /\ (forall j, j ∈ w_comments w2 -> w_end w1 <= j)
    /\ (forall j, j ∈ captured w1 -> j < w_end w1)
    /\ (forall j, j ∈ w_comments w2 -> j ∉ captured w1).
Proof.
  intros fs task k w1 w2 H1 H2.
  destruct (chain_adjacent _ _ _ _ _ (task_windows_chain fs task) H1 H2)
    as ((Hc1 & Hb1 & He1) & (Hc2 & _ & _) & Hfrom).
  assert (Hlate : forall j, j ∈ w_comments w2 -> w_end w1 <= j).
  { intros j Hj. apply Hc2 in Hj. lia. }
  assert (Hearly : forall j, j ∈ captured w1 -> j < w_end w1).
  { intros j Hj. unfold captured in Hj.
    apply elem_of_app in Hj as [Hj|Hj]; [apply Hc1 in Hj; lia|].
    apply elem_of_cons in Hj as [->|Hj]; [lia|]. apply Hb1 in Hj. lia. }
  split; [done|]. split; [done|]. split; [done|].
  intros j Hj Hj'. apply Hlate in Hj. apply Hearly in Hj'. lia.
Qed.

Lemma C8_witness :
  let w1 := mkWindow 1 0 [0] [2] 3 in
  let w2 := mkWindow 5 3 [4] [6] 7 in
  windows (run_task Samples.fs_two_steps Samples.task_two_steps empty_state) !! 0 = Some w1
  /\ windows (run_task Samples.fs_two_steps Samples.task_two_steps empty_state) !! 1 = Some w2
  /\ (w_from w2 = w_end w1
      /\ (forall j, j ∈ w_comments w2 -> w_end w1 <= j)
      /\ (forall j, j ∈ captured w1 -> j < w_end w1)
      /\ (forall j, j ∈ w_comments w2 -> j ∉ captured w1)).
Proof.
  intros w1 w2.
  assert (H1 : windows (run_task Samples.fs_two_steps Samples.task_two_steps empty_state) !! 0
               = Some w1) by (vm_compute; reflexivity).
  assert (H2 : windows (run_task Samples.fs_two_steps Samples.task_two_steps empty_state) !! 1
               = Some w2) by (vm_compute; reflexivity).
  split; [exact H1|]. split; [exact H2|].
  exact (C8_comment_scan_respects_boundary Samples.fs_two_steps Samples.task_two_steps
           0 w1 w2 H1 H2).
Defined.

(** ** Step blocks *)

(** C10. For every tuple in [extracted_data], every line of its step
    block text starts with two slashes.  The tuple was made for an EXEC
    line of a queued file: the lines of its step block are that line,
    stripped, and then, stripped and in their order, exactly those lines
    starting with two slashes that lie between the EXEC line and the place
    where the forward scan stopped, which is the end of the file or the
    first line after the EXEC line that is blank or matches the EXEC PGM=
    pattern.  So a line in between that is not blank and does not start
    with two slashes (inline SYSIN data) is not in the block and does not
    end the scan, and the lines with two slashes behind it are in the
    block: the scan of the lines from such a line on is the scan of the
    lines behind it. *)
Theorem C10_step_block_lines_start_with_slashes :
  (forall (fs : FS) (queue : list ScanTask) (rec : ExtractedStep),
     rec ∈ extracted_data (extract_steps_from_file fs queue empty_state) ->
     Forall (fun l => Py.startswith "//" l = true) (Py.split_lines (step_block_text rec))
     /\ exists task lines w line,
          task ∈ queue
          /\ readlines fs (file_path task) = Ok lines
          /\ w ∈ windows (run_task fs task empty_state)
          /\ lines !! w_exec w = Some line
          /\ matches Pat.exec_step line = true
          /\ Py.split_lines (step_block_text rec)
             = Py.strip line :: map (fun j => Py.strip (line_at lines j)) (w_block w)
          /\ w_exec w < w_end w <= length lines
          /\ (forall j, w_exec w < j < w_end w ->
                blank (line_at lines j) = false
                /\ matches Pat.exec_pgm (line_at lines j) = false
                /\ (j ∈ w_block w <-> Py.startswith "//" (line_at lines j) = true))
          /\ (w_end w = length lines
              \/ blank (line_at lines (w_end w)) = true
              \/ matches Pat.exec_pgm (line_at lines (w_end w)) = true)
          /\ w_block w
             = List.filter (fun j => Py.startswith "//" (line_at lines j))
                           (seq (S (w_exec w)) (w_end w - S (w_exec w))))
  /\ (forall (l : string) (rest : list string) (j : nat),
        blank l = false ->
        Py.startswith "//" l = false ->
        forward (l :: rest) j = forward rest (S j)).
Proof.
  split.
  - intros fs queue rec Hin.
    rewrite worker_data in Hin. simpl in Hin.
    apply elem_of_concat in Hin as (recs & Hrec & Hrecs).
    apply list_elem_of_fmap in Hrecs as (task & -> & Htask).
    destruct (task_records_emitted fs task rec Hrec) as (lines & w & Hr & Hsh & Hw & Hem).
    pose proof (emitted_forward_scanned task lines rec w Hem) as Hfs.
    destruct Hem as (line & lse & Hline & Hm & Hem).
    assert (Hshl : line_shaped line = true).
    { rewrite Forall_forall in Hsh. apply Hsh. by eapply list_elem_of_lookup_2. }
    assert (Hnl : Forall (fun l => Py.has_newline l = false)
                    (block_lines lines line (w_block w))).
    { unfold block_lines. apply Forall_cons. split; [by apply strip_no_newline|].
      apply Forall_forall. intros l Hl. apply list_elem_of_fmap in Hl as (k & -> & _).
      by apply strip_no_newline, line_at_shaped. }
    assert (Htext : Py.split_lines (step_block_text rec)
                    = block_lines lines line (w_block w)).
    { destruct Hem as (_ & -> & _). by apply split_lines_join. }
    split.
    { rewrite Htext. by eapply emitted_block_slashes. }
    exists task, lines, w, line. repeat (split; [done|]).
    pose proof Hfs as Hfs'. destruct Hfs as (Hrange & Hrun & Hstop & Hb).
    split; [exact Hrange|]. split; [|split; [|exact Hb]].
    + intros j Hj. specialize (Hrun j Hj). unfold stops_scan in Hrun.
      apply orb_false_iff in Hrun as [Hp Hbl]. split; [done|]. split; [done|].
      by apply (forward_scanned_block lines w j).
    + destruct Hstop as [Hstop|Hstop]; [by left|right].
      unfold stops_scan in Hstop. apply orb_true_iff in Hstop as [?|?]; [by right|by left].
  - intros l rest j. apply forward_steps_over.
Qed.

(** The job with inline data: the two data lines (indices 3 and 4) are
    not in the block, and the DD statement behind them (index 5) is. *)
Lemma C10_witness :
  windows (run_task Samples.fs_inline Samples.task_inline empty_state)
  = [mkWindow 1 0 [0] [2; 5] 6]
  /\ Py.split_lines (step_block_text MoreSamples.step_inline)
     = ["//STEP1 EXEC PGM=IDCAMS"; "//SYSIN DD *"; "//SYSPRINT DD SYSOUT=*"]
  /\ (Forall (fun l => Py.startswith "//" l = true)
             (Py.split_lines (step_block_text MoreSamples.step_inline))
      /\ exists task lines w line,
           task ∈ [Samples.task_inline]
           /\ readlines Samples.fs_inline (file_path task) = Ok lines
           /\ w ∈ windows (run_task Samples.fs_inline task empty_state)
           /\ lines !! w_exec w = Some line
           /\ matches Pat.exec_step line = true
           /\ Py.split_lines (step_block_text MoreSamples.step_inline)
              = Py.strip line :: map (fun j => Py.strip (line_at lines j)) (w_block w)
           /\ w_exec w < w_end w <= length lines
           /\ (forall j, w_exec w < j < w_end w ->
                 blank (line_at lines j) = false
                 /\ matches Pat.exec_pgm (line_at lines j) = false
                 /\ (j ∈ w_block w <-> Py.startswith "//" (line_at lines j) = true))
           /\ (w_end w = length lines
               \/ blank (line_at lines (w_end w)) = true
               \/ matches Pat.exec_pgm (line_at lines (w_end w)) = true)
           /\ w_block w
              = List.filter (fun j => Py.startswith "//" (line_at lines j))
                            (seq (S (w_exec w)) (w_end w - S (w_exec w))))
  /\ forward [Samples.L "  DELETE A.B"; Samples.L "  SET MAXCC=0";
              Samples.L "//SYSPRINT DD SYSOUT=*"] 3
     = forward [Samples.L "  SET MAXCC=0"; Samples.L "//SYSPRINT DD SYSOUT=*"] 4.
Proof.
  destruct C10_step_block_lines_start_with_slashes as [H1 H2].
  split; [vm_compute; reflexivity|]. split; [vm_compute; reflexivity|].
  split.
  - apply (H1 Samples.fs_inline [Samples.task_inline] MoreSamples.step_inline).
    assert (H : extracted_data
                  (extract_steps_from_file Samples.fs_inline [Samples.task_inline]
                     empty_state)
                = [MoreSamples.step_inline]) by (vm_compute; reflexivity).
    rewrite H. left.
  - apply H2; vm_compute; reflexivity.
Defined.

(** The sample with inline data, run: the two data lines are left out and
    the DD statement after them is in the block. *)
Example inline_step_block :
  (step_block_text <$>
     extracted_data (extract_steps_from_file Samples.fs_inline [Samples.task_inline] empty_state))
  = [Py.join Py.nl ["//STEP1 EXEC PGM=IDCAMS"; "//SYSIN DD *"; "//SYSPRINT DD SYSOUT=*"]].
Proof. vm_compute; reflexivity. Qed.

(** ** The pool of workers *)

Section PoolFacts.
Variable fs : FS.

Lemma pending_split ws i w :
  ws !! i = Some w ->
  concat (pending <$> ws) ≡ₚ pending w ++ concat (pending <$> <[i := Finished]> ws).
Proof.
  intros Hi. pose proof (lookup_lt_Some _ _ _ Hi) as Hlt.
  rewrite (insert_take_drop ws i Finished Hlt).
  rewrite <- (take_drop_middle ws i w Hi) at 1.
  rewrite !fmap_app, !fmap_cons, !concat_app. simpl.
  apply Permutation_app_swap_app.
Qed.

Lemma pending_insert ws i w w' :
  ws !! i = Some w ->
  concat (pending <$> <[i := w']> ws)
  ≡ₚ pending w' ++ concat (pending <$> <[i := Finished]> ws).
Proof.
  intros Hi. pose proof (lookup_lt_Some _ _ _ Hi) as Hlt.
  rewrite (pending_split (<[i := w']> ws) i w') by (by apply list_lookup_insert_eq).
  by rewrite list_insert_insert_eq.
Qed.

(** A step of a thread moves tuples between the queue's yield, the
    thread's pending appends and the shared list; it loses and adds none. *)
Lemma pool_step_all p i : pool_all fs (pool_step fs p i) ≡ₚ pool_all fs p.
Proof.
  unfold pool_step, pool_all, set_worker.
  destruct (p_workers p !! i) as [w|] eqn:Hi; [|reflexivity].
  destruct w as [| |[|r rest]|]; simpl.
  - destruct (p_queue p) as [|task queue]; simpl;
      rewrite (pending_insert _ _ _ _ Hi), (pending_split _ _ _ Hi);
      reflexivity.
  - destruct (p_queue p) as [|task queue] eqn:Hq; simpl; [by rewrite Hq|].
    rewrite (pending_insert _ _ _ _ Hi), (pending_split _ _ _ Hi). simpl.
    apply Permutation_app_head. rewrite <- !app_assoc.
    apply Permutation_app_swap_app.
  - rewrite (pending_insert _ _ _ _ Hi), (pending_split _ _ _ Hi). reflexivity.
  - rewrite (pending_insert _ _ _ _ Hi), (pending_split _ _ _ Hi). simpl.
    rewrite <- !app_assoc. reflexivity.
  - reflexivity.
Qed.

Lemma pool_run_cons i schedule p :
  pool_run fs (i :: schedule) p = pool_run fs schedule (pool_step fs p i).
Proof. reflexivity. Qed.

Lemma pool_run_app s1 s2 p :
  pool_run fs (s1 ++ s2) p = pool_run fs s2 (pool_run fs s1 p).
Proof. unfold pool_run. apply foldl_app. Qed.

Lemma pool_run_all schedule : forall p,
  pool_all fs (pool_run fs schedule p) ≡ₚ pool_all fs p.
Proof.
  induction schedule as [|i schedule IH]; intros p; [reflexivity|].
  by rewrite pool_run_cons, IH, pool_step_all.
Qed.

Lemma elem_of_insert_inv {A} (l : list A) i x y :
  y ∈ <[i := x]> l -> y = x \/ y ∈ l.
Proof.
  revert i. induction l as [|a l IH]; intros i; [by right|].
  destruct i as [|i]; simpl.
  - intros H. apply elem_of_cons in H as [->|H]; [by left|right; by right].
  - intros H. apply elem_of_cons in H as [->|H]; [right; left|].
    destruct (IH i H) as [->|?]; [by left|right; by right].
Qed.

Lemma pool_step_drained p i : drained p -> drained (pool_step fs p i).
Proof.
  unfold drained, pool_step, set_worker. intros Hd.
  destruct (p_workers p !! i) as [w|] eqn:Hi; [|done].
  destruct w as [| |[|r rest]|]; simpl; try done.
  - destruct (p_queue p) as [|task queue] eqn:Hq; simpl; [done|].
    intros H. apply elem_of_insert_inv in H as [H|H]; [done|]. by apply Hd.
  - destruct (p_queue p) as [|task queue] eqn:Hq; simpl; [done|].
    intros H. apply elem_of_insert_inv in H as [H|H]; [done|]. by apply Hd in H.
  - intros H. apply elem_of_insert_inv in H as [H|H]; [done|]. by apply Hd.
  - intros H. apply elem_of_insert_inv in H as [H|H]; [done|]. by apply Hd.
Qed.

Lemma pool_run_drained schedule : forall p,
  drained p -> drained (pool_run fs schedule p).
Proof.
  induction schedule as [|i schedule IH]; intros p Hd; [done|].
  rewrite pool_run_cons. apply IH. by apply pool_step_drained.
Qed.

Lemma pool_step_workers p i :
  length (p_workers (pool_step fs p i)) = length (p_workers p).
Proof.
  unfold pool_step, set_worker.
  destruct (p_workers p !! i) as [w|]; [|done].
  destruct w as [| |[|r rest]|]; simpl; try done.
  - destruct (p_queue p); simpl; by rewrite length_insert.
  - destruct (p_queue p); simpl; [done|]. by rewrite length_insert.
  - by rewrite length_insert.
  - by rewrite length_insert.
Qed.

Lemma pool_run_workers schedule : forall p,
  length (p_workers (pool_run fs schedule p)) = length (p_workers p).
Proof.
  induction schedule as [|i schedule IH]; intros p; [done|].
  by rewrite pool_run_cons, IH, pool_step_workers.
Qed.

Lemma pool_run_no_workers schedule : forall p,
  p_workers p = [] -> pool_run fs schedule p = p.
Proof.
  induction schedule as [|i schedule IH]; intros p Hw; [done|].
  rewrite pool_run_cons. unfold pool_step. rewrite Hw. simpl. by apply IH.
Qed.

Lemma joined_pending ws :
  forallb is_finished ws = true -> concat (pending <$> ws) = [].
Proof.
  induction ws as [|w ws IH]; simpl; [done|].
  intros H. apply andb_true_iff in H as [Hw H].
  destruct w; try discriminate. simpl. by apply IH.
Qed.

Lemma joined_finished ws :
  ws <> [] -> forallb is_finished ws = true -> Finished ∈ ws.
Proof.
  destruct ws as [|w ws]; [done|]. simpl. intros _ H.
  apply andb_true_iff in H as [Hw _]. destruct w; try discriminate. left.
Qed.

(** When every thread has joined, the shared list holds the yield of
    every queued file, in some order.  (With no thread at all the queue
    must have been empty for this to hold.) *)
Lemma joined_pool_data n queue schedule :
  queue = [] \/ 0 < n ->
  joined (pool_run fs schedule (pool_start n queue)) = true ->
  p_data (pool_run fs schedule (pool_start n queue))
  ≡ₚ concat (task_records fs <$> queue).
Proof.
  intros Hn Hj.
  pose proof (pool_run_all schedule (pool_start n queue)) as Hall.
  pose proof (pool_run_workers schedule (pool_start n queue)) as Hlen.
  assert (Hd : drained (pool_run fs schedule (pool_start n queue))).
  { apply pool_run_drained. unfold drained, pool_start. simpl.
    intros H. apply elem_of_replicate in H as [? _]. done. }
  set (p := pool_run fs schedule (pool_start n queue)) in *.
  unfold joined in Hj.
  assert (Hq : p_queue p = []).
  { destruct Hn as [->|Hn].
    - destruct n as [|n].
      + subst p. by rewrite pool_run_no_workers.
      + apply Hd, joined_finished; [|done].
        intros Hnil. rewrite Hnil in Hlen. simpl in Hlen.
        rewrite length_replicate in Hlen. lia.
    - apply Hd, joined_finished; [|done].
      intros Hnil. rewrite Hnil in Hlen. simpl in Hlen.
      rewrite length_replicate in Hlen. lia. }
  unfold pool_all in Hall. rewrite Hq, (joined_pending _ Hj) in Hall.
  simpl in Hall. rewrite app_nil_r in Hall. rewrite Hall.
  unfold pool_start. simpl.
  rewrite fmap_replicate. simpl.
  assert (Hnil : forall m, concat (replicate m (@nil ExtractedStep)) = []).
  { induction m; simpl; auto. }
  by rewrite Hnil.
Qed.

(** A thread that called [get()] on an empty queue stays there, whatever
    the others do: such a run never has all its threads joined. *)
Lemma blocked_in_get schedule : forall p i,
  p_workers p !! i = Some AtGet -> p_queue p = [] ->
  p_workers (pool_run fs schedule p) !! i = Some AtGet.
Proof.
  induction schedule as [|k schedule IH]; intros p i Hi Hq; [done|].
  rewrite pool_run_cons. apply IH.
  - unfold pool_step, set_worker. destruct (p_workers p !! k) as [w|] eqn:Hk; [|done].
    destruct (decide (k = i)) as [->|Hne].
    + rewrite Hi in Hk. injection Hk as <-. by rewrite Hq.
    + destruct w as [| |[|r rest]|]; simpl; rewrite ?Hq; simpl;
        rewrite ?list_lookup_insert_ne by done; done.
  - unfold pool_step, set_worker. destruct (p_workers p !! k) as [w|]; [|done].
    destruct w as [| |[|r rest]|]; simpl; rewrite ?Hq; simpl; done.
Qed.
End PoolFacts.

(** *** A schedule under which every thread joins *)

Section OneByOne.
Variable fs : FS.

Lemma run_appends recs : forall p ws,
  p_workers p = Working recs :: ws ->
  pool_run fs (replicate (length recs) 0) p
  = mkPool (p_queue p) (Working [] :: ws) (p_data p ++ recs).
Proof.
  induction recs as [|r recs IH]; intros p ws Hw.
  - simpl. rewrite app_nil_r. destruct p. simpl in *. by subst.
  - change (replicate (length (r :: recs)) 0) with (0 :: replicate (length recs) 0).
    rewrite pool_run_cons. unfold pool_step at 1. rewrite Hw. simpl.
    rewrite (IH _ ws) by reflexivity. simpl. by rewrite <- app_assoc.
Qed.

Lemma run_task_turns task queue ws data :
  pool_run fs (replicate (turns fs task) 0) (mkPool (task :: queue) (AtTest :: ws) data)
  = mkPool queue (AtTest :: ws) (data ++ task_records fs task).
Proof.
  unfold turns.
  change (3 + length (task_records fs task)) with (S (S (S (length (task_records fs task))))).
  rewrite replicate_S_end.
  change (replicate (S (S ?n)) 0) with (0 :: 0 :: replicate n 0).
  rewrite pool_run_app, !pool_run_cons.
  assert (H1 : pool_step fs (mkPool (task :: queue) (AtTest :: ws) data) 0
               = mkPool (task :: queue) (AtGet :: ws) data) by reflexivity.
  assert (H2 : pool_step fs (mkPool (task :: queue) (AtGet :: ws) data) 0
               = mkPool queue (Working (task_records fs task) :: ws) data) by reflexivity.
  rewrite H1, H2, (run_appends _ _ ws) by reflexivity.
  reflexivity.
Qed.

Lemma run_queue_turns queue : forall ws data,
  pool_run fs (replicate (sum_list (turns fs <$> queue)) 0)
    (mkPool queue (AtTest :: ws) data)
  = mkPool [] (AtTest :: ws) (data ++ concat (task_records fs <$> queue)).
Proof.
  induction queue as [|task queue IH]; intros ws data.
  - simpl. by rewrite app_nil_r.
  - rewrite !fmap_cons.
    change (sum_list (turns fs task :: (turns fs <$> queue)))
      with (turns fs task + sum_list (turns fs <$> queue)).
    rewrite replicate_add, pool_run_app, run_task_turns, IH.
    simpl. by rewrite <- app_assoc.
Qed.

Lemma run_last_tests m : forall a data,
  pool_run fs (seq a m) (mkPool [] (replicate a Finished ++ replicate m AtTest) data)
  = mkPool [] (replicate (a + m) Finished) data.
Proof.
  induction m as [|m IH]; intros a data.
  - simpl. by rewrite app_nil_r, Nat.add_0_r.
  - change (seq a (S m)) with (a :: seq (S a) m). rewrite pool_run_cons.
    assert (Hstep : pool_step fs (mkPool [] (replicate a Finished ++ replicate (S m) AtTest) data) a
                    = mkPool [] (replicate (S a) Finished ++ replicate m AtTest) data).
    { unfold pool_step, set_worker. cbn [p_workers p_queue p_data].
      rewrite lookup_app_r by (rewrite length_replicate; lia).
      rewrite length_replicate, Nat.sub_diag. cbn [replicate lookup list_lookup].
      f_equal.
      rewrite insert_app_r_alt by (rewrite length_replicate; lia).
      rewrite length_replicate, Nat.sub_diag.
      change (<[0:=Finished]> (AtTest :: replicate m AtTest))
        with (Finished :: replicate m AtTest).
      change (Finished :: replicate a Finished) with (replicate (S a) Finished).
      rewrite replicate_S_end, <- app_assoc. reflexivity. }
    rewrite Hstep, IH. f_equal. f_equal. lia.
Qed.

Lemma one_by_one_joins n queue :
  joined (pool_run fs (one_by_one fs n queue) (pool_start n queue)) = true.
Proof.
  unfold one_by_one. rewrite pool_run_app.
  destruct n as [|n].
  - rewrite (pool_run_no_workers fs _ (pool_start 0 queue)) by reflexivity.
    reflexivity.
  - unfold pool_start. change (replicate (S n) AtTest) with (AtTest :: replicate n AtTest).
    rewrite run_queue_turns.
    change (AtTest :: replicate n AtTest)
      with (replicate 0 Finished ++ replicate (S n) AtTest).
    rewrite run_last_tests. unfold joined. simpl.
    induction n as [|n IH]; [reflexivity|exact IH].
Qed.
End OneByOne.

(** *** Pool sizes *)

Lemma fill_queue_set_threads fs n config :
  fill_queue fs (set_threads n config) = fill_queue fs config.
Proof. reflexivity. Qed.

Lemma num_threads_set_threads n config : num_threads (set_threads n config) = n.
Proof. unfold num_threads, set_threads. simpl. by rewrite lookup_insert_eq. Qed.

Lemma scan_joined_data fs config n schedule queue p :
  (0 < n)%Z ->
  fill_queue fs config = Some queue ->
  process_files fs (set_threads n config) schedule = Some p ->
  joined p = true ->
  p_data p ≡ₚ concat (task_records fs <$> queue).
Proof.
  intros Hn Hq Hs Hj. unfold process_files in Hs.
  rewrite fill_queue_set_threads, Hq in Hs. injection Hs as <-.
  apply joined_pool_data; [|exact Hj].
  unfold started_threads, py_range. rewrite num_threads_set_threads, length_seq.
  destruct queue as [|task queue]; [by left|right]. simpl length. lia.
Qed.

(** C9, at a concrete input: the same directory and configuration scanned
    with a thread count of 0 and of 1.  With 0 no thread is started, every
    join returns at once and [extracted_data] stays empty; with 1 the four
    steps of the two jobs are found. *)
Lemma C9_counterexample :
  exists p0 p1,
    process_files Samples.fs_jobs (set_threads 0 (Samples.config_threads None)) [] = Some p0
    /\ joined p0 = true
    /\ process_files Samples.fs_jobs (set_threads 1 (Samples.config_threads None))
         Samples.schedule_alone = Some p1
    /\ joined p1 = true
    /\ p_data p0 = []
    /\ (step_name <$> p_data p1) = ["S1"; "S2"; "S1"; "S2"]
    /\ ~ (p_data p0 ≡ₚ p_data p1).
Proof.
  eexists _, _.
  split; [vm_compute; reflexivity|].
  split; [vm_compute; reflexivity|].
  split; [vm_compute; reflexivity|].
  split; [vm_compute; reflexivity|].
  split; [vm_compute; reflexivity|].
  split; [vm_compute; reflexivity|].
  intros H. apply Permutation_length in H. vm_compute in H. discriminate.
Qed.

(** C9, amended. For one directory and one configuration, scanned with any
    two positive thread counts under any two schedules, two runs in which
    every thread joins leave the same tuples in [extracted_data], up to
    their order.  And for every thread count there is a schedule under
    which every thread joins. *)
Theorem C9_results_equal_up_to_order :
  (forall (fs : FS) (config : Config) (n1 n2 : Z) (s1 s2 : list nat) (p1 p2 : pool),
     (0 < n1)%Z -> (0 < n2)%Z ->
     process_files fs (set_threads n1 config) s1 = Some p1 -> joined p1 = true ->
     process_files fs (set_threads n2 config) s2 = Some p2 -> joined p2 = true ->
     p_data p1 ≡ₚ p_data p2)
  /\ (forall (fs : FS) (config : Config) (n : Z) (queue : list ScanTask),
        fill_queue fs config = Some queue ->
        exists schedule p,
          process_files fs (set_threads n config) schedule = Some p /\ joined p = true).
Proof.
  split.
  - intros fs config n1 n2 s1 s2 p1 p2 Hn1 Hn2 Hs1 Hj1 Hs2 Hj2.
    destruct (fill_queue fs config) as [queue|] eqn:Hq.
    + rewrite (scan_joined_data fs config n1 s1 queue p1 Hn1 Hq Hs1 Hj1).
      by rewrite (scan_joined_data fs config n2 s2 queue p2 Hn2 Hq Hs2 Hj2).
    + unfold process_files in Hs1. rewrite fill_queue_set_threads, Hq in Hs1. discriminate.
  - intros fs config n queue Hq.
    exists (one_by_one fs (length (started_threads (set_threads n config) queue)) queue).
    eexists. unfold process_files. rewrite fill_queue_set_threads, Hq.
    split; [reflexivity|]. apply one_by_one_joins.
Qed.

Lemma C9_witness :
  exists p1 p2,
    process_files Samples.fs_jobs (set_threads 1 (Samples.config_threads None))
      Samples.schedule_alone = Some p1
    /\ joined p1 = true
    /\ process_files Samples.fs_jobs (set_threads 2 (Samples.config_threads None))
         Samples.schedule_in_turn = Some p2
    /\ joined p2 = true
    /\ (file_name <$> p_data p1) = ["b.jcl"; "b.jcl"; "d.jcl"; "d.jcl"]
    /\ (file_name <$> p_data p2) = ["b.jcl"; "d.jcl"; "b.jcl"; "d.jcl"]
    /\ p_data p1 ≡ₚ p_data p2.
Proof.
  eexists _, _.
  split; [vm_compute; reflexivity|].
  split; [vm_compute; reflexivity|].
  split; [vm_compute; reflexivity|].
  split; [vm_compute; reflexivity|].
  split; [vm_compute; reflexivity|].
  split; [vm_compute; reflexivity|].
  refine (proj1 C9_results_equal_up_to_order Samples.fs_jobs (Samples.config_threads None)
            1%Z 2%Z Samples.schedule_alone Samples.schedule_in_turn _ _ _ _ _ _ _ _);
    vm_compute; reflexivity.
Defined.

(** A run of two threads on the two jobs in which thread 1 ends in get()
    on the empty queue: its join never returns, whatever is scheduled next. *)
Example two_threads_can_block :
  exists p,
    process_files Samples.fs_jobs (set_threads 2 (Samples.config_threads None))
      Samples.schedule_blocking = Some p
    /\ p_queue p = []
    /\ p_workers p !! 1 = Some AtGet
    /\ forall more, joined (pool_run Samples.fs_jobs more p) = false.
Proof.
  eexists. split; [vm_compute; reflexivity|].
  split; [reflexivity|]. split; [reflexivity|].
  intros more.
  match goal with |- joined (pool_run _ _ ?p) = false =>
    pose proof (blocked_in_get Samples.fs_jobs more p 1 eq_refl eq_refl) as Hb end.
  unfold joined. destruct (forallb is_finished _) eqn:Hf; [|reflexivity].
  rewrite forallb_forall in Hf.
  apply list_elem_of_lookup_2, list_elem_of_In in Hb. apply Hf in Hb. discriminate.
Qed.

(** ** The scenarios of the specification, run *)

Example scenario_inline_sysin :
  extracted_data (run_task Samples.fs_inline Samples.task_inline empty_state)
  = [mkStep "c.jcl" "JCL" "STEP1"
       (Py.join Py.nl ["//STEP1 EXEC PGM=IDCAMS"; "//SYSIN DD *"; "//SYSPRINT DD SYSOUT=*"])
       "IDCAMS" "Inline SYSIN" "//SYSIN DD *" EmptyString EmptyString "//* Backup volume"].
Proof. vm_compute; reflexivity. Qed.

Example scenario_symbol_from_set :
  (program_name <$>
     extracted_data (run_task Samples.fs_symbols Samples.task_set_symbol empty_state))
  = ["IEBGENER"].
Proof. vm_compute; reflexivity. Qed.

Example scenario_unresolved_symbol :
  run_task Samples.fs_symbols Samples.task_no_symbol empty_state
  = mkState [] ["Unresolved symbolic parameter &UNDEFINEDPARM in u.jcl"] [].
Proof. vm_compute; reflexivity. Qed.

Example scenario_missing_control_card :
  (detect_sysin Samples.fs_none "/cntl" ["//SYSIN DD DSN=X.Y(MEMBER)"] empty_state).1
  = Ok ("Control Card", "//SYSIN DD DSN=X.Y(MEMBER)", "MEMBER",
        "[Control card 'MEMBER' not found in CNTLLIB]").
Proof. vm_compute; reflexivity. Qed.

(** * Further properties *)

(** ** What the resolver returns *)

Section ResolverValues.
Variable fs : FS.

Lemma exec_lookup_token param procs jcl v :
  exec_lookup fs param procs jcl = Ok (Some v) -> token v.
Proof.
  induction jcl as [|line jcl IH]; cbn [exec_lookup]; [discriminate|].
  destruct (Re.re_match Pat.exec_proc line) as [c|]; [|exact IH].
  destruct (Re.re_search (Pat.param_eq param) line) as [c'|] eqn:Hs.
  { intros [= <-]. apply re_search_sound in Hs as (pre & Hm). by eapply param_eq_token. }
  destruct (find_proc_content fs (Re.group 1 c) procs) as [[ls|]|e]; simpl;
    [|exact IH|discriminate].
  destruct (first_group1 (Pat.proc_def param) ls) as [v'|] eqn:Hf; [|exact IH].
  intros [= <-]. eapply first_group1_token; [|exact Hf]. apply proc_def_token.
Qed.

Lemma include_lookup_token param cntllib jcl v :
  include_lookup fs param cntllib jcl = Ok (Some v) -> token v.
Proof.
  induction jcl as [|line jcl IH]; cbn [include_lookup]; [discriminate|].
  destruct (Re.re_search Pat.include_member line) as [c|]; [|exact IH].
  destruct (negb (Py.is_empty cntllib)); [|exact IH].
  destruct (path_exists fs _); [|exact IH].
  destruct (readlines fs _) as [ls|e]; simpl; [|discriminate].
  destruct (first_group1 (Pat.param_eq param) ls) as [v'|] eqn:Hf; [|exact IH].
  intros [= <-]. eapply first_group1_token; [|exact Hf]. apply param_eq_token.
Qed.

Lemma walk_files_token param root files v :
  walk_files fs param root files = Some v -> token v.
Proof.
  induction files as [|file files IH]; cbn [walk_files]; [discriminate|].
  destruct (Py.endswith ".incl" file); [|exact IH].
  destruct (first_group1 _ _) as [v'|] eqn:Hf; [|exact IH].
  intros [= <-]. eapply first_group1_token; [|exact Hf]. apply param_eq_token.
Qed.

Lemma walk_lookup_token param w v :
  walk_lookup fs param w = Some v -> token v.
Proof.
  induction w as [|[root files] w IH]; cbn [walk_lookup]; [discriminate|].
  destruct (walk_files fs param root files) as [v'|] eqn:Hf; [|exact IH].
  intros [= <-]. by eapply walk_files_token.
Qed.

Lemma include_lookup_no_cntllib param jcl :
  include_lookup fs param EmptyString jcl = Ok None.
Proof.
  induction jcl as [|line jcl IH]; cbn [include_lookup]; [done|].
  by destruct (Re.re_search Pat.include_member line).
Qed.

Lemma set_lookup_stripped param jcl v :
  set_lookup param jcl = Some v -> exists x, v = Py.strip x.
Proof.
  induction jcl as [|line jcl IH]; cbn [set_lookup]; [discriminate|].
  destruct (Re.re_match Pat.set_stmt line) as [c|]; [|exact IH].
  destruct (Py.str_eqb _ _); [|exact IH].
  intros [= <-]. by eexists.
Qed.
End ResolverValues.

(** *** Trimmed text *)

Lemma lstrip_first s c : Re.peek (Py.lstrip s) = Some c -> Py.is_space c = false.
Proof.
  induction s as [|x s IH]; cbn [Py.lstrip]; [discriminate|].
  destruct (Py.is_space x) eqn:Hx; [exact IH|].
  cbn [Re.peek]. by intros [= <-].
Qed.

Lemma rstrip_last s c : last_char (Py.rstrip s) = Some c -> Py.is_space c = false.
Proof.
  revert c. induction s as [|x s IH]; intros c; cbn [Py.rstrip]; [discriminate|].
  destruct (Py.rstrip s) as [|y r] eqn:Hr.
  - destruct (Py.is_space x) eqn:Hx; [discriminate|]. cbn [last_char]. by intros [= <-].
  - cbn [last_char]. apply IH.
Qed.

Lemma lstrip_last s c : last_char (Py.lstrip s) = Some c -> last_char s = Some c.
Proof.
  induction s as [|x s IH]; cbn [Py.lstrip]; [discriminate|].
  destruct (Py.is_space x); [|done].
  intros H. specialize (IH H). cbn [last_char]. destruct s; [discriminate|done].
Qed.

Lemma strip_trimmed s : trimmed (Py.strip s).
Proof.
  unfold Py.strip. split; intros c H.
  - by eapply lstrip_first.
  - apply lstrip_last in H. by eapply rstrip_last.
Qed.

Lemma all_chars_last p v c :
  all_chars p v = true -> last_char v = Some c -> p c = true.
Proof.
  induction v as [|x v IH]; cbn [all_chars last_char]; [discriminate|].
  intros H. apply andb_true_iff in H as [Hx Hv].
  destruct v; [by intros [= <-]|]. by apply IH.
Qed.

Lemma token_trimmed v : token v -> trimmed v.
Proof.
  intros [_ Hall]. split; intros c H.
  - destruct v as [|x v]; [discriminate|]. injection H as <-.
    cbn [all_chars] in Hall. apply andb_true_iff in Hall as [Hx _].
    unfold Re.not_comma_sp in Hx. apply andb_true_iff in Hx as [_ Hx].
    by apply negb_true_iff in Hx.
  - pose proof (all_chars_last _ _ _ Hall H) as Hc.
    unfold Re.not_comma_sp in Hc. apply andb_true_iff in Hc as [_ Hc].
    by apply negb_true_iff in Hc.
Qed.

(** X1. For a parameter name of word characters: when the parameter has
    no SET statement and CNTLLIB has no member named after it (or no
    CNTLLIB path is given), a value the resolver returns comes from an EXEC override, a PROC default, an INCLUDE member
    or the walk of CNTLLIB, and is what [[^,\s]+] captured: it is not
    empty and holds no comma and no white space. *)
Theorem resolved_value_is_a_token :
  forall (fs : FS) (param : string) (jcl procs : list string) (cntllib v : string),
    Pat.plain_name param = true ->
    set_lookup param jcl = None ->
    Py.is_empty cntllib = true
      \/ path_exists fs (Py.path_join cntllib (param +:+ ".incl")) = false ->
    resolve_symbolic_parameter fs param jcl procs cntllib = Ok (Some v) ->
    v <> EmptyString /\ all_chars Re.not_comma_sp v = true.
Proof.
  intros fs param jcl procs cntllib v _ Hset Hdirect. unfold resolve_symbolic_parameter.
  rewrite Hset.
  destruct (exec_lookup fs param procs jcl) as [[v1|]|e] eqn:He; simpl; [| |discriminate].
  { intros [= <-]. by eapply exec_lookup_token. }
  destruct (include_lookup fs param cntllib jcl) as [[v2|]|e] eqn:Hi; simpl; [| |discriminate].
  { intros [= <-]. by eapply include_lookup_token. }
  unfold cntllib_lookup. destruct Hdirect as [Hc|Hd].
  - rewrite Hc. discriminate.
  - destruct (negb (Py.is_empty cntllib)); [|discriminate]. rewrite Hd.
    intros [= H]. by eapply walk_lookup_token.
Qed.

Lemma resolved_value_is_a_token_witness :
  set_lookup "UTIL" Samples.jcl_override_only = None
  /\ path_exists Samples.fs_proc (Py.path_join "/cntl" ("UTIL" +:+ ".incl")) = false
  /\ resolve_symbolic_parameter Samples.fs_proc "UTIL" Samples.jcl_override_only
       ["/proc"] "/cntl" = Ok (Some "IEBGENER")
  /\ ("IEBGENER" <> EmptyString /\ all_chars Re.not_comma_sp "IEBGENER" = true).
Proof.
  assert (H1 : set_lookup "UTIL" Samples.jcl_override_only = None) by (vm_compute; reflexivity).
  assert (H2 : path_exists Samples.fs_proc (Py.path_join "/cntl" ("UTIL" +:+ ".incl")) = false)
    by (vm_compute; reflexivity).
  assert (H3 : resolve_symbolic_parameter Samples.fs_proc "UTIL" Samples.jcl_override_only
                 ["/proc"] "/cntl" = Ok (Some "IEBGENER")) by (vm_compute; reflexivity).
  repeat (split; [assumption|]).
  exact (resolved_value_is_a_token Samples.fs_proc "UTIL" Samples.jcl_override_only
           ["/proc"] "/cntl" "IEBGENER" eq_refl H1 (or_intror H2) H3).
Defined.

(** X2. For a parameter name of word characters, and whatever the source
    of the value, a value the resolver returns neither begins nor ends
    with white space. *)
Theorem resolved_value_is_trimmed :
  forall (fs : FS) (param : string) (jcl procs : list string) (cntllib v : string),
    Pat.plain_name param = true ->
    resolve_symbolic_parameter fs param jcl procs cntllib = Ok (Some v) ->
    (forall c, Re.peek v = Some c -> Py.is_space c = false)
    /\ (forall c, last_char v = Some c -> Py.is_space c = false).
Proof.
  intros fs param jcl procs cntllib v _. unfold resolve_symbolic_parameter.
  destruct (set_lookup param jcl) as [v0|] eqn:Hset.
  { intros [= <-]. apply set_lookup_stripped in Hset as [x ->]. apply strip_trimmed. }
  destruct (exec_lookup fs param procs jcl) as [[v1|]|e] eqn:He; simpl; [| |discriminate].
  { intros [= <-]. by eapply token_trimmed, exec_lookup_token. }
  destruct (include_lookup fs param cntllib jcl) as [[v2|]|e] eqn:Hi; simpl; [| |discriminate].
  { intros [= <-]. by eapply token_trimmed, include_lookup_token. }
  unfold cntllib_lookup.
  destruct (negb (Py.is_empty cntllib)); [|discriminate].
  destruct (path_exists fs _).
  - destruct (read fs _) as [c|e]; simpl; [|discriminate].
    intros [= <-]. apply strip_trimmed.
  - intros [= H]. by eapply token_trimmed, walk_lookup_token.
Qed.

Lemma resolved_value_is_trimmed_witness :
  resolve_symbolic_parameter Samples.fs_proc "UTIL" Samples.jcl_set_and_proc ["/proc"] "/cntl"
  = Ok (Some "IEBGENER")
  /\ ((forall c, Re.peek "IEBGENER" = Some c -> Py.is_space c = false)
      /\ (forall c, last_char "IEBGENER" = Some c -> Py.is_space c = false)).
Proof.
  assert (H : resolve_symbolic_parameter Samples.fs_proc "UTIL" Samples.jcl_set_and_proc
                ["/proc"] "/cntl" = Ok (Some "IEBGENER")) by (vm_compute; reflexivity).
  split; [exact H|].
  exact (resolved_value_is_trimmed Samples.fs_proc "UTIL" Samples.jcl_set_and_proc
           ["/proc"] "/cntl" "IEBGENER" eq_refl H).
Defined.

(** X3. For a parameter name of word characters and an empty CNTLLIB
    path, no member is looked for: the result is that of the SET
    statements and, failing them, of the EXEC loop, and it is the same
    whatever the file system holds outside the PROC libraries. *)
Theorem resolver_without_cntllib :
  forall (fs : FS) (param : string) (jcl procs : list string),
    Pat.plain_name param = true ->
    resolve_symbolic_parameter fs param jcl procs EmptyString
    = match set_lookup param jcl with
      | Some v => Ok (Some v)
      | None => exec_lookup fs param procs jcl
      end.
Proof.
  intros fs param jcl procs _. unfold resolve_symbolic_parameter.
  destruct (set_lookup param jcl); [done|].
  destruct (exec_lookup fs param procs jcl) as [[v|]|e]; simpl; [done| |done].
  by rewrite include_lookup_no_cntllib.
Qed.

Lemma resolver_without_cntllib_witness :
  resolve_symbolic_parameter Samples.fs_include_denied "UTIL"
    [Samples.L "// INCLUDE MEMBER=MEM1"] [] EmptyString
  = Ok None.
Proof.
  exact (resolver_without_cntllib Samples.fs_include_denied "UTIL"
           [Samples.L "// INCLUDE MEMBER=MEM1"] [] eq_refl).
Defined.

(** X4. A PROC is read from the first library of the list that has a
    member [<name>.proc]: the libraries after it are not looked at, even
    when that member cannot be read (the exception is the result); and
    when no library has the member the result is nothing. *)
Theorem find_proc_content_first_library :
  (forall (fs : FS) (name : string) (before : list string) (lib : string)
          (after : list string),
     (forall l, l ∈ before -> path_exists fs (Py.path_join l (name +:+ ".proc")) = false) ->
     path_exists fs (Py.path_join lib (name +:+ ".proc")) = true ->
     find_proc_content fs name (before ++ lib :: after)
     = match readlines fs (Py.path_join lib (name +:+ ".proc")) with
       | Ok ls => Ok (Some ls)
       | Raise e => Raise e
       end)
  /\ (forall (fs : FS) (name : string) (libs : list string),
        (forall l, l ∈ libs -> path_exists fs (Py.path_join l (name +:+ ".proc")) = false) ->
        find_proc_content fs name libs = Ok None).
Proof.
  split.
  - intros fs name before lib after Hb Hl.
    induction before as [|l before IH]; cbn [app find_proc_content].
    + rewrite Hl. by destruct (readlines fs _).
    + rewrite (Hb l) by left. apply IH. intros l' Hl'. apply Hb. by right.
  - intros fs name libs Hb.
    induction libs as [|l libs IH]; cbn [find_proc_content]; [done|].
    rewrite (Hb l) by left. apply IH. intros l' Hl'. apply Hb. by right.
Qed.

Lemma find_proc_content_first_library_witness :
  find_proc_content Samples.fs_proc "MYPROC" (["/lib1"] ++ "/proc" :: ["/lib3"])
  = Ok (Some [Samples.L "//MYPROC PROC UTIL=IDCAMS"])
  /\ find_proc_content Samples.fs_proc "OTHER" ["/lib1"; "/proc"] = Ok None.
Proof.
  destruct find_proc_content_first_library as [H1 H2]. split.
  - refine (H1 Samples.fs_proc "MYPROC" ["/lib1"] "/proc" ["/lib3"] _ _).
    + intros l Hl. apply list_elem_of_singleton in Hl. subst l. vm_compute; reflexivity.
    + vm_compute; reflexivity.
  - apply H2. intros l Hl.
    apply elem_of_cons in Hl as [->|Hl]; [vm_compute; reflexivity|].
    apply list_elem_of_singleton in Hl. subst l. vm_compute; reflexivity.
Defined.

(** ** The fields of the tuples *)

(** X5. The program name of every tuple in [extracted_data] is in upper
    case: [upper()] leaves it as it is. *)
Theorem program_names_are_upper_case :
  forall (fs : FS) (queue : list ScanTask) (rec : ExtractedStep),
    rec ∈ extracted_data (extract_steps_from_file fs queue empty_state) ->
    Py.upper (program_name rec) = program_name rec.
Proof.
  intros fs queue rec Hin.
  by destruct (worker_facts fs queue rec Hin) as (task & _ & _ & H & _).
Qed.

(** X6. The step name of every tuple is not empty and holds no white
    space. *)
Theorem step_names_are_solid :
  forall (fs : FS) (queue : list ScanTask) (rec : ExtractedStep),
    rec ∈ extracted_data (extract_steps_from_file fs queue empty_state) ->
    step_name rec <> EmptyString /\ all_chars Re.nsp (step_name rec) = true.
Proof.
  intros fs queue rec Hin.
  by destruct (worker_facts fs queue rec Hin) as (task & _ & _ & _ & H & _).
Qed.

(** X7. The SYSIN fields of every tuple agree: the type is None with the
    statement, member and content empty; or Inline SYSIN with a statement
    that starts with two slashes and no member and content; or Control
    Card with such a statement and a member and content that are both
    empty (no member in the DSN) or both not empty. *)
Theorem sysin_fields_agree :
  forall (fs : FS) (queue : list ScanTask) (rec : ExtractedStep),
    rec ∈ extracted_data (extract_steps_from_file fs queue empty_state) ->
    sysin_fields_ok (sysin_type rec) (sysin_statement rec)
                    (control_card_member rec) (control_card_content rec).
Proof.
  intros fs queue rec Hin.
  by destruct (worker_facts fs queue rec Hin) as (task & _ & _ & _ & _ & H & _).
Qed.

(** X8. The comments of every tuple are empty or a text every line of
    which starts with the comment mark. *)
Theorem comments_are_comment_lines :
  forall (fs : FS) (queue : list ScanTask) (rec : ExtractedStep),
    rec ∈ extracted_data (extract_steps_from_file fs queue empty_state) ->
    comments_text rec = EmptyString
    \/ Forall (fun l => Py.startswith "//*" l = true) (Py.split_lines (comments_text rec)).
Proof.
  intros fs queue rec Hin.
  by destruct (worker_facts fs queue rec Hin) as (task & _ & _ & _ & _ & _ & H & _).
Qed.

Lemma step_inline_emitted :
  MoreSamples.step_inline
  ∈ extracted_data (extract_steps_from_file Samples.fs_inline [Samples.task_inline] empty_state).
Proof.
  assert (H : extracted_data
                (extract_steps_from_file Samples.fs_inline [Samples.task_inline] empty_state)
              = [MoreSamples.step_inline]) by (vm_compute; reflexivity).
  rewrite H. left.
Qed.

Lemma program_names_are_upper_case_witness :
  MoreSamples.step_inline
  ∈ extracted_data (extract_steps_from_file Samples.fs_inline [Samples.task_inline] empty_state)
  /\ Py.upper "IDCAMS" = "IDCAMS".
Proof.
  split; [exact step_inline_emitted|].
  exact (program_names_are_upper_case Samples.fs_inline [Samples.task_inline]
           MoreSamples.step_inline step_inline_emitted).
Defined.

Lemma step_names_are_solid_witness :
  MoreSamples.step_inline
  ∈ extracted_data (extract_steps_from_file Samples.fs_inline [Samples.task_inline] empty_state)
  /\ ("STEP1" <> EmptyString /\ all_chars Re.nsp "STEP1" = true).
Proof.
  split; [exact step_inline_emitted|].
  exact (step_names_are_solid Samples.fs_inline [Samples.task_inline]
           MoreSamples.step_inline step_inline_emitted).
Defined.

Lemma sysin_fields_agree_witness :
  MoreSamples.step_inline
  ∈ extracted_data (extract_steps_from_file Samples.fs_inline [Samples.task_inline] empty_state)
  /\ sysin_fields_ok "Inline SYSIN" "//SYSIN DD *" EmptyString EmptyString.
Proof.
  split; [exact step_inline_emitted|].
  exact (sysin_fields_agree Samples.fs_inline [Samples.task_inline]
           MoreSamples.step_inline step_inline_emitted).
Defined.

Lemma comments_are_comment_lines_witness :
  MoreSamples.step_inline
  ∈ extracted_data (extract_steps_from_file Samples.fs_inline [Samples.task_inline] empty_state)
  /\ ("//* Backup volume" = EmptyString
      \/ Forall (fun l => Py.startswith "//*" l = true) (Py.split_lines "//* Backup volume")).
Proof.
  split; [exact step_inline_emitted|].
  exact (comments_are_comment_lines Samples.fs_inline [Samples.task_inline]
           MoreSamples.step_inline step_inline_emitted).
Defined.

(** ** The order of the tuples of a file *)

Lemma scan_outcome_order task lines i rest lse r d :
  rest = drop i lines ->
  scan_outcome task lines i rest lse r d ->
  Forall (fun w => i <= w_exec w
                   /\ exists l, lines !! w_exec w = Some l
                                /\ matches Pat.exec_step l = true) (windows d)
  /\ length (extracted_data d) <= length rest.
Proof.
  intros Hrest Hso. revert Hrest.
  induction Hso as [i lse|i line rest lse e d Hl|i line rest lse e d r d' Hl Hs IH];
    intros Hrest.
  - split; [constructor|simpl; lia].
  - inversion Hl; subst. split; [constructor|simpl; lia].
  - assert (Hline : lines !! i = Some line).
    { pose proof (lookup_drop lines i 0) as H. rewrite <- Hrest in H. simpl in H.
      by rewrite Nat.add_0_r in H. }
    assert (Hrest' : rest = drop (S i) lines).
    { rewrite (drop_S _ _ _ Hline) in Hrest. by inversion Hrest. }
    destruct (IH Hrest') as [IHw IHn].
    assert (IHw' : Forall (fun w => i <= w_exec w
                     /\ exists l, lines !! w_exec w = Some l
                                  /\ matches Pat.exec_step l = true) (windows d')).
    { eapply Forall_impl; [exact IHw|]. intros w [? ?]. split; [lia|done]. }
    inversion Hl as [logs|e'|rec w logs Hm Hp Hem]; subst; simpl.
    + split; [done|lia].
    + destruct Hem as (_ & _ & _ & Hi & _). split; [|lia].
      apply Forall_cons. split; [|done]. rewrite Hi. split; [lia|]. by exists line.
Qed.

Lemma scan_outcome_sorted task lines i rest lse r d :
  scan_outcome task lines i rest lse r d ->
  Forall (fun w => i <= w_exec w) (windows d)
  /\ StronglySorted lt (w_exec <$> windows d).
Proof.
  induction 1 as [i lse|i line rest lse e d Hl|i line rest lse e d r d' Hl Hs IH].
  - split; constructor.
  - inversion Hl; subst. split; constructor.
  - destruct IH as [IHw IHs].
    inversion Hl as [logs|e'|rec w logs Hm Hp Hem]; subst; simpl.
    + split; [|done]. eapply Forall_impl; [exact IHw|]. intros w ?. simpl in *. lia.
    + destruct Hem as (_ & _ & _ & Hi & _). split.
      * apply Forall_cons. split; [lia|].
        eapply Forall_impl; [exact IHw|]. intros w' ?. simpl in *. lia.
      * apply SSorted_cons; [done|]. apply Forall_fmap.
        eapply Forall_impl; [exact IHw|]. intros w' ?. simpl in *. lia.
Qed.

(** X9. For a file that is read, the tuples are appended in the order of
    their EXEC lines in the file: the line indices of the steps increase
    strictly, each is the index of a line that matches the EXEC pattern,
    and there is one tuple per step, so no more tuples than lines. *)
Theorem steps_follow_the_file :
  forall (fs : FS) (task : ScanTask) (lines : list string),
    readlines fs (file_path task) = Ok lines ->
    StronglySorted lt (w_exec <$> windows (run_task fs task empty_state))
    /\ Forall (fun w => exists l, lines !! w_exec w = Some l
                                  /\ matches Pat.exec_step l = true)
              (windows (run_task fs task empty_state))
    /\ length (windows (run_task fs task empty_state)) = length (task_records fs task)
    /\ length (task_records fs task) <= length lines.
Proof.
  intros fs task lines Hr.
  destruct (process_file_effect fs task) as (r & d & He & Ho).
  unfold task_records. rewrite (run_task_effect fs task r d He). simpl.
  rewrite task_delta_data, task_delta_windows.
  pose proof (file_outcome_facts fs task r d Ho) as (_ & Hlen & _).
  destruct Ho as [e Hr'| Hr' |lines' r' d' Hr' Hne Hs].
  - rewrite Hr in Hr'. discriminate.
  - simpl. repeat split; try constructor. lia.
  - rewrite Hr in Hr'. injection Hr' as <-.
    destruct (scan_outcome_order task lines 0 lines 0 r' d' eq_refl Hs) as [Hw Hn].
    destruct (scan_outcome_sorted task lines 0 lines 0 r' d' Hs) as [_ Hsorted].
    split; [done|]. split; [|by split].
    eapply Forall_impl; [exact Hw|]. by intros w [_ ?].
Qed.

Lemma steps_follow_the_file_witness :
  readlines Samples.fs_two_steps (file_path Samples.task_two_steps)
  = Ok (Py.splitlines_keepends
          (Samples.L "//* first" +:+ Samples.L "//S1 EXEC PGM=IDCAMS"
           +:+ Samples.L "//DD1 DD DSN=A" +:+ Samples.L "" +:+ Samples.L "//* second"
           +:+ Samples.L "//S2 EXEC PGM=IEBGENER" +:+ Samples.L "//DD2 DD DSN=B"))
  /\ StronglySorted lt
       (w_exec <$> windows (run_task Samples.fs_two_steps Samples.task_two_steps empty_state)).
Proof.
  assert (H : readlines Samples.fs_two_steps (file_path Samples.task_two_steps)
              = Ok (Py.splitlines_keepends
                      (Samples.L "//* first" +:+ Samples.L "//S1 EXEC PGM=IDCAMS"
                       +:+ Samples.L "//DD1 DD DSN=A" +:+ Samples.L "" +:+ Samples.L "//* second"
                       +:+ Samples.L "//S2 EXEC PGM=IEBGENER" +:+ Samples.L "//DD2 DD DSN=B")))
    by (vm_compute; reflexivity).
  split; [exact H|].
  exact (proj1 (steps_follow_the_file Samples.fs_two_steps Samples.task_two_steps _ H)).
Defined.

(** ** The shared list only grows *)

Lemma worker_extends fs queue : forall st,
  exists d, extract_steps_from_file fs queue st = extend st d.
Proof.
  induction queue as [|task queue IH]; intros st; cbn [extract_steps_from_file].
  - exists empty_state. by rewrite extend_empty.
  - destruct (process_file_effect fs task) as (r & d & He & _).
    rewrite (run_task_effect fs task r d He).
    destruct (IH (extend st (task_delta task r d))) as [d' ->].
    exists (extend (task_delta task r d) d'). by rewrite extend_assoc.
Qed.

Lemma pool_step_grows fs p i :
  p_data p `prefix_of` p_data (pool_step fs p i)
  /\ p_queue (pool_step fs p i) `suffix_of` p_queue p.
Proof.
  assert (Hp : forall l : list ExtractedStep, l `prefix_of` l) by (intros l; exists []; by rewrite app_nil_r).
  assert (Hs : forall l : list ScanTask, l `suffix_of` l) by (intros l; by exists []).
  unfold pool_step, set_worker.
  destruct (p_workers p !! i) as [w|]; [|split; [apply Hp|apply Hs]].
  destruct w as [| |[|r rest]|]; simpl; try (split; [apply Hp|apply Hs]).
  - destruct (p_queue p); simpl; split; [apply Hp|apply Hs|apply Hp|apply Hs].
  - destruct (p_queue p) as [|task queue] eqn:E; simpl; [split; [apply Hp|rewrite E; apply Hs]|].
    split; [apply Hp|]. by exists [task].
  - split; [|apply Hs]. by exists [r].
Qed.

(** X10. What is in [extracted_data] and in the log stays there, in place:
    after the worker loop has run on a queue the earlier list and log are
    prefixes of the new ones; and in a pool of threads every step leaves
    the shared list a prefix of what it becomes and takes tasks only from
    the head of the queue. *)
Theorem results_are_append_only :
  (forall (fs : FS) (queue : list ScanTask) (st : state),
     extracted_data st `prefix_of` extracted_data (extract_steps_from_file fs queue st)
     /\ log st `prefix_of` log (extract_steps_from_file fs queue st))
  /\ (forall (fs : FS) (schedule : list nat) (p : pool),
        p_data p `prefix_of` p_data (pool_run fs schedule p)
        /\ p_queue (pool_run fs schedule p) `suffix_of` p_queue p).
Proof.
  split.
  - intros fs queue st. destruct (worker_extends fs queue st) as [d ->].
    simpl. split; eexists; reflexivity.
  - intros fs schedule. induction schedule as [|i schedule IH]; intros p; [done|].
    rewrite pool_run_cons.
    destruct (pool_step_grows fs p i) as [Hd Hq].
    destruct (IH (pool_step fs p i)) as [IHd IHq].
    split; [by etrans|by etrans].
Qed.

(** ** The queue *)

Lemma endswith_app p t s : Py.endswith p s = true -> Py.endswith p (t +:+ s) = true.
Proof.
  intros H. induction t as [|x t IH]; [done|].
  rewrite str_app_cons. cbn [Py.endswith]. rewrite IH. apply orb_true_r.
Qed.

Lemma endswith_path_join p root file :
  Py.endswith p file = true -> Py.endswith p (Py.path_join root file) = true.
Proof.
  intros H. unfold Py.path_join.
  destruct (Py.startswith "/" file); [done|].
  destruct (Py.is_empty root || Py.endswith "/" root); by repeat apply endswith_app.
Qed.

Lemma upper_set_fixed (l : list string) (u : string) :
  u ∈ (list_to_set (Py.upper <$> l) : gset string) -> Py.upper u = u.
Proof.
  rewrite elem_of_list_to_set. intros H.
  apply list_elem_of_fmap in H as (x & -> & _). apply upper_idem.
Qed.

Lemma enqueue_files_facts root files utils cntllib procs task :
  task ∈ enqueue_files root files utils cntllib procs ->
  Py.endswith ".jcl" (file_path task) = true
  /\ (exists file, file ∈ files /\ file_path task = Py.path_join root file)
  /\ utilities task = utils /\ task_file_type task = "JCL"
  /\ cntllib_path task = cntllib /\ proc_libraries task = procs.
Proof.
  induction files as [|file files IH]; cbn [enqueue_files]; [by inversion 1|].
  destruct (Py.endswith ".jcl" file) eqn:He.
  - intros H. apply elem_of_cons in H as [->|H].
    + simpl. split; [by apply endswith_path_join|].
      split; [|done]. exists file. split; [left|done].
    + destruct (IH H) as (? & (f & ? & ?) & ?). split; [done|].
      split; [|done]. exists f. split; [by right|done].
  - intros H. destruct (IH H) as (? & (f & ? & ?) & ?). split; [done|].
    split; [|done]. exists f. split; [by right|done].
Qed.

Lemma enqueue_walk_facts w utils cntllib procs task :
  task ∈ enqueue_walk w utils cntllib procs ->
  Py.endswith ".jcl" (file_path task) = true
  /\ (exists root files file,
        (root, files) ∈ w /\ file ∈ files /\ file_path task = Py.path_join root file)
  /\ utilities task = utils /\ task_file_type task = "JCL"
  /\ cntllib_path task = cntllib /\ proc_libraries task = procs.
Proof.
  induction w as [|[root files] w IH]; cbn [enqueue_walk]; [by inversion 1|].
  intros H. apply elem_of_app in H as [H|H].
  - apply enqueue_files_facts in H as (? & (f & ? & ?) & ?). split; [done|].
    split; [|done]. exists root, files, f. split; [left|done].
  - destruct (IH H) as (? & (r & fl & f & ? & ? & ?) & ?). split; [done|].
    split; [|done]. exists r, fl, f. split; [by right|done].
Qed.

Lemma queued_tasks_utils fs config queue task :
  fill_queue fs config = Some queue ->
  task ∈ queue ->
  utilities task
  = list_to_set (Py.upper <$> default_utilities config)
    ∪ list_to_set (Py.upper <$> custom_utilities config).
Proof.
  intros Hq Hin. unfold fill_queue in Hq.
  destruct (negb (fs_isdir fs (default EmptyString (directories config !! "JCL"))));
    [discriminate|].
  destruct (negb (fs_isdir fs (default EmptyString (directories config !! "CNTLLIB"))));
    [discriminate|].
  destruct (negb (Py.is_empty _) && negb (fs_isdir fs _)); [discriminate|].
  injection Hq as <-.
  by apply enqueue_walk_facts in Hin as (_ & _ & Hu & _).
Qed.

(** X11. Every task that [process_files] queues is for a file that the
    walk of the JCL directory listed and whose name ends in [.jcl] (in
    lower case); all tasks carry the same utility set, the upper-cased
    default and custom names of the configuration together, the file type
    JCL and the CNTLLIB directory of the configuration, which exists. *)
Theorem queued_tasks :
  forall (fs : FS) (config : Config) (queue : list ScanTask) (task : ScanTask),
    fill_queue fs config = Some queue ->
    task ∈ queue ->
    Py.endswith ".jcl" (file_path task) = true
    /\ (exists root files file,
          (root, files) ∈ fs_walk fs (default EmptyString (directories config !! "JCL"))
          /\ file ∈ files /\ file_path task = Py.path_join root file)
    /\ utilities task
       = list_to_set (Py.upper <$> default_utilities config)
         ∪ list_to_set (Py.upper <$> custom_utilities config)
    /\ (forall u, u ∈ utilities task -> Py.upper u = u)
    /\ task_file_type task = "JCL"
    /\ cntllib_path task = default EmptyString (directories config !! "CNTLLIB")
    /\ fs_isdir fs (cntllib_path task) = true.
Proof.
  intros fs config queue task Hq Hin. unfold fill_queue in Hq.
  destruct (negb (fs_isdir fs (default EmptyString (directories config !! "JCL"))));
    [discriminate|].
  destruct (fs_isdir fs (default EmptyString (directories config !! "CNTLLIB"))) eqn:Hc;
    [|discriminate].
  simpl in Hq.
  destruct (negb (Py.is_empty _) && negb (fs_isdir fs _)); [discriminate|].
  injection Hq as <-.
  apply enqueue_walk_facts in Hin as (He & Hf & Hu & Ht & Hcl & _).
  split; [done|]. split; [done|]. split; [done|]. split.
  - intros u. rewrite Hu. intros Hu'. apply elem_of_union in Hu' as [Hu'|Hu'];
      by eapply upper_set_fixed.
  - split; [done|]. split; [done|]. by rewrite Hcl.
Qed.

Lemma queued_tasks_witness :
  fill_queue Samples.fs_jobs (Samples.config_threads None)
  = Some [mkTask "/jcl/b.jcl" {[ "IDCAMS"; "IEBGENER" ]} "JCL" "/cntl" [];
          mkTask "/jcl/d.jcl" {[ "IDCAMS"; "IEBGENER" ]} "JCL" "/cntl" []]
  /\ Py.endswith ".jcl" "/jcl/b.jcl" = true.
Proof.
  assert (H : fill_queue Samples.fs_jobs (Samples.config_threads None)
              = Some [mkTask "/jcl/b.jcl" {[ "IDCAMS"; "IEBGENER" ]} "JCL" "/cntl" [];
                      mkTask "/jcl/d.jcl" {[ "IDCAMS"; "IEBGENER" ]} "JCL" "/cntl" []]).
  { vm_compute. reflexivity. }
  split; [exact H|].
  refine (proj1 (queued_tasks Samples.fs_jobs (Samples.config_threads None) _
                   (mkTask "/jcl/b.jcl" {[ "IDCAMS"; "IEBGENER" ]} "JCL" "/cntl" []) H _)).
  left.
Defined.

(** ** Versioned file names *)

Lemma take_drop n : forall s, Re.take n s +:+ Os.drop n s = s.
Proof.
  induction n as [|n IH]; intros [|c s]; try reflexivity.
  cbn [Re.take Os.drop]. rewrite str_app_cons. by rewrite IH.
Qed.

Lemma skip_leading_dots_join seg p root ext :
  root +:+ ext = p ->
  (Os.skip_leading_dots seg p root ext).1 +:+ (Os.skip_leading_dots seg p root ext).2 = p.
Proof.
  intros H. induction seg as [|a seg IH]; cbn [Os.skip_leading_dots].
  - simpl. apply str_app_nil_r.
  - by destruct (negb (Py.ascii_eqb a "."%char)).
Qed.

Lemma splitext_join p : (Os.splitext p).1 +:+ (Os.splitext p).2 = p.
Proof.
  unfold Os.splitext.
  destruct (Os.rfind "/"%char p <? Os.rfind "."%char p)%Z.
  - apply skip_leading_dots_join, take_drop.
  - simpl. apply str_app_nil_r.
Qed.

Section VersioningFacts.
Variable fs : FS.

Lemma next_free_version_some fuel file_root file_ext : forall version name,
  next_free_version fs fuel file_root file_ext version = Some name ->
  exists v, version <= v < version + fuel
    /\ name = versioned_name file_root file_ext v
    /\ path_exists fs name = false
    /\ forall k, version <= k < v ->
         path_exists fs (versioned_name file_root file_ext k) = true.
Proof.
  induction fuel as [|fuel IH]; intros version name; cbn [next_free_version]; [done|].
  destruct (path_exists fs (versioned_name file_root file_ext version)) eqn:He.
  - intros H. destruct (IH _ _ H) as (v & Hv & Hn & Hf & Hk).
    exists v. split; [lia|]. split; [done|]. split; [done|].
    intros k Hk'. destruct (decide (k = version)) as [->|]; [done|]. apply Hk. lia.
  - intros [= <-]. exists version. split; [lia|]. split; [done|]. split; [done|].
    intros k Hk. lia.
Qed.

Lemma next_free_version_least fuel file_root file_ext v : forall version,
  version <= v < version + fuel ->
  (forall k, version <= k < v ->
     path_exists fs (versioned_name file_root file_ext k) = true) ->
  path_exists fs (versioned_name file_root file_ext v) = false ->
  next_free_version fs fuel file_root file_ext version
  = Some (versioned_name file_root file_ext v).
Proof.
  induction fuel as [|fuel IH]; intros version Hv Hk Hf; [lia|].
  cbn [next_free_version].
  destruct (decide (version = v)) as [->|Hne].
  - by rewrite Hf.
  - rewrite Hk by lia. apply IH; [lia| |done]. intros k Hk'. apply Hk. lia.
Qed.
End VersioningFacts.

(** X12. The name that [generate_versioned_filename] returns is never the
    path of something that exists.  It is the base name itself when that
    is free; otherwise it is the base name with [_v<n>] put in before the
    extension, for a number [n] of at least 1 such that the names of all
    the smaller numbers exist. *)
Theorem versioned_filename_is_free :
  forall (fs : FS) (fuel : nat) (base_filename name : string),
    generate_versioned_filename fs fuel base_filename = Some name ->
    path_exists fs name = false
    /\ (path_exists fs base_filename = false /\ name = base_filename
        \/ path_exists fs base_filename = true
           /\ exists (file_root file_ext : string) (n : nat),
                file_root +:+ file_ext = base_filename
                /\ 1 <= n
                /\ name = file_root +:+ "_v" +:+ str_of_nat n +:+ file_ext
                /\ forall k, 1 <= k < n ->
                     path_exists fs (file_root +:+ "_v" +:+ str_of_nat k +:+ file_ext) = true).
Proof.
  intros fs fuel base name. unfold generate_versioned_filename.
  destruct (path_exists fs base) eqn:He; simpl.
  - intros H. apply next_free_version_some in H as (v & Hv & Hn & Hf & Hk).
    split; [done|]. right. split; [done|].
    exists (Os.splitext base).1, (Os.splitext base).2, v.
    split; [apply splitext_join|]. split; [lia|]. split; [done|]. exact Hk.
  - intros [= <-]. split; [done|]. by left.
Qed.

Lemma versioned_filename_is_free_witness :
  generate_versioned_filename ReportSamples.fs_reports 10 "out/report_default.xlsx"
  = Some "out/report_default_v3.xlsx"
  /\ path_exists ReportSamples.fs_reports "out/report_default_v3.xlsx" = false.
Proof.
  assert (H : generate_versioned_filename ReportSamples.fs_reports 10 "out/report_default.xlsx"
              = Some "out/report_default_v3.xlsx") by (vm_compute; reflexivity).
  split; [exact H|].
  exact (proj1 (versioned_filename_is_free ReportSamples.fs_reports 10 _ _ H)).
Defined.

(** X13. When the base name exists, the names of the versions 1 to [n-1]
    exist and the name of version [n] does not, the loop of
    [generate_versioned_filename] ends after [n] tests and returns the name
    of version [n]: the smallest free version is the one chosen. *)
Theorem versioned_filename_is_the_first_free :
  forall (fs : FS) (fuel n : nat) (base_filename : string),
    path_exists fs base_filename = true ->
    1 <= n <= fuel ->
    (forall k, 1 <= k < n ->
       path_exists fs (versioned_name (Os.splitext base_filename).1
                                      (Os.splitext base_filename).2 k) = true) ->
    path_exists fs (versioned_name (Os.splitext base_filename).1
                                   (Os.splitext base_filename).2 n) = false ->
    generate_versioned_filename fs fuel base_filename
    = Some (versioned_name (Os.splitext base_filename).1 (Os.splitext base_filename).2 n).
Proof.
  intros fs fuel n base He Hn Hk Hf. unfold generate_versioned_filename.
  rewrite He. simpl. apply next_free_version_least; [lia|done|done].
Qed.

Lemma versioned_filename_is_the_first_free_witness :
  generate_versioned_filename ReportSamples.fs_reports 3 "out/report_default.xlsx"
  = Some (versioned_name (Os.splitext "out/report_default.xlsx").1
                         (Os.splitext "out/report_default.xlsx").2 3).
Proof.
  apply (versioned_filename_is_the_first_free ReportSamples.fs_reports 3 3).
  - vm_compute. reflexivity.
  - lia.
  - intros k Hk.
    assert (Hc : k = 1 \/ k = 2) by lia.
    destruct Hc as [->| ->]; vm_compute; reflexivity.
  - vm_compute. reflexivity.
Defined.

(** ** The prompt for a directory *)

Section ValidateFacts.
Variable fs : FS.

Lemma validate_answers_spec answers :
  match validate_answers fs answers with
  | (Ok p, rest) =>
      exists n, (Py.strip <$> answers) !! n = Some p
        /\ fs_isdir fs p = true
        /\ Forall (fun c => fs_isdir fs c = false) (take n (Py.strip <$> answers))
        /\ rest = drop (S n) answers
  | (Raise _, rest) =>
      Forall (fun c => fs_isdir fs c = false) (Py.strip <$> answers) /\ rest = []
  end.
Proof.
  induction answers as [|a answers IH]; cbn [validate_answers].
  - split; constructor.
  - destruct (fs_isdir fs (Py.strip a)) eqn:Hd.
    + exists 0. split; [done|]. split; [done|]. split; [constructor|done].
    + destruct (validate_answers fs answers) as [[p|e] rest].
      * destruct IH as (n & Hn & Hp & Hpre & Hrest).
        exists (S n). split; [done|]. split; [done|]. split; [|done].
        rewrite fmap_cons. cbn [take]. by apply Forall_cons.
      * destruct IH as [Hall ->]. split; [|done]. rewrite fmap_cons. by apply Forall_cons.
Qed.
End ValidateFacts.

(** X14. [validate_directory] tries the path it is given and then each
    line the user enters, stripped, in turn; it returns the first of them
    that is a directory, having read exactly the lines before it, so a
    valid path asks the user nothing.  It ends in an error only when none
    of them is a directory and the input has run out. *)
Theorem validate_directory_first_valid :
  forall (fs : FS) (path : string) (answers : list string),
    match validate_directory fs path answers with
    | (Ok p, rest) =>
        exists n, (path :: (Py.strip <$> answers)) !! n = Some p
          /\ fs_isdir fs p = true
          /\ Forall (fun c => fs_isdir fs c = false) (take n (path :: (Py.strip <$> answers)))
          /\ rest = drop n answers
    | (Raise _, rest) =>
        Forall (fun c => fs_isdir fs c = false) (path :: (Py.strip <$> answers))
        /\ rest = []
    end.
Proof.
  intros fs path answers. unfold validate_directory.
  destruct (fs_isdir fs path) eqn:Hd.
  - exists 0. split; [done|]. split; [done|]. split; [constructor|done].
  - pose proof (validate_answers_spec fs answers) as H.
    destruct (validate_answers fs answers) as [[p|e] rest].
    + destruct H as (n & Hn & Hp & Hpre & Hrest).
      exists (S n). split; [done|]. split; [done|]. split; [|done].
      cbn [take]. by apply Forall_cons.
    + destruct H as [Hall ->]. split; [|done]. by apply Forall_cons.
Qed.

(** ** The output section of the configuration *)

(** X15. After [add_output_dir_to_config] the configuration has an output
    section whose directory is the one given, so the reading
    [config['output'].get('directory', ...)] of [process_files] cannot
    fail and yields it; every other key of the output section and every
    other section is as before; and a second call replaces the directory
    of the first. *)
Theorem output_directory_is_set :
  forall (config : gmap string (gmap string cfg_value)) (output_dir : string)
         (dflt : cfg_value),
    output_get (add_output_dir_to_config config output_dir) "directory" dflt
    = Ok (VStr output_dir)
    /\ (forall key, key <> "directory" ->
          output_get (add_output_dir_to_config config output_dir) key dflt
          = Ok (default dflt (default ∅ (config !! "output") !! key)))
    /\ (forall section, section <> "output" ->
          add_output_dir_to_config config output_dir !! section = config !! section)
    /\ (forall earlier,
          add_output_dir_to_config (add_output_dir_to_config config earlier) output_dir
          = add_output_dir_to_config config output_dir).
Proof.
  intros config d dflt. unfold output_get, add_output_dir_to_config.
  split; [|split; [|split]].
  - rewrite lookup_insert_eq. simpl. by rewrite lookup_insert_eq.
  - intros key Hk. rewrite lookup_insert_eq. simpl.
    rewrite lookup_insert_ne by done.
    destruct (config !! "output") as [s|] eqn:Hs; simpl.
    + by rewrite Hs.
    + by rewrite lookup_insert_eq.
  - intros section Hs. rewrite lookup_insert_ne by done.
    destruct (config !! "output"); [done|]. by rewrite lookup_insert_ne.
  - intros earlier.
    destruct (config !! "output") as [s|] eqn:Hs; simpl.
    + rewrite !lookup_insert_eq. simpl. rewrite Hs. simpl.
      rewrite insert_insert_eq. by rewrite insert_insert_eq.
    + rewrite !lookup_insert_eq. simpl. by rewrite !insert_insert_eq.
Qed.

Lemma output_directory_is_set_witness :
  output_get (add_output_dir_to_config ReportSamples.config_plain "out") "filename"
             (VStr "jcl_utilities_report")
  = Ok (VStr "report")
  /\ add_output_dir_to_config ReportSamples.config_plain "out" !! "performance"
     = Some {[ "threads" := VInt 2 ]}.
Proof.
  pose proof (output_directory_is_set ReportSamples.config_plain "out"
                (VStr "jcl_utilities_report")) as (_ & Hkey & Hsec & _).
  split.
  - rewrite (Hkey "filename") by discriminate. vm_compute. reflexivity.
  - rewrite (Hsec "performance") by discriminate. vm_compute. reflexivity.
Defined.

(** ** The report frames *)

Lemma str_le_total : Total str_le.
Proof. intros s t. apply String.leb_total. Qed.

Lemma str_le_trans : Transitive str_le.
Proof.
  unfold str_le, String.leb. intros a.
  induction a as [|x a IH]; intros [|y b] [|z c]; simpl; try done.
  unfold Ascii.compare.
  destruct (N.compare_spec (N_of_ascii x) (N_of_ascii y)) as [E1|L1|G1];
    destruct (N.compare_spec (N_of_ascii y) (N_of_ascii z)) as [E2|L2|G2];
    destruct (N.compare_spec (N_of_ascii x) (N_of_ascii z)) as [E3|L3|G3];
    try done; try lia.
  apply IH.
Qed.

Lemma sorted_utils_perm utils : sorted_utils utils ≡ₚ elements utils.
Proof. apply merge_sort_Permutation. Qed.

Lemma sorted_utils_elem utils u : u ∈ sorted_utils utils <-> u ∈ utils.
Proof. by rewrite sorted_utils_perm, elem_of_elements. Qed.

Lemma sorted_utils_nodup utils : NoDup (sorted_utils utils).
Proof. rewrite sorted_utils_perm. apply NoDup_elements. Qed.

Lemma sorted_utils_sorted utils : StronglySorted str_le (sorted_utils utils).
Proof. apply StronglySorted_merge_sort; [apply str_le_trans|apply str_le_total]. Qed.

Lemma runs_eq u rec : runs u rec = true <-> program_name rec = u.
Proof. unfold runs, Py.str_eqb. apply String.eqb_eq. Qed.

Lemma existsb_filter_length {A} (f : A -> bool) (l : list A) :
  existsb f l = true <-> 0 < length (List.filter f l).
Proof.
  induction l as [|x l IH]; simpl; [split; [done|lia]|].
  destruct (f x); simpl; [split; [lia|done]|exact IH].
Qed.

Lemma elem_of_sheet_rows data u row :
  row ∈ sheet_rows data u
  <-> exists rec, rec ∈ data /\ program_name rec = u /\ row = sheet_row rec.
Proof.
  unfold sheet_rows. rewrite list_elem_of_fmap. split.
  - intros (rec & -> & Hin). apply list_elem_of_In, filter_In in Hin as [Hin Hr].
    exists rec. split; [by apply list_elem_of_In|]. split; [by apply runs_eq|done].
  - intros (rec & Hin & Hu & ->). exists rec. split; [done|].
    apply list_elem_of_In, filter_In. split; [by apply list_elem_of_In|by apply runs_eq].
Qed.

(** X16. A dashboard has one row for each utility of its set, in
    ascending order of the names and none twice.  In the row of a utility
    the count is the number of rows of that utility's sheet, and Found is
    Yes exactly when the count is not zero and No exactly when it is. *)
Theorem dashboard_rows :
  forall (utils : gset string) (data : list ExtractedStep),
    (fun row => row.1.1) <$> dashboard utils data = sorted_utils utils
    /\ StronglySorted str_le (sorted_utils utils)
    /\ NoDup (sorted_utils utils)
    /\ (forall u, u ∈ sorted_utils utils <-> u ∈ utils)
    /\ Forall (fun row =>
                 row.2 = length (sheet_rows data row.1.1)
                 /\ (row.1.2 = "Yes" <-> 0 < row.2)
                 /\ (row.1.2 = "No" <-> row.2 = 0))
              (dashboard utils data).
Proof.
  intros utils data. split; [|split; [|split; [|split]]].
  - unfold dashboard. rewrite <- list_fmap_compose. apply list_fmap_id.
  - apply sorted_utils_sorted.
  - apply sorted_utils_nodup.
  - apply sorted_utils_elem.
  - unfold dashboard. apply Forall_fmap, Forall_forall. intros u _.
    unfold dashboard_row, sheet_rows. simpl. rewrite length_fmap.
    split; [done|].
    pose proof (existsb_filter_length (runs u) data) as H.
    destruct (existsb (runs u) data).
    + assert (Hpos : 0 < length (List.filter (runs u) data)) by by apply H.
      split; split; try done; intros; lia.
    + assert (Hz : length (List.filter (runs u) data) = 0).
      { destruct (length (List.filter (runs u) data)); [done|].
        assert (false = true) by (apply H; lia). discriminate. }
      rewrite Hz. split; split; try done; intros; lia.
Qed.

Lemma dashboard_rows_witness :
  dashboard ReportSamples.utils3 ReportSamples.data3
  = [("IDCAMS", "Yes", 2); ("IEBGENER", "No", 0); ("SORT", "Yes", 1)]
  /\ ("IEBGENER" ∈ sorted_utils ReportSamples.utils3 <-> "IEBGENER" ∈ ReportSamples.utils3).
Proof.
  split; [vm_compute; reflexivity|].
  exact (proj1 (proj2 (proj2 (proj2
           (dashboard_rows ReportSamples.utils3 ReportSamples.data3)))) "IEBGENER").
Defined.

(** X17. The sheet of a utility holds a row for exactly the tuples of
    [extracted_data] whose program is that utility, with the columns File
    Name, File Type, Step Name, Comments, Step, SYSIN Type, SYSIN
    Statement, Control Card Member, Control Card Content; the rows keep the
    order of the tuples, and tuples appended later only add rows after
    them. *)
Theorem sheet_rows_are_the_tuples :
  forall (data more : list ExtractedStep) (u : string),
    (forall row, row ∈ sheet_rows data u
       <-> exists rec, rec ∈ data /\ program_name rec = u
             /\ row = [file_name rec; file_type rec; step_name rec; comments_text rec;
                       step_block_text rec; sysin_type rec; sysin_statement rec;
                       control_card_member rec; control_card_content rec])
    /\ sheet_rows data u `sublist_of` (sheet_row <$> data)
    /\ sheet_rows (data ++ more) u = sheet_rows data u ++ sheet_rows more u.
Proof.
  intros data more u. split; [|split].
  - intros row. apply elem_of_sheet_rows.
  - unfold sheet_rows.
    induction data as [|rec data IH]; simpl; [constructor|].
    destruct (runs u rec); [rewrite fmap_cons|]; by constructor.
  - unfold sheet_rows. by rewrite List.filter_app, fmap_app.
Qed.

Lemma sheet_in_workbook utils data rec :
  rec ∈ data -> program_name rec ∈ utils ->
  exists rows, (program_name rec, rows) ∈ utility_sheets utils data /\ sheet_row rec ∈ rows.
Proof.
  intros Hin Hu. exists (sheet_rows data (program_name rec)). split.
  - unfold utility_sheets. apply list_elem_of_fmap.
    exists (program_name rec). split; [done|]. by apply sorted_utils_elem.
  - apply elem_of_sheet_rows. by exists rec.
Qed.

Lemma concat_replicate_nil {A} m : concat (replicate m (@nil A)) = [].
Proof. induction m; simpl; auto. Qed.

Section ReportOfScan.
Variable fs : FS.

Lemma pool_data_from_queue n queue schedule rec :
  rec ∈ p_data (pool_run fs schedule (pool_start n queue)) ->
  exists task, task ∈ queue /\ rec ∈ task_records fs task.
Proof.
  intros Hin.
  assert (Hall : rec ∈ pool_all fs (pool_run fs schedule (pool_start n queue))).
  { unfold pool_all. apply elem_of_app. by left. }
  rewrite pool_run_all in Hall. unfold pool_all, pool_start in Hall. simpl in Hall.
  rewrite fmap_replicate in Hall. simpl in Hall. rewrite concat_replicate_nil in Hall.
  simpl in Hall. apply elem_of_concat in Hall as (recs & Hrec & Hrecs).
  apply list_elem_of_fmap in Hrecs as (task & -> & Htask). by exists task.
Qed.
End ReportOfScan.

(** X18. Whatever the schedule of the threads, every tuple that
    [process_files] has in [extracted_data] comes from a queued file, bears
    that file's base name, and has a row in the sheet named after its
    program in the default workbook or in the custom workbook (in both when
    the utility is in both sets). *)
Theorem every_tuple_is_reported :
  forall (fs : FS) (config : Config) (schedule : list nat) (p : pool) (rec : ExtractedStep),
    process_files fs config schedule = Some p ->
    rec ∈ p_data p ->
    (exists queue task, fill_queue fs config = Some queue /\ task ∈ queue
                        /\ rec ∈ task_records fs task
                        /\ file_name rec = Py.basename (file_path task))
    /\ ((exists rows,
           (program_name rec, rows)
             ∈ utility_sheets (list_to_set (Py.upper <$> default_utilities config)) (p_data p)
           /\ sheet_row rec ∈ rows)
        \/ (exists rows,
              (program_name rec, rows)
                ∈ utility_sheets (list_to_set (Py.upper <$> custom_utilities config)) (p_data p)
              /\ sheet_row rec ∈ rows)).
Proof.
  intros fs config schedule p rec Hp Hin. unfold process_files in Hp.
  destruct (fill_queue fs config) as [queue|] eqn:Hq; [|discriminate].
  injection Hp as <-.
  destruct (pool_data_from_queue fs _ _ _ _ Hin) as (task & Htask & Hrec).
  pose proof (task_records_ok fs task) as Hok. rewrite Forall_forall in Hok.
  destruct (Hok rec Hrec) as (Hu & Hname & _).
  pose proof (queued_tasks_utils fs config queue task Hq Htask) as Hutils.
  rewrite Hutils in Hu. split.
  - by exists queue, task.
  - apply elem_of_union in Hu as [Hu|Hu]; [left|right]; by apply sheet_in_workbook.
Qed.

Lemma every_tuple_is_reported_witness :
  exists p rec,
    process_files Samples.fs_jobs (Samples.config_threads (Some 1%Z)) Samples.schedule_alone
    = Some p
    /\ p_data p !! 0 = Some rec
    /\ ((exists rows,
           (program_name rec, rows)
             ∈ utility_sheets (list_to_set (Py.upper <$> ["idcams"])) (p_data p)
           /\ sheet_row rec ∈ rows)
        \/ (exists rows,
              (program_name rec, rows)
                ∈ utility_sheets (list_to_set (Py.upper <$> ["iebgener"])) (p_data p)
              /\ sheet_row rec ∈ rows)).
Proof.
  eexists _, _.
  split; [vm_compute; reflexivity|].
  split; [reflexivity|].
  refine (proj2 (every_tuple_is_reported Samples.fs_jobs (Samples.config_threads (Some 1%Z))
                   Samples.schedule_alone _ _ _ _)).
  - vm_compute; reflexivity.
  - left.
Defined.

(** ** The warnings and the layout of the sheets *)

Lemma elem_of_found (utils : gset string) (data : list ExtractedStep) (u : string) :
  u ∈ (list_to_set
         (program_name <$>
            List.filter (fun rec => bool_decide (program_name rec ∈ utils)) data)
       : gset string)
  <-> u ∈ utils /\ exists rec, rec ∈ data /\ program_name rec = u.
Proof.
  rewrite elem_of_list_to_set, list_elem_of_fmap. split.
  - intros (rec & -> & Hin). apply list_elem_of_In, filter_In in Hin as [Hin Hu].
    apply bool_decide_eq_true in Hu. split; [done|].
    exists rec. split; [by apply list_elem_of_In|done].
  - intros (Hu & rec & Hin & <-). exists rec. split; [done|].
    apply list_elem_of_In, filter_In. split; [by apply list_elem_of_In|].
    by apply bool_decide_eq_true.
Qed.

Lemma existsb_runs data u :
  existsb (runs u) data = true <-> exists rec, rec ∈ data /\ program_name rec = u.
Proof.
  rewrite existsb_exists. split.
  - intros (rec & Hin & Hr). exists rec. split; [by apply list_elem_of_In|by apply runs_eq].
  - intros (rec & Hin & Hr). exists rec. split; [by apply list_elem_of_In|by apply runs_eq].
Qed.

(** X19. The utilities named in a warning are those of the set that no
    tuple of [extracted_data] has as its program, in ascending order; they
    are the utilities whose row in the dashboard says No with a count of
    zero. *)
Theorem missing_utilities_are_the_rows_with_no :
  forall (utils : gset string) (data : list ExtractedStep),
    StronglySorted str_le (missing_utilities utils data)
    /\ NoDup (missing_utilities utils data)
    /\ (forall u, u ∈ missing_utilities utils data
                  <-> u ∈ utils /\ forall rec, rec ∈ data -> program_name rec <> u)
    /\ (forall u, u ∈ missing_utilities utils data
                  <-> (u, "No", 0) ∈ dashboard utils data).
Proof.
  intros utils data.
  assert (Hiff : forall u, u ∈ missing_utilities utils data
                   <-> u ∈ utils /\ forall rec, rec ∈ data -> program_name rec <> u).
  { intros u. unfold missing_utilities.
    rewrite sorted_utils_elem, elem_of_difference, elem_of_found. split.
    - intros [Hu Hn]. split; [done|]. intros rec Hin Heq. apply Hn. split; [done|by exists rec].
    - intros [Hu Hn]. split; [done|]. intros (_ & rec & Hin & Heq). by apply (Hn rec). }
  split; [apply sorted_utils_sorted|]. split; [apply sorted_utils_nodup|].
  split; [exact Hiff|].
  intros u. rewrite Hiff. unfold dashboard. rewrite list_elem_of_fmap. split.
  - intros [Hu Hn]. exists u. split; [|by apply sorted_utils_elem].
    unfold dashboard_row.
    destruct (existsb (runs u) data) eqn:He.
    + apply existsb_runs in He as (rec & Hin & Heq). by destruct (Hn rec Hin).
    + assert (Hz : length (List.filter (runs u) data) = 0).
      { destruct (length (List.filter (runs u) data)) eqn:Hl; [done|].
        assert (Ht : existsb (runs u) data = true) by (apply existsb_filter_length; lia).
        congruence. }
      by rewrite Hz.
  - intros (u' & Heq & Hin). unfold dashboard_row in Heq.
    injection Heq as <- Hflag Hz. split; [by apply sorted_utils_elem|].
    intros rec Hrec Hp.
    assert (Ht : existsb (runs u) data = true) by (apply existsb_runs; by exists rec).
    rewrite Ht in Hflag. discriminate.
Qed.

Lemma missing_utilities_are_the_rows_with_no_witness :
  missing_utilities ReportSamples.utils3 ReportSamples.data3 = ["IEBGENER"]
  /\ ("IEBGENER" ∈ missing_utilities ReportSamples.utils3 ReportSamples.data3
      <-> ("IEBGENER", "No", 0) ∈ dashboard ReportSamples.utils3 ReportSamples.data3).
Proof.
  split; [vm_compute; reflexivity|].
  exact (proj2 (proj2 (proj2
           (missing_utilities_are_the_rows_with_no ReportSamples.utils3 ReportSamples.data3)))
           "IEBGENER").
Defined.

Lemma max_list_bound (ns : list nat) n : n ∈ ns -> n <= max_list ns.
Proof.
  induction ns as [|m ns IH]; [by inversion 1|].
  intros H. apply elem_of_cons in H as [->|H]; simpl; [lia|]. specialize (IH H). lia.
Qed.

Lemma max_list_reached (ns : list nat) : ns = [] \/ max_list ns ∈ ns.
Proof.
  induction ns as [|m ns IH]; [by left|right]. simpl.
  destruct IH as [->|IH]; [simpl; rewrite Nat.max_0_r; left|].
  destruct (Nat.max_spec m (max_list ns)) as [[_ ->]|[_ ->]]; [by right|left].
Qed.

(** X20. The width given to a column is never more than 50.  When the
    header and the cells have at most 48 characters, it is two more than
    the longest of them, so each of them fits with two characters to spare;
    otherwise it is 50. *)
Theorem column_width_bounds :
  forall (header : string) (cells : list string),
    2 <= column_width header cells <= 50
    /\ (Forall (fun c => String.length c <= 48) (header :: cells) ->
        Forall (fun c => String.length c + 2 <= column_width header cells) (header :: cells)
        /\ exists c, c ∈ header :: cells
                     /\ column_width header cells = String.length c + 2)
    /\ (~ Forall (fun c => String.length c <= 48) (header :: cells) ->
        column_width header cells = 50).
Proof.
  intros header cells. unfold column_width.
  set (m := max_list (String.length <$> cells)).
  assert (Hcells : forall c, c ∈ cells -> String.length c <= m).
  { intros c Hc. apply max_list_bound. apply list_elem_of_fmap. by exists c. }
  split; [lia|]. split.
  - intros Hall. apply Forall_cons in Hall as [Hh Hall].
    assert (Hm : m <= 48).
    { destruct (max_list_reached (String.length <$> cells)) as [Hnil|Hin].
      - subst m. rewrite Hnil. simpl. lia.
      - apply list_elem_of_fmap in Hin as (c & Hc & Hin). fold m in Hc. rewrite Hc.
        rewrite Forall_forall in Hall. by apply Hall. }
    split.
    + apply Forall_cons. split; [lia|].
      apply Forall_forall. intros c Hc. specialize (Hcells c Hc). lia.
    + destruct (Nat.max_spec m (String.length header)) as [[Hlt Hmax]|[Hle Hmax]].
      * exists header. split; [left|]. lia.
      * destruct (max_list_reached (String.length <$> cells)) as [Hnil|Hin].
        -- exists header. split; [left|]. subst m. rewrite Hnil in *. simpl in *. lia.
        -- apply list_elem_of_fmap in Hin as (c & Hc & Hin). fold m in Hc.
           exists c. split; [by right|]. lia.
  - intros Hn.
    destruct (decide (String.length header <= 48)) as [Hh|Hh]; [|lia].
    destruct (decide (m <= 48)) as [Hm|Hm]; [|lia].
    exfalso. apply Hn. apply Forall_cons. split; [done|].
    apply Forall_forall. intros c Hc. specialize (Hcells c Hc). lia.
Qed.

Lemma column_width_bounds_witness :
  column_width "Utility" ["IDCAMS"; "IEBGENER"; "SORT"] = 10
  /\ Forall (fun c => String.length c + 2 <= column_width "Utility" ["IDCAMS"; "IEBGENER"; "SORT"])
            ("Utility" :: ["IDCAMS"; "IEBGENER"; "SORT"]).
Proof.
  split; [vm_compute; reflexivity|].
  refine (proj1 (proj1 (proj2 (column_width_bounds "Utility" ["IDCAMS"; "IEBGENER"; "SORT"])) _)).
  repeat constructor.
Defined.

Lemma max_text_lines_from (cells : list string) : forall m,
  m <= foldl (fun m text => Nat.max m (length (Py.split_lines text))) m cells
  /\ (forall text, text ∈ cells ->
        length (Py.split_lines text)
        <= foldl (fun m text => Nat.max m (length (Py.split_lines text))) m cells)
  /\ (foldl (fun m text => Nat.max m (length (Py.split_lines text))) m cells = m
      \/ exists text, text ∈ cells
           /\ foldl (fun m text => Nat.max m (length (Py.split_lines text))) m cells
              = length (Py.split_lines text)).
Proof.
  induction cells as [|c cells IH]; intros m; simpl.
  { split; [lia|]. split; [by inversion 1|by left]. }
  destruct (IH (Nat.max m (length (Py.split_lines c)))) as (H1 & H2 & H3).
  split; [lia|]. split.
  - intros text Ht. apply elem_of_cons in Ht as [->|Ht]; [lia|by apply H2].
  - destruct H3 as [H3|(text & Ht & H3)].
    + rewrite H3. destruct (Nat.max_spec m (length (Py.split_lines c))) as [[_ ->]|[_ ->]].
      * right. exists c. split; [left|done].
      * by left.
    + right. exists text. split; [by right|done].
Qed.

(** X21. The height given to a row is 15 points for each line of its
    tallest cell: it is at least 15, it is 15 times the number of lines of
    some cell (or 15 for a row of one-line cells), and no cell has more
    lines than the height allows for; the lines of a cell being the pieces
    between its line ends. *)
Theorem row_height_fits_the_tallest_cell :
  forall (cells : list string),
    15 <= row_height cells
    /\ (forall text, text ∈ cells ->
          15 * length (Py.split_lines text) <= row_height cells)
    /\ (row_height cells = 15
        \/ exists text, text ∈ cells
             /\ row_height cells = 15 * length (Py.split_lines text))
    /\ (Forall (fun text => Py.has_newline text = false) cells -> row_height cells = 15).
Proof.
  intros cells. unfold row_height, max_text_lines.
  destruct (max_text_lines_from cells 1) as (H1 & H2 & H3).
  set (n := foldl (fun m text => Nat.max m (length (Py.split_lines text))) 1 cells) in *.
  split; [lia|]. split; [|split].
  - intros text Ht. specialize (H2 text Ht). lia.
  - destruct H3 as [H3|(text & Ht & H3)]; [left; lia|].
    right. exists text. split; [done|]. lia.
  - intros Hall. destruct H3 as [H3|(text & Ht & H3)]; [lia|].
    rewrite Forall_forall in Hall. rewrite H3, (split_lines_one _ (Hall text Ht)).
    simpl. lia.
Qed.

Lemma row_height_fits_the_tallest_cell_witness :
  row_height (sheet_row MoreSamples.step_inline) = 45
  /\ (Forall (fun text => Py.has_newline text = false)
             (sheet_row (ReportSamples.step_of "a.jcl" "S1" "IDCAMS")) ->
      row_height (sheet_row (ReportSamples.step_of "a.jcl" "S1" "IDCAMS")) = 15).
Proof.
  split; [vm_compute; reflexivity|].
  exact (proj2 (proj2 (proj2 (row_height_fits_the_tallest_cell
                                (sheet_row (ReportSamples.step_of "a.jcl" "S1" "IDCAMS")))))).
Defined.

(** ** The names the extractor gives to the resolver *)

Lemma is_word_upper c : Py.is_word (Py.upper_char c) = Py.is_word c.
Proof. destruct c as [[] [] [] [] [] [] [] []]; vm_compute; reflexivity. Qed.

Lemma all_word_upper s :
  all_chars Py.is_word s = true -> all_chars Py.is_word (Py.upper s) = true.
Proof.
  induction s as [|a s IH]; [done|]. cbn [all_chars Py.upper].
  intros H. apply andb_true_iff in H as [Ha Hs]. by rewrite is_word_upper, Ha, IH.
Qed.

Lemma chr_ci_amp a : Re.chr_ci "&" a = true -> a = "&"%char.
Proof. destruct a as [[] [] [] [] [] [] [] []]; vm_compute; congruence. Qed.

Ltac inv_parts :=
  repeat match goal with
  | H : matched (Re.plus _) _ _ |- _ => apply matched_plus in H as (-> & ? & ?)
  | H : matched (Re.Seq _ _) _ _ |- _ => inversion H; subst; clear H
  | H : matched Re.Eps _ _ |- _ => inversion H; subst; clear H
  | H : matched Re.Bnd _ _ |- _ => inversion H; subst; clear H
  | H : matched (Re.Cls _) _ _ |- _ => inversion H; subst; clear H
  end.

(** What the second group of the EXEC pattern binds: a word, or an
    ampersand and a word. *)
Lemma exec_step_program line c :
  Re.re_match Pat.exec_step line = Some c ->
  (all_chars Py.is_word (Re.group 2 c) = true /\ Re.group 2 c <> EmptyString)
  \/ exists w, Re.group 2 c = String "&" w /\ all_chars Py.is_word w = true
               /\ w <> EmptyString.
Proof.
  intros H. apply re_match_sound in H as (pre & H).
  unfold Pat.exec_step, Re.cat in H. cbn [foldr] in H.
  inv_seq H. apply matched_lit in Hm. subst.
  inv_seq Hm0. inversion Hm; subst; clear Hm.
  match goal with H : matched (Re.plus _) _ _ |- _ =>
    apply matched_plus in H as (-> & Hne & Hall) end.
  inv_seq Hm1. apply matched_plus in Hm as (-> & _ & _).
  inv_seq Hm0. apply matched_lit in Hm. subst.
  inv_seq Hm1. apply matched_plus in Hm as (-> & _ & _).
  inv_seq Hm0. apply matched_groupless in Hm; [|reflexivity]. subst.
  inv_seq Hm1. inversion Hm0; subst; clear Hm0.
  inversion Hm; subst; clear Hm.
  simpl.
  match goal with H : matched (Re.Alt _ _) _ _ |- _ =>
    inversion H as [| | |? ? ? ? Hl|? ? ? ? Hr| | | | |]; subst; clear H end.
  - left. inv_parts.
    rewrite ?str_app_nil_l, ?str_app_nil_r. by split.
  - right. unfold Re.liti in Hr. cbn [Re.lit_with] in Hr. inv_parts.
    match goal with H : Re.chr_ci _ _ = true |- _ => apply chr_ci_amp in H; subst end.
    rewrite ?str_app_nil_r, ?str_app_cons, ?str_app_nil_l.
    eexists. split; [reflexivity|]. by split.
Qed.

(** X22. The name the step extractor passes to the resolver, which is the
    upper-cased program field of an EXEC line less its leading ampersand,
    is never empty and is made of word characters only: it is a name for
    which the patterns of the resolver are the ones the resolver builds. *)
Theorem extractor_passes_plain_names :
  forall (line : string) (c : Re.caps),
    Re.re_match Pat.exec_step line = Some c ->
    Py.startswith "&" (Py.upper (Re.group 2 c)) = true ->
    Pat.plain_name (Py.tail (Py.upper (Re.group 2 c))) = true
    /\ Py.tail (Py.upper (Re.group 2 c)) <> EmptyString.
Proof.
  intros line c Hm Hamp.
  destruct (exec_step_program line c Hm) as [[Hall Hne]|(w & Hw & Hall & Hne)].
  - exfalso. destruct (Re.group 2 c) as [|a s]; [done|].
    cbn [all_chars] in Hall. apply andb_true_iff in Hall as [Ha _].
    cbn [Py.upper Py.startswith] in Hamp. apply andb_true_iff in Hamp as [Hamp _].
    apply ascii_eqb_eq in Hamp. rewrite <- is_word_upper, <- Hamp in Ha. discriminate.
  - rewrite Hw. cbn [Py.upper Py.tail]. unfold Pat.plain_name. split.
    + by apply all_word_upper.
    + destruct w; [done|]. discriminate.
Qed.

Lemma extractor_passes_plain_names_witness :
  Pat.plain_name (Py.tail (Py.upper (Re.group 2 [(2, "&util"); (1, "S2")]))) = true
  /\ Py.tail (Py.upper (Re.group 2 [(2, "&util"); (1, "S2")])) <> EmptyString.
Proof.
  apply (extractor_passes_plain_names (Samples.L "//S2 EXEC &util")).
  - vm_compute; reflexivity.
  - vm_compute; reflexivity.
Defined.

(** ** Nothing found is left out of the report *)

Lemma elem_of_concat_2 {A} (x : A) (l : list A) (ls : list (list A)) :
  x ∈ l -> l ∈ ls -> x ∈ concat ls.
Proof.
  intros Hx. induction ls as [|l' ls IH]; [by inversion 1|].
  intros H. simpl. apply elem_of_app. apply elem_of_cons in H as [<-|H]; [by left|].
  right. by apply IH.
Qed.

(** X23. When at least one thread is asked for and every thread has
    joined, whatever the schedule was, every step that the scan of a
    queued file yields is in [extracted_data], and so has its row in the
    sheet named after its program in the default workbook or in the custom
    workbook. *)
Theorem joined_run_reports_every_step :
  forall (fs : FS) (config : Config) (schedule : list nat) (p : pool)
         (queue : list ScanTask) (task : ScanTask) (rec : ExtractedStep),
    (0 < num_threads config)%Z ->
    fill_queue fs config = Some queue ->
    process_files fs config schedule = Some p ->
    joined p = true ->
    task ∈ queue ->
    rec ∈ task_records fs task ->
    rec ∈ p_data p
    /\ ((exists rows,
           (program_name rec, rows)
             ∈ utility_sheets (list_to_set (Py.upper <$> default_utilities config)) (p_data p)
           /\ sheet_row rec ∈ rows)
        \/ (exists rows,
              (program_name rec, rows)
                ∈ utility_sheets (list_to_set (Py.upper <$> custom_utilities config)) (p_data p)
              /\ sheet_row rec ∈ rows)).
Proof.
  intros fs config schedule p queue task rec Hn Hq Hp Hj Htask Hrec.
  unfold process_files in Hp. rewrite Hq in Hp. injection Hp as <-.
  set (n := length (started_threads config queue)) in *.
  assert (Hpos : queue = [] \/ 0 < n).
  { right. subst n. unfold started_threads.
    pose proof (length_py_range (Z.min (num_threads config) (Z.of_nat (length queue)))) as Hl.
    destruct queue as [|t queue]; [by inversion Htask|]. simpl length in *. lia. }
  pose proof (joined_pool_data fs n queue schedule Hpos Hj) as Hdata.
  assert (Hin : rec ∈ p_data (pool_run fs schedule (pool_start n queue))).
  { rewrite Hdata. apply (elem_of_concat_2 _ (task_records fs task)); [done|].
    apply list_elem_of_fmap. by exists task. }
  split; [exact Hin|].
  pose proof (task_records_ok fs task) as Hok. rewrite Forall_forall in Hok.
  destruct (Hok rec Hrec) as (Hu & _).
  rewrite (queued_tasks_utils fs config queue task Hq Htask) in Hu.
  apply elem_of_union in Hu as [Hu|Hu]; [left|right]; by apply sheet_in_workbook.
Qed.

Lemma joined_run_reports_every_step_witness :
  exists p rec,
    process_files Samples.fs_jobs (Samples.config_threads (Some 1%Z)) Samples.schedule_alone
    = Some p
    /\ task_records Samples.fs_jobs
         (mkTask "/jcl/d.jcl" {[ "IDCAMS"; "IEBGENER" ]} "JCL" "/cntl" []) !! 1 = Some rec
    /\ rec ∈ p_data p.
Proof.
  eexists _, _.
  split; [vm_compute; reflexivity|].
  split; [vm_compute; reflexivity|].
  refine (proj1 (joined_run_reports_every_step Samples.fs_jobs
                   (Samples.config_threads (Some 1%Z)) Samples.schedule_alone _
                   [mkTask "/jcl/b.jcl" {[ "IDCAMS"; "IEBGENER" ]} "JCL" "/cntl" [];
                    mkTask "/jcl/d.jcl" {[ "IDCAMS"; "IEBGENER" ]} "JCL" "/cntl" []]
                   (mkTask "/jcl/d.jcl" {[ "IDCAMS"; "IEBGENER" ]} "JCL" "/cntl" [])
                   _ _ _ _ _ _ _)).
  - vm_compute; reflexivity.
  - vm_compute; reflexivity.
  - vm_compute; reflexivity.
  - vm_compute; reflexivity.
  - right. left.
  - apply (list_elem_of_lookup_2 _ 1). vm_compute; reflexivity.
Defined.
